(** * Plugin system core of decentclaude: a shallow embedding

    The development follows [src/plugins/core]: [version.py],
    [dependencies.py], [config.py], [manifest.py], [base.py] and
    [loader.py].  Python text is modelled as ASCII strings, Python integers
    as [N] or [Z], dictionaries (which keep insertion order) as association
    lists, sets as [gset], and raised exceptions as the [Raise] outcome of a
    small error monad. *)

From Stdlib Require Import String Ascii NArith ZArith.
From stdpp Require Import base tactics option list sets gmap strings pretty
  relations sorting.

Set Warnings "-register-all".

Local Open Scope string_scope.
Local Open Scope list_scope.

(** ** Exceptions and outcomes *)

(** The exception classes the plugin core raises or lets through, all of
    them subclasses of [Exception].  Each one carries the message it was
    built with; [PluginCodeError] stands for whatever else plugin code
    raises. *)
Inductive exn : Type :=
  | ValueError (msg : string)
  | TypeError (msg : string)
  | KeyError (msg : string)
  | AttributeError (msg : string)
  | CircularDependencyError (msg : string)
  | MissingDependencyError (msg : string)
  | IndexError (msg : string)
  | PluginLoadError (msg : string)
  | PluginCodeError (msg : string).

(** [str(e)] for an exception built from one message. *)
Definition exn_message (e : exn) : string :=
  match e with
  | ValueError m | TypeError m | AttributeError m | IndexError m
  | CircularDependencyError m | MissingDependencyError m
  | PluginLoadError m | PluginCodeError m => m
  | KeyError m => "'" +:+ m +:+ "'"
  end.

(** [isinstance(e, DependencyError)]: the two subclasses of
    [DependencyError]. *)
Definition is_DependencyError (e : exn) : bool :=
  match e with
  | CircularDependencyError _ | MissingDependencyError _ => true
  | _ => false
  end.

(** A call either returns, raises, or (for the fuel-bounded traversal only)
    runs out of fuel. *)
Inductive outcome (A : Type) : Type :=
  | Ok (a : A)
  | Raise (e : exn)
  | OutOfFuel.
Arguments Ok {A} a.
Arguments Raise {A} e.
Arguments OutOfFuel {A}.

#[export] Instance outcome_bind : MBind outcome := fun A B k m =>
  match m with
  | Ok a => k a
  | Raise e => Raise e
  | OutOfFuel => OutOfFuel
  end.
#[export] Instance outcome_ret : MRet outcome := fun A a => Ok a.

(** [for x in xs: body(x)] threading a state and stopping at the first
    raise. *)
Fixpoint for_each {A S} (body : A -> S -> outcome S) (xs : list A) (s : S)
  : outcome S :=
  match xs with
  | [] => Ok s
  | x :: xs' => s' ← body x s; for_each body xs' s'
  end.

(** A loop that mutates an object [s]: when the body raises, the object
    stays as the body left it. *)
Fixpoint for_each_st {A S} (body : A -> S -> S * outcome ()) (xs : list A)
    (s : S) : S * outcome () :=
  match xs with
  | [] => (s, Ok ())
  | x :: xs' =>
      match body x s with
      | (s', Ok _) => for_each_st body xs' s'
      | stopped => stopped
      end
  end.

(** ** Text helpers *)

Module Text.

Definition is_digit (c : ascii) : bool :=
  let n := N_of_ascii c in (48 <=? n)%N && (n <=? 57)%N.
Definition is_lower (c : ascii) : bool :=
  let n := N_of_ascii c in (97 <=? n)%N && (n <=? 122)%N.
Definition is_upper (c : ascii) : bool :=
  let n := N_of_ascii c in (65 <=? n)%N && (n <=? 90)%N.

Definition newline : ascii := ascii_of_N 10.

(** Longest prefix whose characters satisfy [p], and the rest. *)
Fixpoint span (p : ascii -> bool) (s : string) : string * string :=
  match s with
  | EmptyString => (EmptyString, EmptyString)
  | String c s' =>
      if p c then let '(a, b) := span p s' in (String c a, b)
      else (EmptyString, s)
  end.

Fixpoint all_chars (p : ascii -> bool) (s : string) : bool :=
  match s with
  | EmptyString => true
  | String c s' => p c && all_chars p s'
  end.

Definition is_empty (s : string) : bool :=
  match s with EmptyString => true | _ => false end.

(** The anchor [$] of [re] matches at the end of the text or just before
    a newline that ends it: a pattern [^...$] whose body cannot match a
    newline accepts [s] iff its body matches [chomp s] entirely. *)
Fixpoint chomp (s : string) : string :=
  match s with
  | EmptyString => EmptyString
  | String c EmptyString =>
      if Ascii.eqb c newline then EmptyString else s
  | String c s' => String c (chomp s')
  end.

(** [int(digits)] for a run of ASCII digits. *)
Fixpoint int_of_digits_acc (acc : N) (s : string) : N :=
  match s with
  | EmptyString => acc
  | String c s' => int_of_digits_acc (acc * 10 + (N_of_ascii c - 48))%N s'
  end.
Definition int_of_digits (s : string) : N := int_of_digits_acc 0%N s.

(** [sep.join(items)]. *)
Fixpoint join (sep : string) (items : list string) : string :=
  match items with
  | [] => EmptyString
  | [x] => x
  | x :: rest => x +:+ sep +:+ join sep rest
  end.

(** [s.split(sep)] for a one-character separator: never empty. *)
Fixpoint split_on (sep : ascii) (s : string) : list string :=
  match s with
  | EmptyString => [EmptyString]
  | String c s' =>
      if Ascii.eqb c sep then EmptyString :: split_on sep s'
      else match split_on sep s' with
           | [] => [String c EmptyString]
           | w :: ws => String c w :: ws
           end
  end.

(** [s.rsplit(sep, 1)] when it has two parts: the text before and after
    the last separator. *)
Fixpoint rsplit1 (sep : ascii) (s : string) : option (string * string) :=
  match s with
  | EmptyString => None
  | String c s' =>
      match rsplit1 sep s' with
      | Some (a, b) => Some (String c a, b)
      | None => if Ascii.eqb c sep then Some (EmptyString, s') else None
      end
  end.

(** [s.replace(a, b)] for single characters. *)
Fixpoint replace_char (a b : ascii) (s : string) : string :=
  match s with
  | EmptyString => EmptyString
  | String c s' =>
      String (if Ascii.eqb c a then b else c) (replace_char a b s')
  end.

(** [needle in haystack] on text. *)
Fixpoint is_substring (needle haystack : string) : bool :=
  String.prefix needle haystack
  || match haystack with
     | EmptyString => false
     | String _ h' => is_substring needle h'
     end.

(** [s[n:]]. *)
Fixpoint drop (n : nat) (s : string) : string :=
  match n, s with
  | O, _ => s
  | S n', String _ s' => drop n' s'
  | S _, EmptyString => EmptyString
  end.

(** [c.isspace()] for an ASCII character. *)
Definition is_space (c : ascii) : bool :=
  let n := N_of_ascii c in
  ((9 <=? n)%N && (n <=? 13)%N) || ((28 <=? n)%N && (n <=? 32)%N).

(** [s.lstrip()], [s.rstrip()] and [s.strip()]. *)
Fixpoint lstrip (s : string) : string :=
  match s with
  | EmptyString => EmptyString
  | String c s' => if is_space c then lstrip s' else s
  end.
Fixpoint rstrip (s : string) : string :=
  match s with
  | EmptyString => EmptyString
  | String c s' =>
      match rstrip s' with
      | EmptyString => if is_space c then EmptyString else String c EmptyString
      | r => String c r
      end
  end.
Definition strip (s : string) : string := rstrip (lstrip s).

End Text.

(** ** version.py *)

Module Version.

Record SemanticVersion : Type := mkSemVer {
  original : string;
  major : N;
  minor : N;
  patch : N;
  prerelease : string;
  metadata : string
}.

(** The class [[a-z0-9.-]] under [re.IGNORECASE]. *)
Definition is_tag_char (c : ascii) : bool :=
  Text.is_lower c || Text.is_upper c || Text.is_digit c
  || Ascii.eqb c "."%char || Ascii.eqb c "-"%char.

(** An optional group [(?:<lead>([a-z0-9.-]+))?]: the captured text (empty when
    the group does not take part) and what is left to match. *)
Definition optional_tag (lead : ascii) (s : string) : string * string :=
  match s with
  | String c s' =>
      if Ascii.eqb c lead then
        let '(tag, rest) := Text.span is_tag_char s' in
        if Text.is_empty tag then (EmptyString, s) else (tag, rest)
      else (EmptyString, s)
  | EmptyString => (EmptyString, s)
  end.

(** [\d+] followed by a literal dot. *)
Definition digits_dot (s : string) : option (string * string) :=
  let '(ds, rest) := Text.span Text.is_digit s in
  if Text.is_empty ds then None
  else match rest with
       | String c rest' =>
           if Ascii.eqb c "."%char then Some (ds, rest') else None
       | EmptyString => None
       end.

(** [re.match] of
    [^(\d+)\.(\d+)\.(\d+)(?:-([a-z0-9.-]+))?(?:\+([a-z0-9.-]+))?$]
    with [re.IGNORECASE]: the five groups. *)
Definition match_semver (version_string : string)
  : option (string * string * string * string * string) :=
  match digits_dot (Text.chomp version_string) with
  | None => None
  | Some (g1, r1) =>
      match digits_dot r1 with
      | None => None
      | Some (g2, r2) =>
          let '(g3, r3) := Text.span Text.is_digit r2 in
          if Text.is_empty g3 then None
          else
            let '(g4, r4) := optional_tag "-"%char r3 in
            let '(g5, r5) := optional_tag "+"%char r4 in
            if Text.is_empty r5 then Some (g1, g2, g3, g4, g5) else None
      end
  end.

(** [SemanticVersion.__init__] with [_parse]. *)
Definition SemanticVersion_new (version_string : string)
  : outcome SemanticVersion :=
  match match_semver version_string with
  | None => Raise (ValueError ("Invalid semantic version: " +:+ version_string))
  | Some (g1, g2, g3, g4, g5) =>
      Ok {| original := version_string;
            major := Text.int_of_digits g1;
            minor := Text.int_of_digits g2;
            patch := Text.int_of_digits g3;
            prerelease := g4;
            metadata := g5 |}
  end.

(** [__str__]. *)
Definition to_str (v : SemanticVersion) : string :=
  let version := pretty (major v) +:+ "." +:+ pretty (minor v) +:+ "."
                 +:+ pretty (patch v) in
  let version :=
    if Text.is_empty (prerelease v) then version
    else version +:+ "-" +:+ prerelease v in
  if Text.is_empty (metadata v) then version
  else version +:+ "+" +:+ metadata v.

(** [__eq__] between two versions: metadata is not looked at. *)
Definition eq (self other : SemanticVersion) : bool :=
  (major self =? major other)%N && (minor self =? minor other)%N
  && (patch self =? patch other)%N
  && String.eqb (prerelease self) (prerelease other).

(** [__lt__]. *)
Definition lt (self other : SemanticVersion) : bool :=
  if negb (major self =? major other)%N then (major self <? major other)%N
  else if negb (minor self =? minor other)%N then (minor self <? minor other)%N
  else if negb (patch self =? patch other)%N then (patch self <? patch other)%N
  else if Text.is_empty (prerelease self)
          && negb (Text.is_empty (prerelease other)) then false
  else if negb (Text.is_empty (prerelease self))
          && Text.is_empty (prerelease other) then true
  else if negb (Text.is_empty (prerelease self))
          && negb (Text.is_empty (prerelease other))
       then String.ltb (prerelease self) (prerelease other)
  else false.

(** [__le__], [__gt__], [__ge__]. *)
Definition le (self other : SemanticVersion) : bool :=
  lt self other || eq self other.
Definition gt (self other : SemanticVersion) : bool :=
  negb (le self other).
Definition ge (self other : SemanticVersion) : bool :=
  negb (lt self other).

Definition is_compatible_with (self required_version : SemanticVersion)
  : bool :=
  if negb (major self =? major required_version)%N then false
  else ge self required_version.

Record VersionChecker : Type := mkChecker {
  system_version : SemanticVersion
}.

(** [VersionChecker.__init__]; the default argument is ["1.0.0"]. *)
Definition default_system_version : string := "1.0.0".
Definition VersionChecker_new (system_version : string)
  : outcome VersionChecker :=
  v ← SemanticVersion_new system_version; Ok (mkChecker v).

(** [check_plugin_compatibility]: the [try] catches [ValueError] only. *)
Definition check_plugin_compatibility (self : VersionChecker)
    (plugin_name required_version : string) : outcome (bool * string) :=
  match SemanticVersion_new required_version with
  | Raise (ValueError e) =>
      Ok (false, "Invalid version format for " +:+ plugin_name +:+ ": " +:+ e)
  | Raise e => Raise e
  | OutOfFuel => OutOfFuel
  | Ok required =>
      if is_compatible_with (system_version self) required then
        Ok (true, "Plugin " +:+ plugin_name +:+ " is compatible (requires "
                  +:+ to_str required +:+ ", have "
                  +:+ to_str (system_version self) +:+ ")")
      else
        Ok (false, "Plugin " +:+ plugin_name +:+ " requires version "
                   +:+ to_str required +:+ " or higher (current version: "
                   +:+ to_str (system_version self) +:+ ")")
  end.

(** [check_dependency_compatibility]: the [try] turns a [ValueError] into
    [False]. *)
Definition check_dependency_compatibility (self : VersionChecker)
    (plugin_version dependency_version : string) : outcome bool :=
  match (plugin_ver ← SemanticVersion_new plugin_version;
         dep_ver ← SemanticVersion_new dependency_version;
         Ok (is_compatible_with plugin_ver dep_ver)) with
  | Raise (ValueError _) => Ok false
  | other => other
  end.

(** [semver_list.sort(reverse=True)]: the built-in sort is stable and
    compares with [__lt__] only; in descending order an element goes behind
    the elements that are not below it. *)
Fixpoint insert_descending (v : SemanticVersion) (sorted : list SemanticVersion)
  : list SemanticVersion :=
  match sorted with
  | [] => [v]
  | w :: sorted' =>
      if lt v w then w :: insert_descending v sorted' else v :: sorted
  end.
Definition sort_descending (l : list SemanticVersion) : list SemanticVersion :=
  foldr insert_descending [] l.

(** [[SemanticVersion(v) for v in available_versions]]. *)
Fixpoint parse_all (versions : list string) : outcome (list SemanticVersion) :=
  match versions with
  | [] => Ok []
  | v :: versions' =>
      x ← SemanticVersion_new v;
      xs ← parse_all versions';
      Ok (x :: xs)
  end.

(** [get_latest_compatible]: [None] stands for Python's [None], both for
    the optional argument and for the result. *)
Definition get_latest_compatible (self : VersionChecker)
    (available_versions : list string) (min_version : option string)
  : outcome (option string) :=
  match (semver_list ← parse_all available_versions;
         let semver_list := sort_descending semver_list in
         semver_list ←
           match min_version with
           | Some text =>
               if negb (Text.is_empty text) then
                 min_ver ← SemanticVersion_new text;
                 Ok (List.filter (fun v => ge v min_ver) semver_list)
               else Ok semver_list
           | None => Ok semver_list
           end;
         Ok (match semver_list with
             | v :: _ => Some (to_str v)
             | [] => None
             end)) with
  | Raise (ValueError _) | Raise (IndexError _) => Ok None
  | other => other
  end.

(** [parse_version_constraint]: the loop returns at the first operator, in
    the order of the list, that the constraint starts with. *)
Definition operators : list string :=
  [">="; "<="; ">"; "<"; "=="; "~"; "^"].
Definition parse_version_constraint (constraint : string) : string * string :=
  match List.find (fun op => String.prefix op constraint) operators with
  | Some op => (op, Text.strip (Text.drop (String.length op) constraint))
  | None => ("==", constraint)
  end.

End Version.

(** ** Dictionaries

    A Python [dict] with text keys keeps its keys in insertion order, which
    the code observes (the order of [items()] decides which error is raised
    first and how dependents are listed), so it is an association list:
    lookups take the first binding of a key, an assignment to a present key
    keeps its position, an assignment to a new key goes to the end. *)

Module Dict.

Fixpoint get {V} (k : string) (d : list (string * V)) : option V :=
  match d with
  | [] => None
  | (k', v) :: d' => if String.eqb k' k then Some v else get k d'
  end.

Fixpoint set {V} (k : string) (v : V) (d : list (string * V))
  : list (string * V) :=
  match d with
  | [] => [(k, v)]
  | (k', v') :: d' =>
      if String.eqb k' k then (k', v) :: d' else (k', v') :: set k v d'
  end.

Fixpoint del {V} (k : string) (d : list (string * V)) : list (string * V) :=
  match d with
  | [] => []
  | (k', v') :: d' =>
      if String.eqb k' k then d' else (k', v') :: del k d'
  end.

Definition keys {V} (d : list (string * V)) : list string := d.*1.

Definition mem {V} (k : string) (d : list (string * V)) : bool :=
  match get k d with Some _ => true | None => false end.

End Dict.

(** ** dependencies.py *)

Module Dependencies.

(** [available_plugins] is a Python set: it is kept as a list without
    repetition whose order stands for the order in which the interpreter
    happens to iterate over the set.  The theorems hold for every such
    order. *)
Record DependencyResolver : Type := mkResolver {
  dependency_graph : list (string * list string);
  available_plugins : list string
}.

Definition DependencyResolver_new : DependencyResolver :=
  {| dependency_graph := []; available_plugins := [] |}.

Definition add_plugin (plugin_name : string) (dependencies : list string)
    (self : DependencyResolver) : DependencyResolver :=
  {| available_plugins :=
       if bool_decide (plugin_name ∈ available_plugins self)
       then available_plugins self
       else available_plugins self ++ [plugin_name];
     dependency_graph :=
       Dict.set plugin_name dependencies (dependency_graph self) |}.

(** [self.dependency_graph.get(node, [])]. *)
Definition graph_get (g : list (string * list string)) (node : string)
  : list string :=
  default [] (Dict.get node g).

Definition missing_message (plugin_name dep : string) : string :=
  "Plugin '" +:+ plugin_name +:+ "' requires '" +:+ dep
  +:+ "' which is not available".

Definition _validate_dependencies (self : DependencyResolver) : outcome () :=
  for_each (fun '(plugin_name, dependencies) _ =>
    for_each (fun dep _ =>
      if bool_decide (dep ∉ available_plugins self) then
        Raise (MissingDependencyError (missing_message plugin_name dep))
      else Ok ()) dependencies ())
    (dependency_graph self) ().

(** The three variables the nested [visit] closes over. *)
Record search : Type := mkSearch {
  visited : gset string;
  temp_mark : gset string;
  load_order : list string
}.

Definition circular_message (node : string) : string :=
  "Circular dependency detected involving plugin: " +:+ node.

(** The nested function [visit] of [resolve].  The recursion is bounded
    here by [fuel], and [resolve] supplies enough of it; the interpreter's
    own limits (recursion depth, memory) are not modelled.  [set.remove]
    raises [KeyError] on an absent element. *)
Fixpoint visit (fuel : nat) (g : list (string * list string))
    (node : string) (st : search) : outcome search :=
  match fuel with
  | O => OutOfFuel
  | S fuel' =>
      if bool_decide (node ∈ temp_mark st) then
        Raise (CircularDependencyError (circular_message node))
      else if bool_decide (node ∉ visited st) then
        let st1 := {| visited := visited st;
                      temp_mark := temp_mark st ∪ {[node]};
                      load_order := load_order st |} in
        st2 ← for_each (visit fuel' g) (graph_get g node) st1;
        if bool_decide (node ∈ temp_mark st2) then
          Ok {| visited := visited st2 ∪ {[node]};
                temp_mark := temp_mark st2 ∖ {[node]};
                load_order := load_order st2 ++ [node] |}
        else Raise (KeyError node)
      else Ok st
  end.

Definition resolve_fuel (self : DependencyResolver) : nat :=
  S (length (available_plugins self)).

Definition resolve (self : DependencyResolver) : outcome (list string) :=
  _ ← _validate_dependencies self;
  st ← for_each (fun plugin st =>
          if bool_decide (plugin ∉ visited st)
          then visit (resolve_fuel self) (dependency_graph self) plugin st
          else Ok st)
        (available_plugins self)
        {| visited := ∅; temp_mark := ∅; load_order := [] |};
  Ok (load_order st).

Definition get_dependents (self : DependencyResolver) (plugin_name : string)
  : list string :=
  (filter (fun '(name, deps) => plugin_name ∈ deps)
          (dependency_graph self)).*1.

Definition can_unload (self : DependencyResolver) (plugin_name : string)
  : bool :=
  Nat.eqb (length (get_dependents self plugin_name)) 0.

(** The two variables the nested [collect_deps] of [get_dependencies]
    closes over. *)
Record collecting : Type := mkCollecting {
  seen : gset string;
  result : list string
}.

(** The nested function [collect_deps], its recursion bounded by [fuel]. *)
Fixpoint collect_deps (fuel : nat) (g : list (string * list string))
    (name : string) (st : collecting) : outcome collecting :=
  match fuel with
  | O => OutOfFuel
  | S fuel' =>
      if bool_decide (name ∈ seen st) then Ok st
      else
        for_each (fun dep st =>
            st' ← collect_deps fuel' g dep st;
            if bool_decide (dep ∉ result st')
            then Ok {| seen := seen st'; result := result st' ++ [dep] |}
            else Ok st')
          (graph_get g name)
          {| seen := seen st ∪ {[name]}; result := result st |}
  end.

(** Every name that occurs in the graph, as a key or as a dependency. *)
Definition graph_nodes (g : list (string * list string)) : list string :=
  flat_map (fun item : string * list string => item.1 :: item.2) g.

Definition get_dependencies (self : DependencyResolver) (plugin_name : string)
    (recursive : bool) : outcome (list string) :=
  if negb recursive then Ok (graph_get (dependency_graph self) plugin_name)
  else
    st ← collect_deps (S (S (length (graph_nodes (dependency_graph self)))))
           (dependency_graph self) plugin_name
           {| seen := ∅; result := [] |};
    Ok (result st).

Definition get_unload_order (self : DependencyResolver)
    (plugins_to_unload : list string) : outcome (list string) :=
  let subgraph :=
    fold_left (fun subgraph plugin =>
        let deps :=
          filter (fun d => d ∈ plugins_to_unload)
                 (graph_get (dependency_graph self) plugin) in
        add_plugin plugin deps subgraph)
      plugins_to_unload DependencyResolver_new in
  load_order ← resolve subgraph;
  Ok (reverse load_order).

End Dependencies.

(** ** Python values

    Manifests and configuration trees come from [json.load]: a value is
    [None], a boolean, an integer, text, a list or a dictionary.  (JSON
    numbers with a fraction are left out.) *)

Module Py.

Inductive value : Type :=
  | VNone
  | VBool (b : bool)
  | VInt (z : Z)
  | VStr (s : string)
  | VList (items : list value)
  | VDict (items : list (string * value)).

Definition dict : Type := list (string * value).

Definition is_dict (v : value) : bool :=
  match v with VDict _ => true | _ => false end.
Definition is_str (v : value) : bool :=
  match v with VStr _ => true | _ => false end.
Definition is_list (v : value) : bool :=
  match v with VList _ => true | _ => false end.

(** [bool(v)]. *)
Definition truthy (v : value) : bool :=
  match v with
  | VNone => false
  | VBool b => b
  | VInt z => negb (z =? 0)%Z
  | VStr s => negb (Text.is_empty s)
  | VList l => match l with [] => false | _ => true end
  | VDict d => match d with [] => false | _ => true end
  end.

Definition type_name (v : value) : string :=
  match v with
  | VNone => "NoneType"
  | VBool _ => "bool"
  | VInt _ => "int"
  | VStr _ => "str"
  | VList _ => "list"
  | VDict _ => "dict"
  end.

(** [text == v] for a text on the left. *)
Definition str_equals (text : string) (v : value) : bool :=
  match v with VStr s => String.eqb text s | _ => false end.

(** [k in container] for a text [k]. *)
Definition contains (container : value) (k : string) : outcome bool :=
  match container with
  | VDict d => Ok (Dict.mem k d)
  | VStr s => Ok (Text.is_substring k s)
  | VList l => Ok (existsb (str_equals k) l)
  | _ => Raise (TypeError ("argument of type '" +:+ type_name container
                           +:+ "' is not iterable"))
  end.

(** [container[k]] for a text [k]. *)
Definition getitem (container : value) (k : string) : outcome value :=
  match container with
  | VDict d =>
      match Dict.get k d with
      | Some v => Ok v
      | None => Raise (KeyError k)
      end
  | VStr _ => Raise (TypeError "string indices must be integers, not 'str'")
  | VList _ =>
      Raise (TypeError "list indices must be integers or slices, not str")
  | _ => Raise (TypeError ("'" +:+ type_name container
                           +:+ "' object is not subscriptable"))
  end.

(** [container[k] = v] for a text [k]: the container after the
    assignment. *)
Definition setitem (container : value) (k : string) (v : value)
  : outcome value :=
  match container with
  | VDict d => Ok (VDict (Dict.set k v d))
  | VList _ =>
      Raise (TypeError "list indices must be integers or slices, not str")
  | _ => Raise (TypeError ("'" +:+ type_name container
                           +:+ "' object does not support item assignment"))
  end.

(** [repr] of a text: quotes and escapes. *)
Definition hex_digit (n : N) : ascii :=
  if (n <? 10)%N then ascii_of_N (48 + n) else ascii_of_N (87 + n).
Definition backslash : ascii := ascii_of_N 92.
Definition repr_char (quote c : ascii) : string :=
  let n := N_of_ascii c in
  if Ascii.eqb c quote || Ascii.eqb c backslash
  then String backslash (String c EmptyString)
  else if (n =? 9)%N then String backslash "t"
  else if (n =? 10)%N then String backslash "n"
  else if (n =? 13)%N then String backslash "r"
  else if (n <? 32)%N || (n =? 127)%N
  then String backslash (String "x"%char
         (String (hex_digit (n / 16)) (String (hex_digit (n mod 16)) EmptyString)))
  else String c EmptyString.
Fixpoint repr_chars (quote : ascii) (s : string) : string :=
  match s with
  | EmptyString => EmptyString
  | String c s' => repr_char quote c +:+ repr_chars quote s'
  end.
Definition has_char (c : ascii) (s : string) : bool :=
  negb (Text.all_chars (fun x => negb (Ascii.eqb x c)) s).
Definition double_quote : ascii := ascii_of_N 34.
Definition repr_str (s : string) : string :=
  let quote :=
    if has_char "'"%char s && negb (has_char double_quote s)
    then double_quote else "'"%char in
  String quote (repr_chars quote s) +:+ String quote EmptyString.

(** [repr(v)]. *)
Fixpoint repr (v : value) : string :=
  match v with
  | VNone => "None"
  | VBool true => "True"
  | VBool false => "False"
  | VInt z => pretty z
  | VStr s => repr_str s
  | VList l => "[" +:+ Text.join ", " (map repr l) +:+ "]"
  | VDict d =>
      "{" +:+ Text.join ", "
                (map (fun kv => repr_str kv.1 +:+ ": " +:+ repr kv.2) d)
      +:+ "}"
  end.

(** [str(v)], as an f-string renders [{v}]. *)
Definition str (v : value) : string :=
  match v with VStr s => s | _ => repr v end.

(** [re.match(pattern, v)] needs text. *)
Definition re_match (matcher : string -> bool) (v : value) : outcome bool :=
  match v with
  | VStr s => Ok (matcher s)
  | _ => Raise (TypeError ("expected string or bytes-like object, got '"
                           +:+ type_name v +:+ "'"))
  end.

End Py.

(** ** config.py *)

Module Config.
Import Py.

Record PluginConfig : Type := mkConfig {
  plugin_name : string;
  config_data : dict
}.

(** The loop of [get]: [value] moves down one dictionary per key. *)
Fixpoint get_loop (keys : list string) (value default : Py.value)
  : outcome Py.value :=
  match keys with
  | [] => Ok value
  | k :: keys' =>
      present ← (if is_dict value then contains value k else Ok false);
      if (present : bool) then
        value' ← getitem value k;
        get_loop keys' value' default
      else Ok default
  end.

Definition get (self : PluginConfig) (key : string) (default : value)
  : outcome value :=
  get_loop (Text.split_on "."%char key) (VDict (config_data self)) default.

(** The loop of [set] over [keys[:-1]] followed by the final assignment.
    [config] is the dictionary the loop has reached; the nested
    dictionaries are mutated in place, so the result is [config] with the
    updated child under the same key. *)
Fixpoint set_loop (keys : list string) (config value : Py.value)
  : outcome Py.value :=
  match keys with
  | [] => Raise (IndexError "list index out of range")
  | [last] => setitem config last value
  | k :: keys' =>
      present ← contains config k;
      config1 ← (if (present : bool) then Ok config
                 else setitem config k (VDict []));
      child ← getitem config1 k;
      child' ← set_loop keys' child value;
      setitem config1 k child'
  end.

(** [set]: the configuration after the call, or the exception. *)
Definition set (self : PluginConfig) (key : string) (value : Py.value)
  : outcome PluginConfig :=
  match set_loop (Text.split_on "."%char key) (VDict (config_data self)) value with
  | Ok (VDict d) => Ok {| plugin_name := plugin_name self; config_data := d |}
  | Ok _ => Ok self
  | Raise e => Raise e
  | OutOfFuel => OutOfFuel
  end.

(** What [_deep_update] leaves under [key] of [target] for the pair
    [(key, value)] of [source], [existing] being [target.get(key)] before:
    two dictionaries are merged by the recursive call, anything else is
    assigned. *)
Fixpoint merged (value : Py.value) (existing : option Py.value) {struct value}
  : Py.value :=
  match value, existing with
  | VDict source', Some (VDict target') =>
      VDict (fold_left
               (fun tgt kv => Dict.set kv.1 (merged kv.2 (Dict.get kv.1 tgt)) tgt)
               source' target')
  | _, _ => value
  end.

(** [_deep_update(target, source)]: [target] after the loop over
    [source.items()]. *)
Definition _deep_update (target source : dict) : dict :=
  fold_left
    (fun tgt kv => Dict.set kv.1 (merged kv.2 (Dict.get kv.1 tgt)) tgt)
    source target.

Definition update (self : PluginConfig) (updates : dict) : PluginConfig :=
  {| plugin_name := plugin_name self;
     config_data := _deep_update (config_data self) updates |}.


Definition to_dict (self : PluginConfig) : dict := config_data self.

(** [ConfigManager] without its file: the dictionary [configs]. *)
Record ConfigManager : Type := mkConfigManager {
  configs : list (string * PluginConfig)
}.





Definition get_all_configs (self : ConfigManager) : list (string * dict) :=
  map (fun item : string * PluginConfig => (item.1, to_dict item.2))
      (configs self).

End Config.

(** ** manifest.py *)

Module Manifest.
Import Py.

Definition REQUIRED_FIELDS : list string :=
  ["name"; "version"; "type"; "entry_point"].

Definition VALID_TYPES : list string :=
  ["hook"; "validator"; "quality_check"; "cli_utility"; "integration";
   "custom"].

Record ManifestValidator : Type := mkValidator {
  errors : list string
}.

(** [self.errors.append(msg)]. *)
Definition append_error (msg : string) (self : ManifestValidator)
  : ManifestValidator :=
  {| errors := errors self ++ [msg] |}.

(** [manifest.get(key)] and [manifest.get(key, default)]. *)
Definition manifest_get (manifest : dict) (key : string) (default : value)
  : value :=
  match Dict.get key manifest with
  | Some v => v
  | None => default
  end.

(** [^[a-z0-9_-]+$]. *)
Definition is_name_char (c : ascii) : bool :=
  Text.is_lower c || Text.is_digit c || Ascii.eqb c "_"%char
  || Ascii.eqb c "-"%char.
Definition matches_name (s : string) : bool :=
  let body := Text.chomp s in
  negb (Text.is_empty body) && Text.all_chars is_name_char body.

(** [^\d+\.\d+\.\d+(-[a-z0-9.-]+)?(\+[a-z0-9.-]+)?$] with
    [re.IGNORECASE]: the language of [Version.match_semver]. *)
Definition matches_semver (s : string) : bool :=
  match Version.match_semver s with Some _ => true | None => false end.

(** [^[a-zA-Z0-9_.:]+$]. *)
Definition is_entry_point_char (c : ascii) : bool :=
  Text.is_lower c || Text.is_upper c || Text.is_digit c
  || Ascii.eqb c "_"%char || Ascii.eqb c "."%char || Ascii.eqb c ":"%char.
Definition matches_entry_point (s : string) : bool :=
  let body := Text.chomp s in
  negb (Text.is_empty body) && Text.all_chars is_entry_point_char body.

(** [^\d+\.\d+\.\d+$]. *)
Definition matches_plain_version (s : string) : bool :=
  match Version.digits_dot (Text.chomp s) with
  | None => false
  | Some (_, r1) =>
      match Version.digits_dot r1 with
      | None => false
      | Some (_, r2) =>
          negb (Text.is_empty r2) && Text.all_chars Text.is_digit r2
      end
  end.

Definition _validate_required_fields (manifest : dict)
    (self : ManifestValidator) : outcome ManifestValidator :=
  for_each (fun field self =>
      if negb (Dict.mem field manifest)
      then Ok (append_error ("Missing required field: " +:+ field) self)
      else Ok self)
    REQUIRED_FIELDS self.

Definition _validate_name (name : value) (self : ManifestValidator)
  : outcome ManifestValidator :=
  if negb (truthy name) then Ok self
  else
    m ← re_match matches_name name;
    if negb m then
      Ok (append_error
            ("Invalid plugin name '" +:+ str name
             +:+ "'. Must contain only lowercase letters, "
             +:+ "numbers, hyphens, and underscores") self)
    else Ok self.

Definition _validate_version (version : value) (self : ManifestValidator)
  : outcome ManifestValidator :=
  if negb (truthy version) then Ok self
  else
    m ← re_match matches_semver version;
    if negb m then
      Ok (append_error
            ("Invalid version '" +:+ str version
             +:+ "'. Must follow semantic versioning (e.g., 1.0.0)") self)
    else Ok self.

Definition _validate_type (plugin_type : value) (self : ManifestValidator)
  : outcome ManifestValidator :=
  if negb (truthy plugin_type) then Ok self
  else if negb (existsb (fun t => str_equals t plugin_type) VALID_TYPES) then
    Ok (append_error
          ("Invalid plugin type '" +:+ str plugin_type +:+ "'. "
           +:+ "Must be one of: " +:+ Text.join ", " VALID_TYPES) self)
  else Ok self.

Definition _validate_entry_point (entry_point : value)
    (self : ManifestValidator) : outcome ManifestValidator :=
  if negb (truthy entry_point) then Ok self
  else
    m ← re_match matches_entry_point entry_point;
    if negb m then
      Ok (append_error
            ("Invalid entry_point '" +:+ str entry_point +:+ "'. "
             +:+ "Must be a valid Python module path (e.g., 'module.ClassName')")
            self)
    else Ok self.

Definition _validate_dependencies (dependencies : value)
    (self : ManifestValidator) : outcome ManifestValidator :=
  match dependencies with
  | VList deps =>
      for_each (fun dep self =>
          if negb (is_str dep)
          then Ok (append_error ("Invalid dependency: " +:+ str dep
                                 +:+ ". Must be a string") self)
          else Ok self)
        deps self
  | _ => Ok (append_error "Dependencies must be a list" self)
  end.

Definition _validate_requires_version (version : value)
    (self : ManifestValidator) : outcome ManifestValidator :=
  if negb (truthy version) then Ok self
  else
    m ← re_match matches_plain_version version;
    if negb m then
      Ok (append_error
            ("Invalid requires_version '" +:+ str version
             +:+ "'. Must be semantic version (e.g., 1.0.0)") self)
    else Ok self.

(** [validate]: the returned boolean together with the validator, whose
    [errors] are what [get_errors()] then returns. *)
Definition validate (manifest : dict) (self : ManifestValidator)
  : outcome (bool * ManifestValidator) :=
  let self := {| errors := [] |} in
  self ← _validate_required_fields manifest self;
  self ← _validate_name (manifest_get manifest "name" VNone) self;
  self ← _validate_version (manifest_get manifest "version" VNone) self;
  self ← _validate_type (manifest_get manifest "type" VNone) self;
  self ← _validate_entry_point (manifest_get manifest "entry_point" VNone) self;
  self ← _validate_dependencies
           (manifest_get manifest "dependencies" (VList [])) self;
  self ← _validate_requires_version
           (manifest_get manifest "requires_version" (VStr "0.0.0")) self;
  Ok (Nat.eqb (length (errors self)) 0, self).

Definition get_errors (self : ManifestValidator) : list string :=
  errors self.


(** [create_manifest_template]: [kwargs] holds the optional keyword
    arguments. *)
Definition create_manifest_template (name version plugin_type entry_point : string)
    (kwargs : dict) : dict :=
  [("name", VStr name);
   ("version", VStr version);
   ("type", VStr plugin_type);
   ("entry_point", VStr entry_point);
   ("description", manifest_get kwargs "description" (VStr EmptyString));
   ("author", manifest_get kwargs "author" (VStr EmptyString));
   ("license", manifest_get kwargs "license" (VStr "MIT"));
   ("dependencies", manifest_get kwargs "dependencies" (VList []));
   ("requires_version", manifest_get kwargs "requires_version" (VStr "0.1.0"));
   ("tags", manifest_get kwargs "tags" (VList []))].

End Manifest.

(** ** base.py *)

Module Base.
Import Py.

Inductive PluginStatus : Type :=
  | UNLOADED | LOADING | LOADED | ACTIVE | FAILED | DISABLED.

(** What a call into plugin code does: it returns or it raises. *)
Inductive call_result (A : Type) : Type :=
  | Returns (a : A)
  | Throws (e : exn).
Arguments Returns {A} a.
Arguments Throws {A} e.

(** A class found in a plugin module, seen through what the loader does
    with it: the answer of [issubclass(cls, PluginInterface)], whether
    calling it raises (an abstract class raises [TypeError]), and what its
    [initialize], [validate] and [cleanup] do.  The methods are taken not
    to assign [status] themselves; the base class and the built-in plugins
    do not. *)
Record PluginClass : Type := mkClass {
  class_name : string;
  inherits_PluginInterface : bool;
  on_construct : dict -> option exn;
  on_initialize : dict -> call_result bool;
  on_validate : call_result bool;
  on_cleanup : option exn
}.

(** An instance: [PluginInterface.__init__] stores the manifest and sets
    [status] to [UNLOADED].  [cleanup_calls] counts the calls of
    [cleanup()] that returned. *)
Record PluginInstance : Type := mkInstance {
  instance_class : PluginClass;
  manifest : dict;
  status : PluginStatus;
  cleanup_calls : nat
}.

Definition PluginInterface_init (cls : PluginClass) (manifest : dict)
  : PluginInstance :=
  {| instance_class := cls; manifest := manifest; status := UNLOADED;
     cleanup_calls := 0 |}.

Definition set_status (s : PluginStatus) (p : PluginInstance)
  : PluginInstance :=
  {| instance_class := instance_class p; manifest := manifest p;
     status := s; cleanup_calls := cleanup_calls p |}.

(** [plugin.cleanup()]. *)
Definition cleanup (p : PluginInstance) : outcome PluginInstance :=
  match on_cleanup (instance_class p) with
  | Some e => Raise e
  | None => Ok {| instance_class := instance_class p;
                  manifest := manifest p; status := status p;
                  cleanup_calls := S (cleanup_calls p) |}
  end.


Inductive PluginType : Type :=
  | HOOK | VALIDATOR | QUALITY_CHECK | CLI_UTILITY | INTEGRATION | CUSTOM.

(** [t.value]. *)
Definition PluginType_value (t : PluginType) : string :=
  match t with
  | HOOK => "hook"
  | VALIDATOR => "validator"
  | QUALITY_CHECK => "quality_check"
  | CLI_UTILITY => "cli_utility"
  | INTEGRATION => "integration"
  | CUSTOM => "custom"
  end.

(** [PluginType(v)]: [None] when the call raises [ValueError]. *)
Definition PluginType_of_value (v : value) : option PluginType :=
  List.find (fun t => str_equals (PluginType_value t) v)
    [HOOK; VALIDATOR; QUALITY_CHECK; CLI_UTILITY; INTEGRATION; CUSTOM].

(** The properties [name], [version] and [plugin_type], and
    [get_dependencies] and [get_required_version]. *)
Definition name (p : PluginInstance) : value :=
  Manifest.manifest_get (manifest p) "name" (VStr "unknown").
Definition version (p : PluginInstance) : value :=
  Manifest.manifest_get (manifest p) "version" (VStr "0.0.0").
Definition plugin_type (p : PluginInstance) : PluginType :=
  match PluginType_of_value
          (Manifest.manifest_get (manifest p) "type" (VStr "custom")) with
  | Some t => t
  | None => CUSTOM
  end.
Definition get_dependencies (p : PluginInstance) : value :=
  Manifest.manifest_get (manifest p) "dependencies" (VList []).
Definition get_required_version (p : PluginInstance) : value :=
  Manifest.manifest_get (manifest p) "requires_version" (VStr "0.0.0").

End Base.

(** ** loader.py *)

Module Loader.
Import Py Base Version Dependencies.

(** What is found in a module after it has been executed. *)
Inductive PyObject : Type :=
  | ClassObject (cls : PluginClass)
  | OtherObject.

Definition PyModule : Type := list (string * PyObject).

(** The file system and the import machinery, which the core only calls:
    [Path.exists], the execution of a module file under a module name, and
    the manifests [PluginDiscovery] finds on disk, already parsed, in the
    order of the scan. *)
Record Env : Type := mkEnv {
  file_exists : string -> bool;
  exec_module : string -> string -> outcome PyModule;
  manifests_on_disk : list (string * string * dict)
}.

(** A discovered plugin: the dictionary with the keys [manifest],
    [directory] and [manifest_path]. *)
Record PluginInfo : Type := mkInfo {
  info_manifest : dict;
  info_directory : string;
  info_manifest_path : string
}.

(** Paths are text: [dir / name] and [dir.name]. *)
Definition path_join (dir name : string) : string := dir +:+ "/" +:+ name.
Definition path_name (dir : string) : string :=
  List.last (Text.split_on "/"%char dir) EmptyString.

Record PluginLoader : Type := mkLoader {
  version_checker : VersionChecker;
  loaded_modules : list (string * PyModule)
}.

Definition PluginLoader_new (vc : VersionChecker) : PluginLoader :=
  {| version_checker := vc; loaded_modules := [] |}.

(** The module lookup of [_load_plugin_class]: cached, or executed from
    the plugin directory and then cached. *)
Definition load_module (env : Env) (self : PluginLoader)
    (unique_module_name module_path plugin_dir : string)
  : PluginLoader * outcome PyModule :=
  match Dict.get unique_module_name (loaded_modules self) with
  | Some module => (self, Ok module)
  | None =>
      let module_file :=
        if String.eqb module_path "__init__"
        then path_join plugin_dir "__init__.py"
        else
          let f := path_join plugin_dir
                     (Text.replace_char "."%char "/"%char module_path +:+ ".py") in
          if negb (file_exists env f)
          then path_join plugin_dir
                 (List.hd EmptyString (Text.split_on "."%char module_path)
                  +:+ ".py")
          else f in
      if negb (file_exists env module_file) then
        (self, Raise (PluginLoadError ("Module file not found: " +:+ module_file)))
      else
        match exec_module env unique_module_name module_file with
        | Ok module =>
            ({| version_checker := version_checker self;
                loaded_modules :=
                  Dict.set unique_module_name module (loaded_modules self) |},
             Ok module)
        | Raise e => (self, Raise e)
        | OutOfFuel => (self, OutOfFuel)
        end
  end.

(** The body of the [try] in [_load_plugin_class]. *)
Definition load_plugin_class_body (env : Env) (self : PluginLoader)
    (entry_point : value) (plugin_dir : string)
  : PluginLoader * outcome PluginClass :=
  match entry_point with
  | VStr ep =>
      match Text.rsplit1 "."%char ep with
      | None =>
          (self, Raise (PluginLoadError ("Invalid entry_point format: " +:+ ep)))
      | Some (module_path, class_name) =>
          let unique_module_name :=
            "plugin_" +:+ path_name plugin_dir +:+ "_" +:+ module_path in
          let '(self', loaded) :=
            load_module env self unique_module_name module_path plugin_dir in
          (self',
           module ← loaded;
           match Dict.get class_name (module : PyModule) with
           | None =>
               Raise (AttributeError ("module '" +:+ unique_module_name
                        +:+ "' has no attribute '" +:+ class_name +:+ "'"))
           | Some OtherObject =>
               Raise (TypeError "issubclass() arg 1 must be a class")
           | Some (ClassObject plugin_class) =>
               if negb (inherits_PluginInterface plugin_class) then
                 Raise (PluginLoadError
                          (class_name +:+ " must inherit from PluginInterface"))
               else Ok plugin_class
           end)
      end
  | _ =>
      (self, Raise (AttributeError ("'" +:+ type_name entry_point
                                    +:+ "' object has no attribute 'rsplit'")))
  end.

(** [_load_plugin_class]: a [PluginLoadError] passes through, any other
    exception is wrapped in one. *)
Definition _load_plugin_class (env : Env) (self : PluginLoader)
    (entry_point : value) (plugin_dir : string)
  : PluginLoader * outcome PluginClass :=
  let '(self', r) := load_plugin_class_body env self entry_point plugin_dir in
  (self',
   match r with
   | Raise (PluginLoadError m) => Raise (PluginLoadError m)
   | Raise e =>
       Raise (PluginLoadError ("Failed to load plugin class "
                +:+ str entry_point +:+ ": " +:+ exn_message e))
   | other => other
   end).

(** The call [check_plugin_compatibility(manifest["name"],
    manifest.get("requires_version", "0.0.0"))] on manifest values: the
    name is only interpolated into messages; a required version that is
    not text makes [re.match] raise [TypeError], which the [try] of
    [check_plugin_compatibility] does not catch. *)
Definition check_manifest_compatibility (vc : VersionChecker)
    (name required_version : value) : outcome (bool * string) :=
  match required_version with
  | VStr rv => check_plugin_compatibility vc (str name) rv
  | _ => Raise (TypeError ("expected string or bytes-like object, got '"
                           +:+ type_name required_version +:+ "'"))
  end.

(** The body of the [try] in [load_plugin]: the instance created (in the
    state the body left it) and how the body ended. *)
Definition instantiate (plugin_class : PluginClass) (manifest : dict)
    (name : value) (config : dict)
  : option PluginInstance * outcome PluginInstance :=
  match on_construct plugin_class manifest with
  | Some e => (None, Raise e)
  | None =>
      let plugin_instance := PluginInterface_init plugin_class manifest in
      let plugin_instance := set_status LOADING plugin_instance in
      match on_initialize plugin_class config with
      | Throws e => (Some plugin_instance, Raise e)
      | Returns false =>
          (Some plugin_instance,
           Raise (PluginLoadError ("Plugin " +:+ str name
                                   +:+ " initialization failed")))
      | Returns true =>
          match on_validate plugin_class with
          | Throws e => (Some plugin_instance, Raise e)
          | Returns false =>
              (Some plugin_instance,
               Raise (PluginLoadError ("Plugin " +:+ str name
                                       +:+ " validation failed")))
          | Returns true =>
              let plugin_instance := set_status LOADED plugin_instance in
              (Some plugin_instance, Ok plugin_instance)
          end
      end
  end.

(** What a call of [PluginLoader.load_plugin] leaves behind: the loader
    (its module cache may have grown), the instance the call created, if
    it got that far, in its final state, and the value returned or the
    exception raised. *)
Record load_result : Type := mkLoadResult {
  loader_after : PluginLoader;
  created : option PluginInstance;
  returned : outcome PluginInstance
}.

Definition load_plugin (env : Env) (self : PluginLoader)
    (plugin_info : PluginInfo) (config : dict) : load_result :=
  let manifest := info_manifest plugin_info in
  let plugin_dir := info_directory plugin_info in
  match getitem (VDict manifest) "name" with
  | Raise e => mkLoadResult self None (Raise e)
  | OutOfFuel => mkLoadResult self None OutOfFuel
  | Ok name =>
      match check_manifest_compatibility (version_checker self) name
              (Manifest.manifest_get manifest "requires_version"
                 (VStr "0.0.0")) with
      | Raise e => mkLoadResult self None (Raise e)
      | OutOfFuel => mkLoadResult self None OutOfFuel
      | Ok (is_compatible, message) =>
          if negb is_compatible then
            mkLoadResult self None (Raise (PluginLoadError message))
          else
            match getitem (VDict manifest) "entry_point" with
            | Raise e => mkLoadResult self None (Raise e)
            | OutOfFuel => mkLoadResult self None OutOfFuel
            | Ok entry_point =>
                match _load_plugin_class env self entry_point plugin_dir with
                | (self', Raise e) => mkLoadResult self' None (Raise e)
                | (self', OutOfFuel) => mkLoadResult self' None OutOfFuel
                | (self', Ok plugin_class) =>
                    match instantiate plugin_class manifest name config with
                    | (inst, Raise e) =>
                        mkLoadResult self' inst
                          (Raise (PluginLoadError
                                    ("Failed to load plugin " +:+ str name
                                     +:+ ": " +:+ exn_message e)))
                    | (inst, r) => mkLoadResult self' inst r
                    end
                end
            end
      end
  end.

End Loader.

(** ** loader.py: PluginDiscovery and PluginManager *)

Module Manager.
Import Py Base Version Dependencies Loader.

(** [_load_plugin_info] on one manifest found on disk. *)
Definition _load_plugin_info (found : string * string * dict)
  : outcome (option PluginInfo) :=
  let '(plugin_dir, manifest_path, manifest) := found in
  if negb (truthy (VDict manifest)) then Ok None
  else
    checked ← Manifest.validate manifest (Manifest.mkValidator []);
    if negb (checked.1 : bool) then Ok None
    else Ok (Some (mkInfo manifest plugin_dir manifest_path)).

(** [PluginDiscovery.discover]. *)
Definition discover (env : Env) : outcome (list PluginInfo) :=
  for_each (fun found (discovered : list PluginInfo) =>
      plugin_info ← _load_plugin_info found;
      match plugin_info with
      | Some info => Ok (discovered ++ [info])
      | None => Ok discovered
      end)
    (manifests_on_disk env) [].

Record PluginManager : Type := mkManager {
  manager_version_checker : VersionChecker;
  loader : PluginLoader;
  dependency_resolver : DependencyResolver;
  discovered_plugins : list PluginInfo;
  loaded_plugins : list (string * PluginInstance);
  plugin_configs : list (string * dict)
}.

(** [PluginManager.__init__]. *)
Definition PluginManager_new (system_version : string)
  : outcome PluginManager :=
  vc ← VersionChecker_new system_version;
  Ok {| manager_version_checker := vc;
        loader := PluginLoader_new vc;
        dependency_resolver := DependencyResolver_new;
        discovered_plugins := [];
        loaded_plugins := [];
        plugin_configs := [] |}.

Definition with_configs (c : list (string * dict)) (m : PluginManager) :=
  mkManager (manager_version_checker m) (loader m) (dependency_resolver m)
    (discovered_plugins m) (loaded_plugins m) c.
Definition with_discovered (d : list PluginInfo) (m : PluginManager) :=
  mkManager (manager_version_checker m) (loader m) (dependency_resolver m)
    d (loaded_plugins m) (plugin_configs m).
Definition with_resolver (r : DependencyResolver) (m : PluginManager) :=
  mkManager (manager_version_checker m) (loader m) r
    (discovered_plugins m) (loaded_plugins m) (plugin_configs m).
Definition with_loader (l : PluginLoader) (m : PluginManager) :=
  mkManager (manager_version_checker m) l (dependency_resolver m)
    (discovered_plugins m) (loaded_plugins m) (plugin_configs m).
Definition with_loaded (l : list (string * PluginInstance))
    (m : PluginManager) :=
  mkManager (manager_version_checker m) (loader m) (dependency_resolver m)
    (discovered_plugins m) l (plugin_configs m).

Definition discover_plugins (env : Env) (self : PluginManager)
  : PluginManager * outcome () :=
  match discover env with
  | Ok found => (with_discovered found self, Ok ())
  | Raise e => (self, Raise e)
  | OutOfFuel => (self, OutOfFuel)
  end.

(** Plugin names are text; the resolver and [loaded_plugins] are keyed by
    it.  A dependency list holds texts. *)
Definition dependency_names (dependencies : value) : list string :=
  match dependencies with
  | VList deps => map str deps
  | _ => []
  end.

(** The first loop of [load_all_plugins]. *)
Definition register_discovered (self : PluginManager)
  : PluginManager * outcome () :=
  for_each_st (fun plugin_info self =>
      let manifest := info_manifest plugin_info in
      match getitem (VDict manifest) "name" with
      | Ok name =>
          (with_resolver
             (add_plugin (str name)
                (dependency_names
                   (Manifest.manifest_get manifest "dependencies" (VList [])))
                (dependency_resolver self))
             self,
           Ok ())
      | Raise e => (self, Raise e)
      | OutOfFuel => (self, OutOfFuel)
      end)
    (discovered_plugins self) self.

(** [next((p for p in discovered if p["manifest"]["name"] == plugin_name),
    None)]. *)
Definition find_discovered (self : PluginManager) (plugin_name : string)
  : option PluginInfo :=
  List.find (fun p =>
      match Dict.get "name" (info_manifest p) with
      | Some name => String.eqb (str name) plugin_name
      | None => false
      end)
    (discovered_plugins self).

(** The second loop of [load_all_plugins]. *)
Definition load_in_order (env : Env) (load_order : list string)
    (self : PluginManager) : PluginManager * outcome () :=
  for_each_st (fun plugin_name self =>
      match find_discovered self plugin_name with
      | None => (self, Ok ())
      | Some plugin_info =>
          let config := default [] (Dict.get plugin_name (plugin_configs self)) in
          let res := Loader.load_plugin env (loader self) plugin_info config in
          let self := with_loader (loader_after res) self in
          match returned res with
          | Ok plugin =>
              (with_loaded (Dict.set plugin_name plugin (loaded_plugins self))
                 self,
               Ok ())
          | Raise e => (self, Raise e)
          | OutOfFuel => (self, OutOfFuel)
          end
      end)
    load_order self.

Definition load_all_plugins (env : Env)
    (configs : option (list (string * dict))) (self : PluginManager)
  : PluginManager * outcome () :=
  let self :=
    match configs with
    | Some (_ :: _ as c) => with_configs c self
    | _ => self
    end in
  let '(self, found) :=
    match discovered_plugins self with
    | [] => discover_plugins env self
    | _ => (self, Ok ())
    end in
  match found with
  | Ok _ =>
      match register_discovered self with
      | (self, Ok _) =>
          match resolve (dependency_resolver self) with
          | Ok load_order => load_in_order env load_order self
          | Raise e =>
              if is_DependencyError e then
                (self, Raise (PluginLoadError
                                ("Dependency resolution failed: "
                                 +:+ exn_message e)))
              else (self, Raise e)
          | OutOfFuel => (self, OutOfFuel)
          end
      | stopped => stopped
      end
  | _ => (self, found)
  end.

(** [PluginManager.load_plugin], the lazy path: the dependencies that are
    not loaded yet are loaded first, by recursion (bounded by [fuel]).  The
    dependency resolver is not consulted and not updated. *)
Fixpoint load_plugin (fuel : nat) (env : Env) (plugin_name : string)
    (config : option dict) (self : PluginManager)
  : PluginManager * outcome () :=
  match fuel with
  | O => (self, OutOfFuel)
  | S fuel' =>
      if Dict.mem plugin_name (loaded_plugins self) then (self, Ok ())
      else
        let '(self, found) :=
          match discovered_plugins self with
          | [] => discover_plugins env self
          | _ => (self, Ok ())
          end in
        match found with
        | Ok _ =>
            match find_discovered self plugin_name with
            | None =>
                (self, Raise (PluginLoadError
                                ("Plugin not found: " +:+ plugin_name)))
            | Some plugin_info =>
                let deps :=
                  dependency_names
                    (Manifest.manifest_get (info_manifest plugin_info)
                       "dependencies" (VList [])) in
                match for_each_st (fun dep self =>
                          if negb (Dict.mem dep (loaded_plugins self))
                          then load_plugin fuel' env dep None self
                          else (self, Ok ()))
                        deps self with
                | (self, Ok _) =>
                    let plugin_config :=
                      match config with
                      | Some (_ :: _ as c) => c
                      | _ => default [] (Dict.get plugin_name
                                           (plugin_configs self))
                      end in
                    let res := Loader.load_plugin env (loader self)
                                 plugin_info plugin_config in
                    let self := with_loader (loader_after res) self in
                    match returned res with
                    | Ok plugin =>
                        (with_loaded
                           (Dict.set plugin_name plugin (loaded_plugins self))
                           self,
                         Ok ())
                    | Raise e => (self, Raise e)
                    | OutOfFuel => (self, OutOfFuel)
                    end
                | stopped => stopped
                end
            end
        | _ => (self, found)
        end
  end.

(** What a call of [unload_plugin] leaves behind: the manager, the plugin
    object the call worked on (in its final state) and how the call
    ended. *)
Record unload_result : Type := mkUnloadResult {
  manager_after : PluginManager;
  unloaded : option PluginInstance;
  ended : outcome ()
}.

Definition unload_plugin (plugin_name : string) (self : PluginManager)
  : unload_result :=
  match Dict.get plugin_name (loaded_plugins self) with
  | None => mkUnloadResult self None (Ok ())
  | Some plugin =>
      if negb (can_unload (dependency_resolver self) plugin_name) then
        let dependents :=
          get_dependents (dependency_resolver self) plugin_name in
        mkUnloadResult self None
          (Raise (PluginLoadError
                    ("Cannot unload " +:+ plugin_name +:+ ": required by "
                     +:+ Text.join ", " dependents)))
      else
        match cleanup plugin with
        | Ok plugin =>
            let plugin := set_status UNLOADED plugin in
            mkUnloadResult
              (with_loaded (Dict.del plugin_name (loaded_plugins self)) self)
              (Some plugin) (Ok ())
        | Raise e => mkUnloadResult self (Some plugin) (Raise e)
        | OutOfFuel => mkUnloadResult self (Some plugin) OutOfFuel
        end
  end.

Definition get_plugin (self : PluginManager) (plugin_name : string)
  : option PluginInstance :=
  Dict.get plugin_name (loaded_plugins self).


(** [get_plugins_by_type]: the loaded plugins, in the order of the
    dictionary, whose type has the given value. *)
Definition get_plugins_by_type (self : PluginManager) (plugin_type : string)
  : list PluginInstance :=
  List.filter
    (fun p => String.eqb (PluginType_value (Base.plugin_type p)) plugin_type)
    (loaded_plugins self).*2.

(** [reload_plugin]: unload, then load with the stored configuration. *)
Definition reload_plugin (fuel : nat) (env : Env) (plugin_name : string)
    (self : PluginManager) : PluginManager * outcome () :=
  let config := Dict.get plugin_name (plugin_configs self) in
  let unloading := unload_plugin plugin_name self in
  match ended unloading with
  | Ok _ => load_plugin fuel env plugin_name config (manager_after unloading)
  | stopped => (manager_after unloading, stopped)
  end.

End Manager.


(** ** Vocabulary of the statements *)

Module Spec.

(** *** Versions *)

(** The same version with other build metadata. *)
Definition with_metadata (m : string) (v : Version.SemanticVersion)
  : Version.SemanticVersion :=
  {| Version.original := Version.original v;
     Version.major := Version.major v;
     Version.minor := Version.minor v;
     Version.patch := Version.patch v;
     Version.prerelease := Version.prerelease v;
     Version.metadata := m |}.

(** The message of the check when the host is 1.0.0 and the plugin asks for
    0.0.0. *)
Definition default_rejection (name : string) : string :=
  "Plugin " +:+ name
  +:+ " requires version 0.0.0 or higher (current version: 1.0.0)".

(** *** Dependency graphs *)

(** [v] is one of the dependencies [u] declares. *)
Definition edge (g : list (string * list string)) (u v : string) : Prop :=
  v ∈ Dependencies.graph_get g u.

Definition depends_on (r : Dependencies.DependencyResolver) : relation string :=
  edge (Dependencies.dependency_graph r).

(** [n] lies on a cycle of declared dependencies. *)
Definition on_cycle (r : Dependencies.DependencyResolver) (n : string) : Prop :=
  tc (depends_on r) n n.

(** Every dependency of every entry of [l] occurs earlier in [l]. *)
Definition topological (g : list (string * list string)) (l : list string)
  : Prop :=
  forall i x d, l !! i = Some x -> edge g x d ->
    exists j, j < i /\ l !! j = Some d.

(** Every declared dependency is itself registered. *)
Definition deps_closed (r : Dependencies.DependencyResolver) : Prop :=
  Forall (fun item : string * list string =>
            Forall (fun d => d ∈ Dependencies.available_plugins r) item.2)
         (Dependencies.dependency_graph r).

(** What [add_plugin] maintains: the set has no repetition and holds every
    key of the graph. *)
Definition registered (r : Dependencies.DependencyResolver) : Prop :=
  NoDup (Dependencies.available_plugins r)
  /\ Forall (fun k => k ∈ Dependencies.available_plugins r)
            (Dict.keys (Dependencies.dependency_graph r)).

(** The declarations [(plugin, dependency)] in the order in which
    [_validate_dependencies] meets them, and the first one whose dependency
    is not registered. *)
Definition declared (r : Dependencies.DependencyResolver)
  : list (string * string) :=
  flat_map (fun item : string * list string => map (pair item.1) item.2)
           (Dependencies.dependency_graph r).
Definition first_missing (r : Dependencies.DependencyResolver)
  : option (string * string) :=
  List.find (fun p : string * string =>
               bool_decide (p.2 ∉ Dependencies.available_plugins r))
            (declared r).

(** The invariant of the traversal over a graph [g] whose nodes all lie in
    [avail]. *)
Record search_inv (g : list (string * list string)) (avail : gset string)
    (st : Dependencies.search) : Prop := {
  inv_order : forall x,
    x ∈ Dependencies.visited st <-> x ∈ Dependencies.load_order st;
  inv_nodup : NoDup (Dependencies.load_order st);
  inv_topo : topological g (Dependencies.load_order st);
  inv_disjoint : Dependencies.visited st ## Dependencies.temp_mark st;
  inv_avail : Dependencies.visited st ⊆ avail
}.

Definition cycle_reported (g : list (string * list string)) (e : exn) : Prop :=
  exists n,
    e = CircularDependencyError (Dependencies.circular_message n)
    /\ tc (edge g) n n.

(** What one visit of [d] from the state [st] may end in. *)
Definition step_ok (g : list (string * list string)) (avail : gset string)
    (d : string) (st : Dependencies.search)
    (r : outcome Dependencies.search) : Prop :=
  match r with
  | Ok st' =>
      search_inv g avail st'
      /\ Dependencies.temp_mark st' = Dependencies.temp_mark st
      /\ Dependencies.visited st ⊆ Dependencies.visited st'
      /\ d ∈ Dependencies.visited st'
  | Raise e => cycle_reported g e
  | OutOfFuel => False
  end.

(** *** Configuration trees *)

(** Following a path of keys through nested dictionaries. *)
Fixpoint lookup_path (keys : list string) (v : Py.value) : option Py.value :=
  match keys with
  | [] => Some v
  | k :: keys' =>
      match v with
      | Py.VDict d =>
          match Dict.get k d with
          | Some v' => lookup_path keys' v'
          | None => None
          end
      | _ => None
      end
  end.


(** *** Manifests *)

(** The values the text checks of the validator accept without raising:
    text, and whatever [not v] lets return early. *)
Definition text_or_falsy (v : Py.value) : bool :=
  Py.is_str v || negb (Py.truthy v).

(** The fields handed to [re.match]. *)
Definition checked_as_text : list string :=
  ["name"; "version"; "entry_point"; "requires_version"].

Definition well_shaped (manifest : Py.dict) : bool :=
  forallb (fun key => match Dict.get key manifest with
                      | Some v => text_or_falsy v
                      | None => true
                      end) checked_as_text.

(** The errors a check reports when run on its own. *)
Definition errors_of
    (check : Manifest.ManifestValidator -> outcome Manifest.ManifestValidator)
  : list string :=
  match check (Manifest.mkValidator []) with
  | Ok v => Manifest.errors v
  | _ => []
  end.

(** A check that returns having appended [errs] to the errors so far. *)
Definition appends
    (check : Manifest.ManifestValidator -> outcome Manifest.ManifestValidator)
    (errs : list string) : Prop :=
  forall self,
    check self = Ok {| Manifest.errors := Manifest.errors self ++ errs |}.

Definition missing_field_message (field : string) : string :=
  "Missing required field: " +:+ field.

(** The message of the [TypeError] of [re.match] on a value that is not
    text. *)
Definition not_text_message (v : Py.value) : string :=
  "expected string or bytes-like object, got '" +:+ Py.type_name v +:+ "'".

(** *** Collecting dependencies *)

(** What [collect_deps] has done between the states [st] and [st'] when
    called on the plugins [roots], the plugins [extra] having been appended
    by the caller: both variables only grow, the result has no repetition,
    every plugin marked in between is reachable from a root and has all its
    dependencies marked and in the result, and every new entry of the
    result is in [extra] or a dependency of a plugin marked in between. *)
Definition collected (g : list (string * list string))
    (roots extra : list string) (st st' : Dependencies.collecting) : Prop :=
  Dependencies.seen st ⊆ Dependencies.seen st'
  /\ (forall x, x ∈ Dependencies.result st -> x ∈ Dependencies.result st')
  /\ NoDup (Dependencies.result st')
  /\ (forall d, d ∈ roots -> d ∈ Dependencies.seen st')
  /\ (forall d, d ∈ extra -> d ∈ Dependencies.result st')
  /\ (forall n, n ∈ Dependencies.seen st' -> n ∉ Dependencies.seen st ->
        (forall d, edge g n d ->
           d ∈ Dependencies.seen st' /\ d ∈ Dependencies.result st')
        /\ exists root, root ∈ roots /\ rtc (edge g) root n)
  /\ (forall x, x ∈ Dependencies.result st' ->
        x ∈ Dependencies.result st \/ x ∈ extra
        \/ exists n, n ∈ Dependencies.seen st' /\ (n ∉ Dependencies.seen st)
                     /\ edge g n x).

(** [u] declares the dependency [v] and both are among [plugins]. *)
Definition depends_within (r : Dependencies.DependencyResolver)
    (plugins : list string) (u v : string) : Prop :=
  u ∈ plugins /\ v ∈ plugins /\ depends_on r u v.

(** *** Discovery and the manager *)



(** Every plugin the manager holds as loaded has the status [LOADED]. *)
Definition all_loaded (m : Manager.PluginManager) : Prop :=
  Forall (fun item : string * Base.PluginInstance =>
            Base.status item.2 = Base.LOADED)
         (Manager.loaded_plugins m).


(** *** Text and versions *)

(** [rest] does not begin with a character satisfying [p]: where
    [Text.span p] stops. *)
Definition stops (p : ascii -> bool) (rest : string) : Prop :=
  match rest with
  | EmptyString => True
  | String c _ => p c = false
  end.

(** The text of a tag, as [_parse] leaves it in [prerelease] and
    [metadata]. *)
Definition tag_text (s : string) : Prop :=
  Text.all_chars Version.is_tag_char s = true.

(** [v] passes the filter of [get_latest_compatible]: there is no minimum,
    or it is empty, or it parses to a version that [v] is not below. *)
Definition meets_minimum (min_version : option string)
    (v : Version.SemanticVersion) : Prop :=
  match min_version with
  | Some text =>
      Text.is_empty text = true
      \/ exists m, Version.SemanticVersion_new text = Ok m
                   /\ Version.ge v m = true
  | None => True
  end.

End Spec.

(** ** Sample inputs *)

Module Examples.
Import Py Base Version Dependencies Loader Manager.

(** The graph [{a: [], b: [a], c: [a, b]}]. *)
Definition diamond : DependencyResolver :=
  add_plugin "c" ["a"; "b"]
    (add_plugin "b" ["a"] (add_plugin "a" [] DependencyResolver_new)).

(** [x] depends on [y], which is not registered. *)
Definition dangling : DependencyResolver :=
  add_plugin "x" ["y"] DependencyResolver_new.

(** [alpha] depends on [beta] and [gamma] on [delta]; neither [beta] nor
    [delta] is registered. *)
Definition two_dangling : DependencyResolver :=
  add_plugin "gamma" ["delta"]
    (add_plugin "alpha" ["beta"] DependencyResolver_new).

(** The tree [{"a": {"x": 1, "y": 2}}] and the update [{"a": {"x": 9}}]. *)
Definition nested_config : Config.PluginConfig :=
  {| Config.plugin_name := "demo";
     Config.config_data := [("a", VDict [("x", VInt 1); ("y", VInt 2)])] |}.
Definition nested_update : dict := [("a", VDict [("x", VInt 9)])].

Definition empty_config : Config.PluginConfig :=
  {| Config.plugin_name := "demo"; Config.config_data := [] |}.
(** The configuration after [set("a", 1)]. *)
Definition scalar_config : Config.PluginConfig :=
  {| Config.plugin_name := "demo"; Config.config_data := [("a", VInt 1)] |}.

(** A manifest whose only key is a name that is not text. *)
Definition numeric_name_manifest : dict := [("name", VInt 5)].
(** A manifest with a name and nothing else. *)
Definition name_only_manifest : dict := [("name", VStr "demo")].

(** A class whose methods all succeed. *)
Definition sound_class (name : string) : PluginClass :=
  {| class_name := name; inherits_PluginInterface := true;
     on_construct := fun _ => None;
     on_initialize := fun _ => Returns true;
     on_validate := Returns true;
     on_cleanup := None |}.

(** A class whose [initialize] returns [False]. *)
Definition refusing_class (name : string) : PluginClass :=
  {| class_name := name; inherits_PluginInterface := true;
     on_construct := fun _ => None;
     on_initialize := fun _ => Returns false;
     on_validate := Returns true;
     on_cleanup := None |}.

Definition sample_manifest (name : string) (deps : list string)
    (requires_version : option string) : dict :=
  [("name", VStr name); ("version", VStr "1.0.0"); ("type", VStr "custom");
   ("entry_point", VStr "main.Plugin");
   ("dependencies", VList (VStr <$> deps))]
  ++ match requires_version with
     | Some rv => [("requires_version", VStr rv)]
     | None => []
     end.

(** Two plugin directories, [b] depending on [a]; every module file exists
    and defines a class [Plugin]. *)
Definition two_plugins (cls : string -> PluginClass) : Env :=
  {| file_exists := fun _ => true;
     exec_module := fun name _ => Ok [("Plugin", ClassObject (cls name))];
     manifests_on_disk :=
       [("plugins/a", "plugins/a/plugin.json",
         sample_manifest "a" [] (Some "1.0.0"));
        ("plugins/b", "plugins/b/plugin.json",
         sample_manifest "b" ["a"] (Some "1.0.0"))] |}.

Definition plugin_a_info (requires_version : option string) : PluginInfo :=
  {| info_manifest := sample_manifest "a" [] requires_version;
     info_directory := "plugins/a";
     info_manifest_path := "plugins/a/plugin.json" |}.

Definition version_1_0_0 : SemanticVersion :=
  {| original := "1.0.0"; major := 1; minor := 0; patch := 0;
     prerelease := EmptyString; metadata := EmptyString |}.
Definition default_checker : VersionChecker := mkChecker version_1_0_0.
Definition default_loader : PluginLoader := PluginLoader_new default_checker.
(** [PluginManager(search_paths)] with the default system version. *)
Definition default_manager : PluginManager :=
  {| manager_version_checker := default_checker;
     loader := default_loader;
     dependency_resolver := DependencyResolver_new;
     discovered_plugins := [];
     loaded_plugins := [];
     plugin_configs := [] |}.

(** The manager after [load_all_plugins()] over [two_plugins]. *)
Definition both_loaded : PluginManager :=
  (load_all_plugins (two_plugins sound_class) None default_manager).1.

(** The manager after [load_plugin("b")] over [two_plugins]: the lazy path
    loads [a] first. *)
Definition lazily_loaded : PluginManager :=
  (Manager.load_plugin 3 (two_plugins sound_class) "b" None default_manager).1.

End Examples.

(** * Properties *)

Set Warnings "-clear-no-such-hyp".

(** ** version.py *)

Section version_facts.
Import Version.

Lemma ltb_irrefl (s : string) : String.ltb s s = false.
Proof.
  unfold String.ltb.
  pose proof (String.compare_antisym s s) as H.
  by destruct (String.compare s s).
Qed.

Lemma eq_not_lt (v r : SemanticVersion) : eq v r = true -> lt v r = false.
Proof.
  unfold eq, lt. intros H.
  repeat (apply andb_prop in H as [H ?]).
  apply String.eqb_eq in H0.
  rewrite H, H1, H2, H0. simpl.
  destruct (Text.is_empty (prerelease r)); simpl; [done|].
  apply ltb_irrefl.
Qed.

Lemma ge_iff_gt_or_eq (v r : SemanticVersion) :
  ge v r = true <-> gt v r = true \/ eq v r = true.
Proof.
  unfold ge, gt, le. split.
  - intros H. apply negb_true_iff in H. rewrite H. simpl.
    destruct (eq v r); auto.
  - intros [H|H].
    + apply negb_true_iff, orb_false_iff in H as [-> _]. done.
    + by rewrite (eq_not_lt _ _ H).
Qed.

Lemma new_outcome (s : string) :
  (exists v, SemanticVersion_new s = Ok v)
  \/ SemanticVersion_new s
     = Raise (ValueError ("Invalid semantic version: " +:+ s)).
Proof.
  unfold SemanticVersion_new.
  destruct (match_semver s) as [[[[[g1 g2] g3] g4] g5]|]; eauto.
Qed.

Lemma default_checker_new :
  VersionChecker_new default_system_version = Ok Examples.default_checker.
Proof. by vm_compute. Qed.

Lemma default_check (plugin_name : string) :
  check_plugin_compatibility Examples.default_checker plugin_name "0.0.0"
  = Ok (false, Spec.default_rejection plugin_name).
Proof. reflexivity. Qed.

End version_facts.

(** C5. [v.is_compatible_with(r)] holds exactly when the major components
    are equal and [v >= r]; [>=] is "greater than or equal" for the defined
    [>] and [==]; build metadata plays no part; and the three sample
    verdicts of the specification come out as stated. *)
Theorem is_compatible_with_iff :
  (forall v r : Version.SemanticVersion,
     Version.is_compatible_with v r = true
     <-> Version.major v = Version.major r /\ Version.ge v r = true)
  /\ (forall v r : Version.SemanticVersion,
        Version.ge v r = true
        <-> Version.gt v r = true \/ Version.eq v r = true)
  /\ (forall (v r : Version.SemanticVersion) (m1 m2 : string),
        Version.is_compatible_with (Spec.with_metadata m1 v)
          (Spec.with_metadata m2 r)
        = Version.is_compatible_with v r)
  /\ (v ← Version.SemanticVersion_new "2.3.0";
      r ← Version.SemanticVersion_new "2.1.0";
      Ok (Version.is_compatible_with v r)) = Ok true
  /\ (v ← Version.SemanticVersion_new "1.9.0";
      r ← Version.SemanticVersion_new "2.0.0";
      Ok (Version.is_compatible_with v r)) = Ok false
  /\ (v ← Version.SemanticVersion_new "2.0.0";
      r ← Version.SemanticVersion_new "2.1.0";
      Ok (Version.is_compatible_with v r)) = Ok false.
Proof.
  split; [|split; [|split; [|by vm_compute]]].
  - intros v r. unfold Version.is_compatible_with.
    destruct (N.eqb_spec (Version.major v) (Version.major r)) as [E|E]; simpl.
    + tauto.
    + split; [done | tauto].
  - apply ge_iff_gt_or_eq.
  - intros v r m1 m2. reflexivity.
Qed.

(** C9. For every checker, plugin name and required-version text,
    [check_plugin_compatibility] returns a pair and does not raise; the
    boolean is the verdict of [is_compatible_with] when the text parses and
    [false] when parsing raises. *)
Theorem check_plugin_compatibility_total :
  (forall (self : Version.VersionChecker)
          (plugin_name required_version : string),
     exists message : string,
       Version.check_plugin_compatibility self plugin_name required_version
       = Ok (match Version.SemanticVersion_new required_version with
             | Ok required =>
                 Version.is_compatible_with (Version.system_version self)
                   required
             | _ => false
             end, message))
  /\ Version.SemanticVersion_new "1.x"
     = Raise (ValueError "Invalid semantic version: 1.x")
  /\ Version.check_plugin_compatibility Examples.default_checker "demo" "1.x"
     = Ok (false,
           "Invalid version format for demo: Invalid semantic version: 1.x").
Proof.
  split; [|by vm_compute].
  intros self plugin_name required_version.
  unfold Version.check_plugin_compatibility.
  destruct (new_outcome required_version) as [[v ->] | ->].
  - destruct (Version.is_compatible_with _ v); eauto.
  - eauto.
Qed.


(** ** Dictionaries *)

Section dict_facts.
Context {V : Type}.
Implicit Types (d : list (string * V)) (k : string) (v : V).

Lemma get_set_eq k v d : Dict.get k (Dict.set k v d) = Some v.
Proof.
  induction d as [|[k' v'] d IH]; simpl.
  - by rewrite String.eqb_refl.
  - destruct (String.eqb_spec k' k) as [->|Hne]; simpl.
    + by rewrite String.eqb_refl.
    + by destruct (String.eqb_spec k' k).
Qed.

Lemma get_set_ne k k' v d :
  k <> k' -> Dict.get k' (Dict.set k v d) = Dict.get k' d.
Proof.
  intros Hne. induction d as [|[k0 v0] d IH]; simpl.
  - by destruct (String.eqb_spec k k').
  - destruct (String.eqb_spec k0 k) as [->|Hne0]; simpl.
    + by destruct (String.eqb_spec k k').
    + by rewrite IH.
Qed.

Lemma get_None_keys k d : k ∉ Dict.keys d -> Dict.get k d = None.
Proof.
  unfold Dict.keys. induction d as [|[k' v'] d IH]; simpl; [done|].
  intros Hn. apply not_elem_of_cons in Hn as [Hne Hn].
  destruct (String.eqb_spec k' k); [congruence|by apply IH].
Qed.

Lemma get_Some_elem k v d : Dict.get k d = Some v -> (k, v) ∈ d.
Proof.
  induction d as [|[k' v'] d IH]; simpl; [done|].
  destruct (String.eqb_spec k' k) as [->|Hne].
  - intros [= ->]. left.
  - intros H. right. by apply IH.
Qed.

Lemma keys_set k v d :
  forall x, x ∈ Dict.keys (Dict.set k v d) <-> x = k \/ x ∈ Dict.keys d.
Proof.
  unfold Dict.keys. induction d as [|[k' v'] d IH]; intros x; simpl.
  - rewrite list_elem_of_singleton. set_solver.
  - destruct (String.eqb_spec k' k) as [->|Hne]; simpl.
    + rewrite elem_of_cons. tauto.
    + rewrite !elem_of_cons, IH. tauto.
Qed.

End dict_facts.

(** ** dependencies.py *)

Section traversal.
Import Dependencies Spec.

Variable g : list (string * list string).
Variable avail : gset string.
Hypothesis deps_available : forall u v, edge g u v -> v ∈ avail.

Lemma loop_ok (body : string -> search -> outcome search)
    (T : gset string) (ds : list string) :
  (forall d st, d ∈ ds -> search_inv g avail st -> temp_mark st = T ->
                step_ok g avail d st (body d st)) ->
  forall st, search_inv g avail st -> temp_mark st = T ->
    match for_each body ds st with
    | Ok st' =>
        search_inv g avail st' /\ temp_mark st' = T
        /\ visited st ⊆ visited st' /\ (forall d, d ∈ ds -> d ∈ visited st')
    | Raise e => cycle_reported g e
    | OutOfFuel => False
    end.
Proof.
  induction ds as [|d ds IH]; intros Hbody st Hinv HT; simpl.
  - split_and!; [done|done|done|]. intros d Hd. by apply elem_of_nil in Hd.
  - pose proof (Hbody d st ltac:(left) Hinv HT) as Hd.
    unfold step_ok in Hd. unfold mbind, outcome_bind.
    destruct (body d st) as [st1|e|]; [|done..].
    destruct Hd as (Hinv1 & HT1 & Hsub1 & Hd1).
    assert (HT1' : temp_mark st1 = T) by congruence.
    specialize (IH (fun d' st' Hin => Hbody d' st' ltac:(by right))
                  st1 Hinv1 HT1').
    destruct (for_each body ds st1) as [st2|e|]; [|done..].
    destruct IH as (Hinv2 & HT2 & Hsub2 & Hall).
    split_and!; [done|done|by etrans|].
    intros d' [->|Hin]%elem_of_cons; [by apply Hsub2|by apply Hall].
Qed.

Lemma topological_snoc (l : list string) (node : string) :
  topological g l ->
  (forall d, edge g node d -> d ∈ l) ->
  topological g (l ++ [node]).
Proof.
  intros Htopo Hdeps i x d Hi Hedge.
  destruct (decide (i < length l)) as [Hlt|Hge].
  - rewrite lookup_app_l in Hi by done.
    destruct (Htopo i x d Hi Hedge) as (j & Hj & Hjd).
    exists j. split; [done|]. rewrite lookup_app_l; [done|lia].
  - rewrite lookup_app_r in Hi by lia.
    apply list_lookup_singleton_Some in Hi as [Hi ->].
    destruct (proj1 (list_elem_of_lookup _ _) (Hdeps d Hedge)) as [j Hj].
    exists j. pose proof (lookup_lt_Some _ _ _ Hj).
    split; [lia|]. by rewrite lookup_app_l.
Qed.

Lemma visit_ok (fuel : nat) :
  forall node st,
    search_inv g avail st -> node ∈ avail -> temp_mark st ⊆ avail ->
    size (avail ∖ temp_mark st) < fuel ->
    (forall t, t ∈ temp_mark st -> tc (edge g) t node) ->
    step_ok g avail node st (visit fuel g node st).
Proof.
  induction fuel as [|fuel IH]; intros node st Hinv Hnode Htemp Hfuel Hpath.
  - lia.
  - simpl. case_bool_decide as Hmark.
    { exists node. split; [done|]. exact (Hpath _ Hmark). }
    case_bool_decide as Hvis; cycle 1.
    { simpl. split_and!; [done|done|done|].
      by destruct (decide (node ∈ visited st)). }
    set (st1 := {| visited := visited st;
                   temp_mark := temp_mark st ∪ {[node]};
                   load_order := load_order st |}).
    assert (Hinv1 : search_inv g avail st1).
    { destruct Hinv. split; simpl; [done..|set_solver|done]. }
    assert (Hsize : size (avail ∖ (temp_mark st ∪ {[node]})) < fuel).
    { assert (avail ∖ (temp_mark st ∪ {[node]}) ⊂ avail ∖ temp_mark st)
        as Hlt%subset_size by set_solver.
      lia. }
    pose proof (loop_ok (visit fuel g) (temp_mark st ∪ {[node]})
                  (graph_get g node)) as Hloop.
    specialize (Hloop (fun d st' Hd Hinv' HT' =>
      IH d st' Hinv' (deps_available node d Hd)
         ltac:(rewrite HT'; set_solver)
         ltac:(by rewrite HT')
         ltac:(rewrite HT'; intros t [Ht| ->%elem_of_singleton]%elem_of_union;
               [eapply tc_r; [by apply Hpath|done] | by apply tc_once]))
      st1 Hinv1 eq_refl).
    unfold mbind, outcome_bind.
    destruct (for_each (visit fuel g) (graph_get g node) st1) as [st2|e|];
      [|done..].
    destruct Hloop as (Hinv2 & HT2 & Hsub2 & Hall). simpl in *.
    rewrite bool_decide_eq_true_2 by (rewrite HT2; set_solver).
    destruct Hinv2 as [Ho Hn Ht Hd Ha].
    split_and!; [split; simpl|..]; simpl.
    + intros x. rewrite elem_of_union, elem_of_app, Ho. set_solver.
    + apply NoDup_app. split; [done|]. split; [|apply NoDup_singleton].
      intros x Hx ->%list_elem_of_singleton. apply Ho in Hx. set_solver.
    + apply topological_snoc; [done|]. intros d Hd'. apply Ho. by apply Hall.
    + set_solver.
    + set_solver.
    + rewrite HT2. set_solver.
    + set_solver.
    + set_solver.
Qed.

End traversal.

Section resolve_facts.
Import Dependencies Spec.

Lemma inner_loop_find (avail : list string) (plugin_name : string)
    (ds : list string) (rest : list (string * string)) :
  match for_each (fun (dep : string) (_ : ()) =>
          if bool_decide (dep ∉ avail)
          then Raise (MissingDependencyError (missing_message plugin_name dep))
          else Ok ()) ds () with
  | Ok _ =>
      List.find (fun p : string * string => bool_decide (p.2 ∉ avail))
                (map (pair plugin_name) ds ++ rest)
      = List.find (fun p : string * string => bool_decide (p.2 ∉ avail)) rest
  | Raise e =>
      exists Y,
        List.find (fun p : string * string => bool_decide (p.2 ∉ avail))
                  (map (pair plugin_name) ds ++ rest) = Some (plugin_name, Y)
        /\ e = MissingDependencyError (missing_message plugin_name Y)
  | OutOfFuel => False
  end.
Proof.
  induction ds as [|d ds IH]; simpl; [done|].
  case_bool_decide as Hd; simpl.
  - by exists d.
  - exact IH.
Qed.

Lemma validate_first_missing (r : DependencyResolver) :
  _validate_dependencies r
  = match first_missing r with
    | Some (X, Y) => Raise (MissingDependencyError (missing_message X Y))
    | None => Ok ()
    end.
Proof.
  unfold _validate_dependencies, first_missing, declared.
  generalize (available_plugins r) as avail. intros avail.
  induction (dependency_graph r) as [|[X ds] g IH]; simpl; [done|].
  pose proof (inner_loop_find avail X ds
                (flat_map (fun item : string * list string =>
                             map (pair item.1) item.2) g)) as H.
  destruct (for_each _ ds ()) as [[]|e|]; simpl.
  - rewrite H. exact IH.
  - destruct H as (Y & -> & ->). done.
  - done.
Qed.

Lemma first_missing_Some (r : DependencyResolver) (X Y : string) :
  first_missing r = Some (X, Y) ->
  (exists ds, (X, ds) ∈ dependency_graph r /\ Y ∈ ds)
  /\ Y ∉ available_plugins r.
Proof.
  unfold first_missing, declared. intros H.
  apply find_some in H as [Hin Hb]. apply bool_decide_eq_true in Hb.
  split; [|done]. apply in_flat_map in Hin as ([X' ds] & Hitem & Hp).
  apply in_map_iff in Hp as (Y' & [= <- <-] & HY).
  exists ds. split; by apply list_elem_of_In.
Qed.

Lemma first_missing_not_None (r : DependencyResolver) (X Y : string)
    (ds : list string) :
  (X, ds) ∈ dependency_graph r -> Y ∈ ds -> Y ∉ available_plugins r ->
  first_missing r <> None.
Proof.
  unfold first_missing, declared. intros Hitem HY Hn Hnone.
  pose proof (find_none _ _ Hnone (X, Y)) as H. simpl in H.
  rewrite bool_decide_eq_false in H. apply H; [|done].
  apply in_flat_map. exists (X, ds). split; [by apply list_elem_of_In|].
  simpl. apply in_map. by apply list_elem_of_In.
Qed.

Lemma validate_closed (r : DependencyResolver) :
  deps_closed r -> _validate_dependencies r = Ok ().
Proof.
  intros Hc. rewrite validate_first_missing.
  destruct (first_missing r) as [[X Y]|] eqn:E; [|done].
  apply first_missing_Some in E as [(ds & Hitem & HY) Hn].
  unfold deps_closed in Hc. rewrite Forall_forall in Hc.
  specialize (Hc _ Hitem). simpl in Hc. rewrite Forall_forall in Hc.
  by destruct (Hn (Hc _ HY)).
Qed.

Lemma deps_closed_edges (r : DependencyResolver) :
  deps_closed r ->
  forall u v, depends_on r u v ->
    v ∈ (list_to_set (available_plugins r) : gset string).
Proof.
  intros Hc u v. unfold depends_on, edge, graph_get.
  destruct (Dict.get u (dependency_graph r)) as [ds|] eqn:E; simpl;
    [|by intros H; apply elem_of_nil in H].
  intros Hv. apply get_Some_elem in E.
  unfold deps_closed in Hc. rewrite Forall_forall in Hc.
  specialize (Hc _ E). simpl in Hc. rewrite Forall_forall in Hc.
  apply elem_of_list_to_set. by apply Hc.
Qed.

Lemma edge_source_key (r : DependencyResolver) (u v : string) :
  depends_on r u v -> u ∈ Dict.keys (dependency_graph r).
Proof.
  unfold depends_on, edge, graph_get.
  destruct (Dict.get u (dependency_graph r)) as [ds|] eqn:E; simpl;
    [|by intros H; apply elem_of_nil in H].
  intros _. apply get_Some_elem in E. unfold Dict.keys.
  apply list_elem_of_fmap. by exists (u, ds).
Qed.

Lemma topological_descends (g : list (string * list string)) (l : list string) :
  topological g l ->
  forall x y, tc (edge g) x y ->
    forall i, l !! i = Some x -> exists j, j < i /\ l !! j = Some y.
Proof.
  intros Htopo x y Hxy.
  induction Hxy as [x y Hxy|x y z Hxy Hyz IH]; intros i Hi.
  - by apply (Htopo i x y).
  - destruct (Htopo i x y Hi Hxy) as (j & Hj & Hjy).
    destruct (IH j Hjy) as (k & Hk & Hkz). exists k. split; [lia|done].
Qed.

Lemma topological_no_cycle (g : list (string * list string)) (l : list string)
    (n : string) :
  topological g l -> n ∈ l -> ~ tc (edge g) n n.
Proof.
  intros Htopo [i Hi]%list_elem_of_lookup Hcyc.
  induction (lt_wf i) as [i _ IH].
  destruct (topological_descends g l Htopo n n Hcyc i Hi) as (j & Hj & Hjn).
  by apply (IH j).
Qed.

Lemma resolve_outcome (r : DependencyResolver) :
  registered r -> deps_closed r ->
  (exists l, resolve r = Ok l /\ NoDup l
             /\ (forall p, p ∈ l <-> p ∈ available_plugins r)
             /\ topological (dependency_graph r) l)
  \/ (exists n, resolve r
                = Raise (CircularDependencyError (circular_message n))
                /\ on_cycle r n).
Proof.
  intros [Hnodup Hkeys] Hclosed. unfold resolve.
  rewrite (validate_closed r Hclosed).
  unfold mbind, outcome_bind. cbv beta iota.
  set (avail := list_to_set (available_plugins r) : gset string).
  set (body := fun plugin st =>
         if bool_decide (plugin ∉ visited st)
         then visit (resolve_fuel r) (dependency_graph r) plugin st
         else Ok st).
  set (st0 := {| visited := ∅; temp_mark := ∅; load_order := [] |}).
  assert (Hinv0 : search_inv (dependency_graph r) avail st0).
  { split; simpl; [set_solver|constructor| |set_solver|set_solver].
    intros i x d Hi. by rewrite lookup_nil in Hi. }
  pose proof (loop_ok (dependency_graph r) avail body ∅ (available_plugins r))
    as Hloop.
  assert (Hbody : forall d st, d ∈ available_plugins r ->
            search_inv (dependency_graph r) avail st -> temp_mark st = ∅ ->
            step_ok (dependency_graph r) avail d st (body d st)).
  { intros d st Hd Hinv HT. unfold body. case_bool_decide as Hvis.
    - apply (visit_ok (dependency_graph r) avail (deps_closed_edges r Hclosed));
        [done|by apply elem_of_list_to_set|rewrite HT; set_solver| |].
      + rewrite HT. unfold resolve_fuel.
        assert (size (avail ∖ ∅) <= size avail)
          by (apply subseteq_size; set_solver).
        unfold avail in *. rewrite size_list_to_set in * by done. lia.
      + rewrite HT. intros t Ht. by apply not_elem_of_empty in Ht.
    - simpl. split_and!; [done|done|done|].
      by destruct (decide (d ∈ visited st)). }
  specialize (Hloop Hbody st0 Hinv0 eq_refl).
  destruct (for_each body (available_plugins r) st0) as [st|e|];
    [|right|done].
  2: { destruct Hloop as (n & -> & Hcyc). by exists n. }
  left. destruct Hloop as ([Ho Hn Ht Hd Ha] & _ & _ & Hall).
  exists (load_order st). split_and!; [done|done| |done].
  intros p. rewrite <- Ho. split.
  - intros Hp. apply Ha in Hp. by apply elem_of_list_to_set in Hp.
  - apply Hall.
Qed.

Lemma registered_new : registered DependencyResolver_new.
Proof. split; constructor. Qed.

Lemma registered_add_plugin (name : string) (deps : list string)
    (r : DependencyResolver) :
  registered r -> registered (add_plugin name deps r).
Proof.
  intros [Hnd Hkeys]. rewrite Forall_forall in Hkeys.
  unfold registered, add_plugin. simpl. split.
  - case_bool_decide; [done|].
    apply NoDup_app. split_and!; [done| |apply NoDup_singleton].
    by intros x Hx ->%list_elem_of_singleton.
  - rewrite Forall_forall. intros k [->|Hk]%keys_set.
    + case_bool_decide; [done|]. apply elem_of_app. right. left.
    + case_bool_decide; [by apply Hkeys|].
      apply elem_of_app. left. by apply Hkeys.
Qed.

End resolve_facts.

(** C6, as stated, fails when two declarations are unmet: [gamma] is
    registered and declares [delta], which is not, yet the error of
    [resolve()] is about [alpha] and [beta] and names neither [gamma] nor
    [delta]. *)
Lemma missing_dependency_names_first_only :
  ("gamma", ["delta"]) ∈ Dependencies.dependency_graph Examples.two_dangling
  /\ "gamma" ∈ Dependencies.available_plugins Examples.two_dangling
  /\ ("delta" ∉ Dependencies.available_plugins Examples.two_dangling)
  /\ Dependencies.resolve Examples.two_dangling
     = Raise (MissingDependencyError
                "Plugin 'alpha' requires 'beta' which is not available")
  /\ Text.is_substring "gamma"
       "Plugin 'alpha' requires 'beta' which is not available" = false
  /\ Text.is_substring "delta"
       "Plugin 'alpha' requires 'beta' which is not available" = false.
Proof.
  split_and!; [| | |by vm_compute..].
  - apply (bool_decide_unpack _). by vm_compute.
  - apply (bool_decide_unpack _). by vm_compute.
  - apply (proj1 (bool_decide_eq_false _)). by vm_compute.
Qed.

(** C6, amended.  When a registered plugin [X] declares a dependency [Y]
    that is not registered, the pre-check [_validate_dependencies] raises a
    [MissingDependencyError] and [resolve()] ends with that very error, so
    no traversal takes place; the message names the first plugin, in the
    order of registration, with a dependency that is not registered, and
    the first such dependency of it: [X] and [Y] themselves when no other
    declaration is unmet. *)
Theorem missing_dependency_raised_by_precheck
    (r : Dependencies.DependencyResolver) (X Y : string) (ds : list string) :
  (X, ds) ∈ Dependencies.dependency_graph r ->
  Y ∈ ds ->
  Y ∉ Dependencies.available_plugins r ->
  exists X' Y',
    Spec.first_missing r = Some (X', Y')
    /\ (exists ds', (X', ds') ∈ Dependencies.dependency_graph r /\ Y' ∈ ds')
    /\ (Y' ∉ Dependencies.available_plugins r)
    /\ Dependencies._validate_dependencies r
       = Raise (MissingDependencyError
                  ("Plugin '" +:+ X' +:+ "' requires '" +:+ Y'
                   +:+ "' which is not available"))
    /\ Dependencies.resolve r
       = Raise (MissingDependencyError
                  ("Plugin '" +:+ X' +:+ "' requires '" +:+ Y'
                   +:+ "' which is not available"))
    /\ ((forall X2 ds2 Y2,
           (X2, ds2) ∈ Dependencies.dependency_graph r -> Y2 ∈ ds2 ->
           Y2 ∉ Dependencies.available_plugins r -> X2 = X /\ Y2 = Y) ->
        X' = X /\ Y' = Y).
Proof.
  intros Hitem HY Hn.
  pose proof (first_missing_not_None r X Y ds Hitem HY Hn) as Hsome.
  destruct (Spec.first_missing r) as [[X' Y']|] eqn:E; [|done].
  pose proof (first_missing_Some r X' Y' E) as [(ds' & Hitem' & HY') Hn'].
  pose proof (validate_first_missing r) as Hv. rewrite E in Hv.
  exists X', Y'. split_and!; [done|by exists ds'|done|done| |].
  - unfold Dependencies.resolve. by rewrite Hv.
  - intros Honly. by apply (Honly X' ds' Y').
Qed.

(** Witness of C6 (amended) on [{x: [y]}] with [y] not registered. *)
Lemma missing_dependency_raised_by_precheck_witness :
  ("x", ["y"]) ∈ Dependencies.dependency_graph Examples.dangling
  /\ "y" ∈ ["y"]
  /\ ("y" ∉ Dependencies.available_plugins Examples.dangling)
  /\ Dependencies.resolve Examples.dangling
     = Raise (MissingDependencyError
                "Plugin 'x' requires 'y' which is not available").
Proof.
  assert (H1 : ("x", ["y"]) ∈ Dependencies.dependency_graph Examples.dangling)
    by (vm_compute; left).
  assert (H2 : "y" ∈ ["y"]) by left.
  assert (H3 : "y" ∉ Dependencies.available_plugins Examples.dangling).
  { vm_compute. intros H. apply list_elem_of_singleton in H. discriminate H. }
  split_and!; [exact H1|exact H2|exact H3|].
  destruct (missing_dependency_raised_by_precheck Examples.dangling
              "x" "y" ["y"] H1 H2 H3)
    as (X' & Y' & _ & _ & _ & _ & Hres & Honly).
  destruct Honly as [-> ->]; [|exact Hres].
  intros X2 ds2 Y2 Hin HY _. vm_compute in Hin.
  apply list_elem_of_singleton in Hin. injection Hin as -> ->.
  apply list_elem_of_singleton in HY. by subst.
Defined.

(** C4. For a resolver whose declared dependencies are all registered:
    without a cycle, [resolve()] returns a list that holds every registered
    plugin exactly once, each after all of its dependencies; with a cycle,
    it raises a [CircularDependencyError] naming a plugin on a cycle. *)
Theorem resolve_topological_or_cycle (r : Dependencies.DependencyResolver) :
  Spec.registered r -> Spec.deps_closed r ->
  ((forall n, ~ Spec.on_cycle r n) ->
     exists l, Dependencies.resolve r = Ok l /\ NoDup l
               /\ (forall p, p ∈ l <-> p ∈ Dependencies.available_plugins r)
               /\ Spec.topological (Dependencies.dependency_graph r) l)
  /\ ((exists n, Spec.on_cycle r n) ->
      exists n,
        Dependencies.resolve r
        = Raise (CircularDependencyError
                   ("Circular dependency detected involving plugin: " +:+ n))
        /\ Spec.on_cycle r n).
Proof.
  intros Hreg Hclosed.
  destruct (resolve_outcome r Hreg Hclosed)
    as [(l & Hl & Hnd & Hmem & Htopo)|(n & Hn & Hcyc)].
  - split; [by exists l|].
    intros [n Hcyc]. exfalso.
    apply (topological_no_cycle (Dependencies.dependency_graph r) l n Htopo);
      [|done].
    apply Hmem. destruct Hreg as [_ Hkeys]. rewrite Forall_forall in Hkeys.
    apply Hkeys. unfold Spec.on_cycle in Hcyc.
    inversion Hcyc as [? ? Hedge|? y ? Hedge _]; subst;
      by eapply edge_source_key.
  - split; [|by exists n]. intros Hacyc. by destruct (Hacyc n).
Qed.

Lemma diamond_registered : Spec.registered Examples.diamond.
Proof. repeat apply registered_add_plugin. apply registered_new. Qed.

Lemma diamond_closed : Spec.deps_closed Examples.diamond.
Proof.
  unfold Spec.deps_closed. vm_compute Dependencies.dependency_graph.
  vm_compute Dependencies.available_plugins.
  repeat constructor; simpl; set_solver.
Qed.

(** Witness of C4 on [{a: [], b: [a], c: [a, b]}]. *)
Lemma resolve_topological_or_cycle_witness :
  Spec.registered Examples.diamond /\ Spec.deps_closed Examples.diamond
  /\ ((forall n, ~ Spec.on_cycle Examples.diamond n) ->
      exists l, Dependencies.resolve Examples.diamond = Ok l /\ NoDup l
        /\ (forall p, p ∈ l <-> p ∈ Dependencies.available_plugins Examples.diamond)
        /\ Spec.topological (Dependencies.dependency_graph Examples.diamond) l)
  /\ Dependencies.resolve Examples.diamond = Ok ["a"; "b"; "c"].
Proof.
  split; [exact diamond_registered|]. split; [exact diamond_closed|].
  split; [|by vm_compute].
  exact (proj1 (resolve_topological_or_cycle Examples.diamond
                  diamond_registered diamond_closed)).
Defined.

(** The graph [{a: [b], b: [a]}] of the specification is refused. *)
Example resolve_two_cycle :
  Dependencies.resolve
    (Dependencies.add_plugin "b" ["a"]
       (Dependencies.add_plugin "a" ["b"] Dependencies.DependencyResolver_new))
  = Raise (CircularDependencyError
             "Circular dependency detected involving plugin: a").
Proof. by vm_compute. Qed.

(** ** config.py *)

Section config_facts.
Import Py Config Spec.

Lemma merged_unfold (value : Py.value) (existing : option Py.value) :
  merged value existing
  = match value, existing with
    | VDict source', Some (VDict target') =>
        VDict (_deep_update target' source')
    | _, _ => value
    end.
Proof. by destruct value. Qed.

Lemma deep_update_cons (target : dict) (key : string) (value : Py.value)
    (rest : dict) :
  _deep_update target ((key, value) :: rest)
  = _deep_update (Dict.set key (merged value (Dict.get key target)) target)
      rest.
Proof. reflexivity. Qed.

Lemma deep_update_lookup (source target : dict) (key : string) :
  NoDup (Dict.keys source) ->
  Dict.get key (_deep_update target source)
  = match Dict.get key source with
    | Some value => Some (merged value (Dict.get key target))
    | None => Dict.get key target
    end.
Proof.
  revert target. induction source as [|[k v] rest IH]; intros target Hnd;
    [done|].
  rewrite deep_update_cons. apply NoDup_cons in Hnd as [Hk Hnd].
  rewrite IH by done. simpl.
  destruct (String.eqb_spec k key) as [->|Hne].
  - rewrite (get_None_keys key rest Hk). apply get_set_eq.
  - rewrite (get_set_ne k key) by done. done.
Qed.

Lemma get_loop_total (keys : list string) :
  forall value default, exists v, get_loop keys value default = Ok v.
Proof.
  induction keys as [|k keys IH]; intros value default; simpl; [by eexists|].
  destruct value as [| | | | |d]; simpl; try by eexists.
  unfold Dict.mem. destruct (Dict.get k d) as [v|] eqn:E; simpl; [|by eexists].
  apply IH.
Qed.

Lemma set_loop_non_dict (rest : list string) (v value : Py.value) :
  is_dict v = false -> rest <> [] ->
  exists msg, set_loop rest v value = Raise (TypeError msg).
Proof.
  intros Hv Hrest. destruct rest as [|k [|k' rest]]; [done|..];
    destruct v as [| | |s|items|]; try done; simpl; try by eexists.
  - destruct (Text.is_substring k s); simpl; by eexists.
  - destruct (existsb (str_equals k) items); simpl; by eexists.
Qed.

Lemma get_loop_non_dict (rest : list string) (v default : Py.value) :
  is_dict v = false -> rest <> [] -> get_loop rest v default = Ok default.
Proof.
  intros Hv Hrest. destruct rest as [|k rest]; [done|].
  simpl. rewrite Hv. done.
Qed.

Lemma set_loop_descend (k k' : string) (keys : list string) (d : dict)
    (child value : Py.value) :
  Dict.get k d = Some child ->
  set_loop (k :: k' :: keys) (VDict d) value
  = (child' ← set_loop (k' :: keys) child value;
     setitem (VDict d) k child').
Proof.
  intros E.
  change (set_loop (k :: k' :: keys) (VDict d) value)
    with (present ← contains (VDict d) k;
          config1 ← (if (present : bool) then Ok (VDict d)
                     else setitem (VDict d) k (VDict []));
          child0 ← getitem config1 k;
          child' ← set_loop (k' :: keys) child0 value;
          setitem config1 k child').
  unfold contains, Dict.mem. rewrite E. cbn [mbind outcome_bind].
  unfold getitem at 1. rewrite E. reflexivity.
Qed.

Lemma get_loop_descend (k : string) (keys : list string) (d : dict)
    (child default : Py.value) :
  Dict.get k d = Some child ->
  get_loop (k :: keys) (VDict d) default = get_loop keys child default.
Proof.
  intros E. simpl. unfold Dict.mem. rewrite E. simpl. by rewrite ?E.
Qed.

Lemma blocked_path (prefix : list string) :
  forall rest config v value default,
    prefix <> [] -> rest <> [] ->
    lookup_path prefix (VDict config) = Some v -> is_dict v = false ->
    (exists msg, set_loop (prefix ++ rest) (VDict config) value
                 = Raise (TypeError msg))
    /\ get_loop (prefix ++ rest) (VDict config) default = Ok default.
Proof.
  induction prefix as [|k prefix IH]; intros rest config v value default
    Hp Hrest Hlook Hv; [done|].
  simpl in Hlook. destruct (Dict.get k config) as [v1|] eqn:E; [|done].
  rewrite <- app_comm_cons, (get_loop_descend k _ config v1) by done.
  destruct prefix as [|k2 prefix].
  - simpl in Hlook. injection Hlook as ->. split.
    + destruct (set_loop_non_dict rest v value Hv Hrest) as [msg Hmsg].
      exists msg. destruct rest as [|k' rest]; [done|].
      simpl app. rewrite (set_loop_descend k k' rest config v) by done.
      by rewrite Hmsg.
    + by apply get_loop_non_dict.
  - destruct v1 as [| | | | |d1]; try done.
    destruct (IH rest d1 v value default ltac:(done) Hrest Hlook Hv)
      as [[msg Hmsg] Hget].
    split; [|exact Hget].
    exists msg. rewrite <- app_comm_cons.
    rewrite (set_loop_descend k k2 _ config (VDict d1)) by done.
    rewrite <- app_comm_cons in Hmsg. by rewrite Hmsg.
Qed.

End config_facts.

(** C7. [update] is a recursive deep merge.  After [update(updates)], a key
    the update does not mention keeps its value; a key whose update value
    and existing value are both dictionaries holds their merge, computed by
    the same procedure; under any other key of the update the update value
    stands as it is.  On [{"a": {"x": 1, "y": 2}}] the update
    [{"a": {"x": 9}}] gives [{"a": {"x": 9, "y": 2}}]. *)
Theorem update_deep_merge (self : Config.PluginConfig) (updates : Py.dict)
    (key : string) :
  NoDup (Dict.keys updates) ->
  Dict.get key (Config.config_data (Config.update self updates))
  = match Dict.get key updates with
    | None => Dict.get key (Config.config_data self)
    | Some (Py.VDict source') =>
        match Dict.get key (Config.config_data self) with
        | Some (Py.VDict target') =>
            Some (Py.VDict (Config._deep_update target' source'))
        | _ => Some (Py.VDict source')
        end
    | Some value => Some value
    end
  /\ Config.config_data (Config.update Examples.nested_config
                           Examples.nested_update)
     = [("a", Py.VDict [("x", Py.VInt 9); ("y", Py.VInt 2)])].
Proof.
  intros Hnd. split; [|reflexivity].
  unfold Config.update. simpl. rewrite deep_update_lookup by done.
  destruct (Dict.get key updates) as [value|]; [|done].
  rewrite merged_unfold.
  destruct value; try done.
  by destruct (Dict.get key (Config.config_data self)) as [[]|].
Qed.

(** Witness of C7 on the sample of the specification. *)
Lemma update_deep_merge_witness :
  NoDup (Dict.keys Examples.nested_update)
  /\ Dict.get "a" (Config.config_data
                     (Config.update Examples.nested_config
                        Examples.nested_update))
     = Some (Py.VDict [("x", Py.VInt 9); ("y", Py.VInt 2)]).
Proof.
  assert (H : NoDup (Dict.keys Examples.nested_update))
    by (apply NoDup_singleton).
  split; [exact H|].
  exact (proj1 (update_deep_merge Examples.nested_config
                  Examples.nested_update "a" H)).
Defined.

(** C10. [set] is partial where [get] is total.  When a strict, non-empty
    prefix of the dotted key leads to a value that is not a dictionary,
    [set] raises a [TypeError] instead of replacing that value, while [get]
    returns the default; [get] returns for every key; [set("a", 1)] followed
    by [set("a.b", 2)] fails, and on absent segments [set] creates the
    intermediate dictionaries. *)
Theorem set_blocked_get_default (self : Config.PluginConfig) (key : string)
    (value default : Py.value) (prefix rest : list string) (v : Py.value) :
  Text.split_on "."%char key = prefix ++ rest ->
  prefix <> [] -> rest <> [] ->
  Spec.lookup_path prefix (Py.VDict (Config.config_data self)) = Some v ->
  Py.is_dict v = false ->
  (exists msg, Config.set self key value = Raise (TypeError msg))
  /\ Config.get self key default = Ok default
  /\ (forall key' default', exists v', Config.get self key' default' = Ok v')
  /\ (c ← Config.set Examples.empty_config "a" (Py.VInt 1);
      Config.set c "a.b" (Py.VInt 2))
     = Raise (TypeError "'int' object does not support item assignment")
  /\ (c ← Config.set Examples.empty_config "a.b.c" (Py.VInt 1);
      Ok (Config.config_data c))
     = Ok [("a", Py.VDict [("b", Py.VDict [("c", Py.VInt 1)])])].
Proof.
  intros Hsplit Hp Hrest Hlook Hv.
  destruct (blocked_path prefix rest (Config.config_data self) v value default
              Hp Hrest Hlook Hv) as [[msg Hset] Hget].
  split_and!; [| | |by vm_compute..].
  - exists msg. unfold Config.set. by rewrite Hsplit, Hset.
  - unfold Config.get. by rewrite Hsplit.
  - intros key' default'. apply get_loop_total.
Qed.

(** Witness of C10: the configuration [{"a": 1}] and the key ["a.b"]. *)
Lemma set_blocked_get_default_witness :
  Text.split_on "."%char "a.b" = ["a"] ++ ["b"]
  /\ Spec.lookup_path ["a"] (Py.VDict (Config.config_data Examples.scalar_config))
     = Some (Py.VInt 1)
  /\ Py.is_dict (Py.VInt 1) = false
  /\ (exists msg,
        Config.set Examples.scalar_config "a.b" (Py.VInt 2)
        = Raise (TypeError msg))
  /\ Config.get Examples.scalar_config "a.b" (Py.VInt 42) = Ok (Py.VInt 42).
Proof.
  split; [reflexivity|]. split; [reflexivity|]. split; [reflexivity|].
  pose proof (set_blocked_get_default Examples.scalar_config "a.b"
                (Py.VInt 2) (Py.VInt 42) ["a"] ["b"] (Py.VInt 1)
                eq_refl ltac:(discriminate) ltac:(discriminate)
                eq_refl eq_refl) as (Hset & Hget & _).
  split; [exact Hset|exact Hget].
Defined.

(** ** manifest.py *)

Section manifest_facts.
Import Py Manifest Spec.

Lemma appends_none (self : ManifestValidator) :
  Ok self = Ok {| errors := errors self ++ [] |}.
Proof. destruct self. simpl. by rewrite app_nil_r. Qed.

Lemma appends_errors_of check errs :
  appends check errs -> errors_of check = errs.
Proof. intros H. unfold errors_of. by rewrite H. Qed.

Lemma appends_bind check1 errs1 check2 errs2 :
  appends check1 errs1 -> appends check2 errs2 ->
  appends (fun self => self' ← check1 self; check2 self') (errs1 ++ errs2).
Proof.
  intros H1 H2 self. rewrite H1. simpl. rewrite H2. simpl.
  by rewrite app_assoc.
Qed.

Lemma appends_for_each {A}
    (body : A -> ManifestValidator -> outcome ManifestValidator)
    (xs : list A) :
  (forall x, exists errs, appends (body x) errs) ->
  exists errs, appends (for_each body xs) errs.
Proof.
  intros Hbody. induction xs as [|x xs [errs2 IH]]; simpl.
  - exists []. intros self. apply appends_none.
  - destruct (Hbody x) as [errs1 H1]. exists (errs1 ++ errs2).
    by apply appends_bind.
Qed.

Ltac text_check v :=
  let Hv := fresh "Hv" in
  let Ht := fresh "Ht" in
  intros Hv; unfold text_or_falsy in Hv;
  destruct (truthy v) eqn:Ht; simpl;
  [ destruct v; simpl in Hv, Ht; rewrite ?Ht in Hv; try done; simpl;
    match goal with |- context [negb ?b] => destruct b end; simpl;
    [ exists []; intros self; apply appends_none | by eexists ]
  | exists []; intros self; apply appends_none ].

Lemma appends_name v :
  text_or_falsy v = true -> exists errs, appends (_validate_name v) errs.
Proof. unfold _validate_name. text_check v. Qed.

Lemma appends_version v :
  text_or_falsy v = true -> exists errs, appends (_validate_version v) errs.
Proof. unfold _validate_version. text_check v. Qed.

Lemma appends_entry_point v :
  text_or_falsy v = true ->
  exists errs, appends (_validate_entry_point v) errs.
Proof. unfold _validate_entry_point. text_check v. Qed.

Lemma appends_requires_version v :
  text_or_falsy v = true ->
  exists errs, appends (_validate_requires_version v) errs.
Proof. unfold _validate_requires_version. text_check v. Qed.

Lemma appends_type v : exists errs, appends (_validate_type v) errs.
Proof.
  unfold _validate_type. destruct (negb (truthy v)).
  - exists []. intros self. apply appends_none.
  - destruct (negb (existsb _ VALID_TYPES)).
    + by eexists.
    + exists []. intros self. apply appends_none.
Qed.

Lemma appends_dependencies v :
  exists errs, appends (Manifest._validate_dependencies v) errs.
Proof.
  unfold Manifest._validate_dependencies. destruct v; try by eexists.
  apply appends_for_each. intros dep. destruct (negb (is_str dep)).
  - by eexists.
  - exists []. intros self. apply appends_none.
Qed.

Lemma appends_required_fields (manifest : dict) :
  appends (_validate_required_fields manifest)
    (missing_field_message
       <$> filter (fun field => Dict.mem field manifest = false)
                  REQUIRED_FIELDS).
Proof.
  unfold _validate_required_fields, appends.
  induction REQUIRED_FIELDS as [|field fields IH]; intros self; simpl.
  - apply appends_none.
  - rewrite filter_cons. case_decide as E.
    + rewrite E. simpl. rewrite IH. simpl. by rewrite <- app_assoc.
    + apply not_false_is_true in E. rewrite E. apply IH.
Qed.

Lemma missing_field_listed (manifest : dict) (field : string) :
  field ∈ REQUIRED_FIELDS -> Dict.mem field manifest = false ->
  missing_field_message field
  ∈ missing_field_message
      <$> filter (fun field => Dict.mem field manifest = false)
                 REQUIRED_FIELDS.
Proof.
  intros Hf Hm. apply list_elem_of_fmap. exists field. split; [done|].
  by apply list_elem_of_filter.
Qed.

Lemma manifest_get_shaped (manifest : dict) (key : string) (default : value) :
  well_shaped manifest = true -> key ∈ checked_as_text ->
  text_or_falsy default = true ->
  text_or_falsy (manifest_get manifest key default) = true.
Proof.
  unfold well_shaped, manifest_get. rewrite forallb_forall.
  intros Hw Hk Hd. specialize (Hw key ltac:(by apply list_elem_of_In)).
  by destruct (Dict.get key manifest).
Qed.

Lemma field_in_message (field : string) :
  field ∈ REQUIRED_FIELDS ->
  Text.is_substring field (missing_field_message field) = true.
Proof.
  unfold REQUIRED_FIELDS. rewrite !elem_of_cons.
  intros [->|[->|[->|[->|H]]]]; [by vm_compute..|].
  by apply elem_of_nil in H.
Qed.

Lemma checked_name : "name" ∈ checked_as_text.
Proof. apply list_elem_of_In. simpl. tauto. Qed.
Lemma checked_version : "version" ∈ checked_as_text.
Proof. apply list_elem_of_In. simpl. tauto. Qed.
Lemma checked_entry_point : "entry_point" ∈ checked_as_text.
Proof. apply list_elem_of_In. simpl. tauto. Qed.
Lemma checked_requires_version : "requires_version" ∈ checked_as_text.
Proof. apply list_elem_of_In. simpl. tauto. Qed.

Ltac text_raise v :=
  let Hv := fresh "Hv" in
  intros Hv self; unfold text_or_falsy in Hv;
  apply orb_false_iff in Hv as [Hs Ht];
  apply negb_false_iff in Ht; rewrite Ht; simpl;
  by destruct v.

Lemma raises_name v :
  text_or_falsy v = false ->
  forall self, _validate_name v self = Raise (TypeError (not_text_message v)).
Proof. unfold _validate_name. text_raise v. Qed.

Lemma raises_version v :
  text_or_falsy v = false ->
  forall self,
    _validate_version v self = Raise (TypeError (not_text_message v)).
Proof. unfold _validate_version. text_raise v. Qed.

Lemma raises_entry_point v :
  text_or_falsy v = false ->
  forall self,
    _validate_entry_point v self = Raise (TypeError (not_text_message v)).
Proof. unfold _validate_entry_point. text_raise v. Qed.

Lemma raises_requires_version v :
  text_or_falsy v = false ->
  forall self,
    _validate_requires_version v self
    = Raise (TypeError (not_text_message v)).
Proof. unfold _validate_requires_version. text_raise v. Qed.

(** A manifest in which a field handed to [re.match] holds a truthy value
    that is not text makes [validate] raise. *)
Lemma validate_ill_shaped (manifest : dict) (self : ManifestValidator) :
  well_shaped manifest = false ->
  exists msg, validate manifest self = Raise (TypeError msg).
Proof.
  intros Hw. unfold validate.
  rewrite (appends_required_fields manifest). simpl.
  destruct (text_or_falsy (manifest_get manifest "name" VNone)) eqn:E1;
    [|rewrite raises_name by done; by eexists].
  destruct (appends_name _ E1) as [e2 ->]. simpl.
  destruct (text_or_falsy (manifest_get manifest "version" VNone)) eqn:E2;
    [|rewrite raises_version by done; by eexists].
  destruct (appends_version _ E2) as [e3 ->]. simpl.
  destruct (appends_type (manifest_get manifest "type" VNone)) as [e4 ->].
  simpl.
  destruct (text_or_falsy (manifest_get manifest "entry_point" VNone)) eqn:E3;
    [|rewrite raises_entry_point by done; by eexists].
  destruct (appends_entry_point _ E3) as [e5 ->]. simpl.
  destruct (appends_dependencies
              (manifest_get manifest "dependencies" (VList []))) as [e6 ->].
  simpl.
  destruct (text_or_falsy
              (manifest_get manifest "requires_version" (VStr "0.0.0")))
    eqn:E4; [|rewrite raises_requires_version by done; by eexists].
  exfalso. clear e2 e3 e4 e5 e6.
  unfold well_shaped, checked_as_text, manifest_get in *. simpl in Hw.
  destruct (Dict.get "name" manifest); destruct (Dict.get "version" manifest);
    destruct (Dict.get "entry_point" manifest);
    destruct (Dict.get "requires_version" manifest);
    rewrite ?E1, ?E2, ?E3, ?E4 in Hw; done.
Qed.

End manifest_facts.

(** C8, as stated, fails on a manifest that lacks required fields and whose
    name is the number 5: [validate] raises [TypeError] instead of returning
    [False]. *)
Lemma validate_raises_on_numeric_name :
  Dict.mem "version" Examples.numeric_name_manifest = false
  /\ Manifest.validate Examples.numeric_name_manifest (Manifest.mkValidator [])
     = Raise (TypeError "expected string or bytes-like object, got 'int'")
  /\ ~ (exists after,
          Manifest.validate Examples.numeric_name_manifest
            (Manifest.mkValidator []) = Ok (false, after)).
Proof.
  split; [reflexivity|]. split; [reflexivity|].
  intros [after H]. vm_compute in H. discriminate H.
Qed.

(** C8, amended.  For every manifest that lacks a required field and whose
    name, version, entry_point and requires_version, where present, are text
    or falsy: [validate] returns [False]; for each missing field the message
    "Missing required field: <field>", which contains the field's name, is
    among [get_errors()]; and [get_errors()] is the concatenation of what
    each of the seven checks reports, none being skipped. *)
Theorem validate_missing_fields (manifest : Py.dict)
    (self : Manifest.ManifestValidator) :
  Spec.well_shaped manifest = true ->
  (exists field,
     field ∈ Manifest.REQUIRED_FIELDS /\ Dict.mem field manifest = false) ->
  exists after,
    Manifest.validate manifest self = Ok (false, after)
    /\ (forall field,
          field ∈ Manifest.REQUIRED_FIELDS -> Dict.mem field manifest = false ->
          Spec.missing_field_message field ∈ Manifest.get_errors after
          /\ Text.is_substring field (Spec.missing_field_message field) = true)
    /\ Manifest.get_errors after
       = Spec.errors_of (Manifest._validate_required_fields manifest)
         ++ Spec.errors_of
              (Manifest._validate_name
                 (Manifest.manifest_get manifest "name" Py.VNone))
         ++ Spec.errors_of
              (Manifest._validate_version
                 (Manifest.manifest_get manifest "version" Py.VNone))
         ++ Spec.errors_of
              (Manifest._validate_type
                 (Manifest.manifest_get manifest "type" Py.VNone))
         ++ Spec.errors_of
              (Manifest._validate_entry_point
                 (Manifest.manifest_get manifest "entry_point" Py.VNone))
         ++ Spec.errors_of
              (Manifest._validate_dependencies
                 (Manifest.manifest_get manifest "dependencies" (Py.VList [])))
         ++ Spec.errors_of
              (Manifest._validate_requires_version
                 (Manifest.manifest_get manifest "requires_version"
                    (Py.VStr "0.0.0"))).
Proof.
  intros Hw (field & Hfield & Hmissing).
  pose proof (appends_required_fields manifest) as H1.
  pose proof (missing_field_listed manifest) as Hreq.
  set (e1 := Spec.missing_field_message <$> _) in H1, Hreq.
  destruct (appends_name (Manifest.manifest_get manifest "name" Py.VNone))
    as [e2 H2].
  { apply manifest_get_shaped; [done|apply checked_name|done]. }
  destruct (appends_version
              (Manifest.manifest_get manifest "version" Py.VNone)) as [e3 H3].
  { apply manifest_get_shaped; [done|apply checked_version|done]. }
  destruct (appends_type (Manifest.manifest_get manifest "type" Py.VNone))
    as [e4 H4].
  destruct (appends_entry_point
              (Manifest.manifest_get manifest "entry_point" Py.VNone))
    as [e5 H5].
  { apply manifest_get_shaped; [done|apply checked_entry_point|done]. }
  destruct (appends_dependencies
              (Manifest.manifest_get manifest "dependencies" (Py.VList [])))
    as [e6 H6].
  destruct (appends_requires_version
              (Manifest.manifest_get manifest "requires_version"
                 (Py.VStr "0.0.0"))) as [e7 H7].
  { apply manifest_get_shaped; [done|apply checked_requires_version|done]. }
  rewrite (appends_errors_of _ _ H1), (appends_errors_of _ _ H2),
    (appends_errors_of _ _ H3), (appends_errors_of _ _ H4),
    (appends_errors_of _ _ H5), (appends_errors_of _ _ H6),
    (appends_errors_of _ _ H7).
  unfold Manifest.validate. rewrite H1. simpl. rewrite H2. simpl.
  rewrite H3. simpl. rewrite H4. simpl. rewrite H5. simpl.
  rewrite H6. simpl. rewrite H7. simpl.
  pose proof (Hreq field Hfield Hmissing) as Hin.
  destruct e1 as [|m e1]; [by apply elem_of_nil in Hin|].
  eexists. split; [reflexivity|]. simpl. split.
  - intros f Hf Hm. split; [|by apply field_in_message].
    pose proof (Hreq f Hf Hm) as Hf'.
    rewrite <- !app_assoc. rewrite app_comm_cons. apply elem_of_app. by left.
  - by rewrite <- !app_assoc.
Qed.

(** Witness of C8 (amended) on a manifest that has a name and nothing
    else. *)
Lemma validate_missing_fields_witness :
  Spec.well_shaped Examples.name_only_manifest = true
  /\ ("version" ∈ Manifest.REQUIRED_FIELDS
      /\ Dict.mem "version" Examples.name_only_manifest = false)
  /\ exists after,
       Manifest.validate Examples.name_only_manifest (Manifest.mkValidator [])
       = Ok (false, after)
       /\ Manifest.get_errors after
          = ["Missing required field: version";
             "Missing required field: type";
             "Missing required field: entry_point"].
Proof.
  assert (H1 : Spec.well_shaped Examples.name_only_manifest = true)
    by reflexivity.
  assert (H2 : "version" ∈ Manifest.REQUIRED_FIELDS
               /\ Dict.mem "version" Examples.name_only_manifest = false).
  { split; [|reflexivity]. right. left. }
  split; [exact H1|]. split; [exact H2|].
  destruct (validate_missing_fields Examples.name_only_manifest
              (Manifest.mkValidator []) H1
              (ex_intro _ "version" H2)) as (after & Hv & _ & Herr).
  exists after. split; [exact Hv|]. rewrite Herr. reflexivity.
Defined.

(** ** loader.py *)

Section loader_facts.
Import Py Base Version Loader.

Lemma load_plugin_class_raises (env : Env) (self : PluginLoader)
    (entry_point : value) (plugin_dir : string) (e : exn) :
  (_load_plugin_class env self entry_point plugin_dir).2 = Raise e ->
  exists msg, e = PluginLoadError msg.
Proof.
  unfold _load_plugin_class.
  destruct (load_plugin_class_body env self entry_point plugin_dir)
    as [self' [cls|e'|]]; simpl; [done| |done].
  destruct e'; intros [= <-]; by eexists.
Qed.

Lemma load_plugin_class_checked (env : Env) (self : PluginLoader)
    (entry_point : value) (plugin_dir : string) (cls : PluginClass) :
  (_load_plugin_class env self entry_point plugin_dir).2 = Ok cls ->
  inherits_PluginInterface cls = true.
Proof.
  unfold _load_plugin_class, load_plugin_class_body.
  destruct entry_point as [| | |ep| |]; simpl; try done.
  destruct (Text.rsplit1 "."%char ep) as [[module_path class_name]|];
    simpl; [|done].
  destruct (load_module env self _ module_path plugin_dir)
    as [self' [module|e|]]; simpl; [|by destruct e|done].
  destruct (Dict.get class_name module) as [[plugin_class|]|]; simpl;
    [|done..].
  destruct (inherits_PluginInterface plugin_class) eqn:E; simpl; [|done].
  by intros [= <-].
Qed.

End loader_facts.

(** C3. With the default host version 1.0.0 and the default required
    version 0.0.0, [check_plugin_compatibility] returns [(False, message)]:
    the major components 1 and 0 differ.  Hence [load_plugin] raises
    [PluginLoadError], creating no instance, for every plugin whose manifest
    does not declare [requires_version]. *)
Theorem default_requires_version_rejected (env : Loader.Env)
    (self : Loader.PluginLoader) (plugin_info : Loader.PluginInfo)
    (config : Py.dict) (name : Py.value) :
  Version.VersionChecker_new Version.default_system_version
  = Ok (Loader.version_checker self) ->
  Dict.get "name" (Loader.info_manifest plugin_info) = Some name ->
  Dict.get "requires_version" (Loader.info_manifest plugin_info) = None ->
  (forall plugin_name,
     Version.check_plugin_compatibility (Loader.version_checker self)
       plugin_name "0.0.0"
     = Ok (false, Spec.default_rejection plugin_name))
  /\ Version.major (Version.system_version (Loader.version_checker self)) = 1%N
  /\ (required ← Version.SemanticVersion_new "0.0.0";
      Ok (Version.major required)) = Ok 0%N
  /\ Loader.returned (Loader.load_plugin env self plugin_info config)
     = Raise (PluginLoadError (Spec.default_rejection (Py.str name)))
  /\ Loader.created (Loader.load_plugin env self plugin_info config) = None.
Proof.
  rewrite default_checker_new. intros [= Hvc] Hname Hreq.
  rewrite <- Hvc. split_and!; [apply default_check|done|done|..];
    unfold Loader.load_plugin, Py.getitem, Manifest.manifest_get,
      Loader.check_manifest_compatibility;
    rewrite Hname, Hreq, <- Hvc, default_check; reflexivity.
Qed.

(** Witness of C3: plugin [a] without [requires_version] under the default
    loader. *)
Lemma default_requires_version_rejected_witness :
  Version.VersionChecker_new Version.default_system_version
  = Ok (Loader.version_checker Examples.default_loader)
  /\ Dict.get "name" (Loader.info_manifest (Examples.plugin_a_info None))
     = Some (Py.VStr "a")
  /\ Dict.get "requires_version"
       (Loader.info_manifest (Examples.plugin_a_info None)) = None
  /\ Loader.returned
       (Loader.load_plugin (Examples.two_plugins Examples.sound_class)
          Examples.default_loader (Examples.plugin_a_info None) [])
     = Raise (PluginLoadError
                "Plugin a requires version 0.0.0 or higher (current version: 1.0.0)").
Proof.
  assert (H1 : Version.VersionChecker_new Version.default_system_version
               = Ok (Loader.version_checker Examples.default_loader))
    by (vm_compute; reflexivity).
  split; [exact H1|]. split; [reflexivity|]. split; [reflexivity|].
  exact (proj1 (proj2 (proj2 (proj2
           (default_requires_version_rejected
              (Examples.two_plugins Examples.sound_class)
              Examples.default_loader (Examples.plugin_a_info None) []
              (Py.VStr "a") H1 eq_refl eq_refl))))).
Defined.

(** C1, as stated, fails when [initialize] returns [False]: the version
    check passes and [load_plugin] raises [PluginLoadError], but the
    instance it created is left with status [LOADING], not [FAILED]. *)
Lemma load_failure_status_not_failed :
  let res := Loader.load_plugin (Examples.two_plugins Examples.refusing_class)
               Examples.default_loader (Examples.plugin_a_info (Some "1.0.0"))
               [] in
  Loader.check_manifest_compatibility
    (Loader.version_checker Examples.default_loader)
    (Py.VStr "a") (Py.VStr "1.0.0")
  = Ok (true, "Plugin a is compatible (requires 1.0.0, have 1.0.0)")
  /\ Base.on_initialize (Examples.refusing_class "plugin_a_main") []
     = Base.Returns false
  /\ Loader.returned res
     = Raise (PluginLoadError
                "Failed to load plugin a: Plugin a initialization failed")
  /\ (Base.status <$> Loader.created res) = Some Base.LOADING
  /\ ~ (forall inst,
          Loader.created res = Some inst -> Base.status inst = Base.FAILED).
Proof.
  split_and!; [by vm_compute..|].
  intros H. specialize (H _ eq_refl). by vm_compute in H.
Qed.

(** C1, amended.  When [load_plugin] fails after the version check has
    passed, on a manifest that has an entry point, it raises a
    [PluginLoadError] and leaves no instance [LOADED]: if the class could
    not be resolved or does not implement the interface, or if
    instantiation raised, no instance exists; otherwise ([initialize] or
    [validate] returned false or raised) the instance exists and keeps the
    status [LOADING].  [FAILED] is never assigned. *)
Theorem load_failure_leaves_loading (env : Loader.Env)
    (self : Loader.PluginLoader) (plugin_info : Loader.PluginInfo)
    (config : Py.dict) (name entry_point : Py.value) (message : string)
    (e : exn) :
  Dict.get "name" (Loader.info_manifest plugin_info) = Some name ->
  Loader.check_manifest_compatibility (Loader.version_checker self) name
    (Manifest.manifest_get (Loader.info_manifest plugin_info)
       "requires_version" (Py.VStr "0.0.0")) = Ok (true, message) ->
  Dict.get "entry_point" (Loader.info_manifest plugin_info)
  = Some entry_point ->
  Loader.returned (Loader.load_plugin env self plugin_info config) = Raise e ->
  (exists msg, e = PluginLoadError msg)
  /\ (forall inst,
        Loader.created (Loader.load_plugin env self plugin_info config)
        = Some inst ->
        Base.status inst = Base.LOADING)
  /\ match (Loader._load_plugin_class env self entry_point
              (Loader.info_directory plugin_info)).2 with
     | Ok plugin_class =>
         match Base.on_construct plugin_class
                 (Loader.info_manifest plugin_info) with
         | Some _ =>
             Loader.created (Loader.load_plugin env self plugin_info config)
             = None
         | None =>
             exists inst,
               Loader.created (Loader.load_plugin env self plugin_info config)
               = Some inst
         end
     | _ =>
         Loader.created (Loader.load_plugin env self plugin_info config)
         = None
     end.
Proof.
  intros Hname Hcheck Hentry. unfold Loader.load_plugin, Py.getitem.
  rewrite Hname, Hcheck, Hentry. simpl.
  pose proof (load_plugin_class_raises env self entry_point
                (Loader.info_directory plugin_info)) as Hcls.
  destruct (Loader._load_plugin_class env self entry_point
              (Loader.info_directory plugin_info))
    as [self' [plugin_class|e'|]]; simpl in *; [|intros [= <-]|done].
  2: { split; [by apply Hcls|]. split; [by intros inst [=]|done]. }
  unfold Loader.instantiate.
  destruct (Base.on_construct plugin_class (Loader.info_manifest plugin_info))
    as [ce|].
  { simpl. intros [= <-]. split; [by eexists|].
    split; [by intros inst [=]|done]. }
  destruct (Base.on_initialize plugin_class config) as [[]|ie].
  - destruct (Base.on_validate plugin_class) as [[]|ve]; simpl; [done|..];
      intros [= <-]; (split; [by eexists|]);
      (split; [by intros inst [= <-] | by eexists]).
  - simpl. intros [= <-]. split; [by eexists|].
    split; [by intros inst [= <-] | by eexists].
  - simpl. intros [= <-]. split; [by eexists|].
    split; [by intros inst [= <-] | by eexists].
Qed.

(** Witness of C1 (amended): plugin [a] whose [initialize] returns
    [False]. *)
Lemma load_failure_leaves_loading_witness :
  let res := Loader.load_plugin (Examples.two_plugins Examples.refusing_class)
               Examples.default_loader (Examples.plugin_a_info (Some "1.0.0"))
               [] in
  Loader.returned res
  = Raise (PluginLoadError
             "Failed to load plugin a: Plugin a initialization failed")
  /\ (exists msg,
        PluginLoadError
          "Failed to load plugin a: Plugin a initialization failed"
        = PluginLoadError msg)
  /\ (forall inst,
        Loader.created res = Some inst -> Base.status inst = Base.LOADING).
Proof.
  intros res.
  assert (H : Loader.returned res
              = Raise (PluginLoadError
                  "Failed to load plugin a: Plugin a initialization failed"))
    by (vm_compute; reflexivity).
  split; [exact H|].
  pose proof (load_failure_leaves_loading
                (Examples.two_plugins Examples.refusing_class)
                Examples.default_loader (Examples.plugin_a_info (Some "1.0.0"))
                [] (Py.VStr "a") (Py.VStr "main.Plugin")
                "Plugin a is compatible (requires 1.0.0, have 1.0.0)"
                _ eq_refl eq_refl eq_refl H) as (Hmsg & Hstatus & _).
  split; [exact Hmsg|exact Hstatus].
Defined.

(** The success path, for comparison: a returned instance is [LOADED]. *)
Lemma load_success_loaded (env : Loader.Env) (self : Loader.PluginLoader)
    (plugin_info : Loader.PluginInfo) (config : Py.dict)
    (inst : Base.PluginInstance) :
  Loader.returned (Loader.load_plugin env self plugin_info config) = Ok inst ->
  Base.status inst = Base.LOADED
  /\ Loader.created (Loader.load_plugin env self plugin_info config)
     = Some inst.
Proof.
  unfold Loader.load_plugin, Py.getitem.
  destruct (Dict.get "name" (Loader.info_manifest plugin_info)) as [name|];
    simpl; [|done].
  destruct (Loader.check_manifest_compatibility _ _ _) as [[[] message]|e|];
    simpl; [|done..].
  destruct (Dict.get "entry_point" (Loader.info_manifest plugin_info))
    as [entry_point|]; simpl; [|done].
  destruct (Loader._load_plugin_class _ _ _ _) as [self' [cls|e|]]; simpl;
    [|done..].
  unfold Loader.instantiate.
  destruct (Base.on_construct cls _); simpl; [done|].
  destruct (Base.on_initialize cls config) as [[]|]; simpl; [|done..].
  destruct (Base.on_validate cls) as [[]|]; simpl; [|done..].
  by intros [= <-].
Qed.

(** ** loader.py: PluginManager *)

(** [unload_plugin] never touches the dependency graph. *)
Lemma unload_keeps_resolver (plugin_name : string)
    (self : Manager.PluginManager) :
  Manager.dependency_resolver
    (Manager.manager_after (Manager.unload_plugin plugin_name self))
  = Manager.dependency_resolver self.
Proof.
  unfold Manager.unload_plugin.
  destruct (Dict.get plugin_name (Manager.loaded_plugins self)); [|done].
  destruct (negb _); [done|].
  by destruct (Base.cleanup _).
Qed.

(** C2 on the failing input: [a] and [b] loaded by [load_all_plugins], [b]
    depending on [a].  Unloading [a] fails naming [b]; unloading [b]
    succeeds, [cleanup()] is called once and the instance is [UNLOADED];
    but [b] is still in the dependency graph, so unloading [a] afterwards
    fails again.  After the lazy [load_plugin("b")] the graph is empty
    instead, and [a] is unloaded while [b], which depends on it, stays
    loaded. *)
Theorem unload_dependency_after_dependent_still_fails :
  let m := Examples.both_loaded in
  (Manager.loaded_plugins m).*1 = ["a"; "b"]
  /\ Manager.ended (Manager.unload_plugin "a" m)
     = Raise (PluginLoadError "Cannot unload a: required by b")
  /\ Manager.ended (Manager.unload_plugin "b" m) = Ok ()
  /\ (Base.status <$> Manager.unloaded (Manager.unload_plugin "b" m))
     = Some Base.UNLOADED
  /\ (Base.cleanup_calls <$> Manager.unloaded (Manager.unload_plugin "b" m))
     = Some 1
  /\ (Manager.loaded_plugins
        (Manager.manager_after (Manager.unload_plugin "b" m))).*1 = ["a"]
  /\ Dependencies.get_dependents
       (Manager.dependency_resolver
          (Manager.manager_after (Manager.unload_plugin "b" m))) "a" = ["b"]
  /\ Manager.ended
       (Manager.unload_plugin "a"
          (Manager.manager_after (Manager.unload_plugin "b" m)))
     = Raise (PluginLoadError "Cannot unload a: required by b")
  /\ (Manager.loaded_plugins Examples.lazily_loaded).*1 = ["a"; "b"]
  /\ Manager.ended (Manager.unload_plugin "a" Examples.lazily_loaded) = Ok ()
  /\ (Manager.loaded_plugins
        (Manager.manager_after
           (Manager.unload_plugin "a" Examples.lazily_loaded))).*1 = ["b"].
Proof. by vm_compute. Qed.



(** * Further properties *)

(** ** version.py: the order of versions *)

Section version_order.
Import Version.

Lemma str_compare_refl (s : string) : String.compare s s = Eq.
Proof.
  pose proof (String.compare_antisym s s) as H.
  by destruct (String.compare s s).
Qed.

Lemma ascii_compare_lt_trans (a b c : ascii) :
  Ascii.compare a b = Lt -> Ascii.compare b c = Lt -> Ascii.compare a c = Lt.
Proof.
  unfold Ascii.compare. rewrite !N.compare_lt_iff. lia.
Qed.

Lemma str_compare_lt_trans (a : string) :
  forall b c, String.compare a b = Lt -> String.compare b c = Lt ->
    String.compare a c = Lt.
Proof.
  induction a as [|x a IH]; intros [|y b] [|z c]; simpl; try done.
  destruct (Ascii.compare x y) eqn:Exy; try done;
    destruct (Ascii.compare y z) eqn:Eyz; try done.
  - apply Ascii.compare_eq_iff in Exy as ->.
    apply Ascii.compare_eq_iff in Eyz as ->.
    assert (Ascii.compare z z = Eq) as ->
      by (unfold Ascii.compare; apply N.compare_refl).
    apply IH.
  - apply Ascii.compare_eq_iff in Exy as ->. by rewrite Eyz.
  - apply Ascii.compare_eq_iff in Eyz as <-. by rewrite Exy.
  - by rewrite (ascii_compare_lt_trans x y z).
Qed.

Lemma ltb_trans (a b c : string) :
  String.ltb a b = true -> String.ltb b c = true -> String.ltb a c = true.
Proof.
  unfold String.ltb. intros Hab Hbc.
  destruct (String.compare a b) eqn:E1; try done.
  destruct (String.compare b c) eqn:E2; try done.
  by rewrite (str_compare_lt_trans a b c).
Qed.

Lemma ltb_total (a b : string) :
  String.ltb a b = false -> String.ltb b a = false -> a = b.
Proof.
  unfold String.ltb. rewrite (String.compare_antisym b a).
  destruct (String.compare a b) eqn:E; simpl; try done.
  intros _ _. by apply String.compare_eq_iff.
Qed.

Lemma ltb_asym (a b : string) :
  String.ltb a b = true -> String.ltb b a = false.
Proof.
  unfold String.ltb. rewrite (String.compare_antisym b a).
  by destruct (String.compare a b).
Qed.

Lemma is_empty_eq (s : string) : Text.is_empty s = true <-> s = EmptyString.
Proof. by destruct s. Qed.

Lemma lt_cases (a b : SemanticVersion) :
  lt a b = true <->
  (major a < major b)%N
  \/ (major a = major b /\ (minor a < minor b)%N)
  \/ (major a = major b /\ minor a = minor b /\ (patch a < patch b)%N)
  \/ (major a = major b /\ minor a = minor b /\ patch a = patch b
      /\ prerelease a <> EmptyString
      /\ (prerelease b = EmptyString
          \/ String.ltb (prerelease a) (prerelease b) = true)).
Proof.
  unfold lt.
  destruct (N.eqb_spec (major a) (major b)) as [E1|E1]; simpl;
    [|rewrite N.ltb_lt; lia].
  destruct (N.eqb_spec (minor a) (minor b)) as [E2|E2]; simpl;
    [|rewrite N.ltb_lt; lia].
  destruct (N.eqb_spec (patch a) (patch b)) as [E3|E3]; simpl;
    [|rewrite N.ltb_lt; lia].
  destruct (prerelease a) as [|x pa], (prerelease b) as [|y pb]; simpl.
  - split; [done|]. intros [?|[?|[?|H]]]; [lia..|]. by destruct H as (_&_&_&?&_).
  - split; [done|]. intros [?|[?|[?|H]]]; [lia..|]. by destruct H as (_&_&_&?&_).
  - split; [|done]. intros _. right. right. right. split_and!; auto.
  - split.
    + intros H. right. right. right. split_and!; auto.
    + intros [?|[?|[?|H]]]; [lia..|].
      destruct H as (_&_&_&_&[H|H]); done.
Qed.

Lemma lt_irrefl (v : SemanticVersion) : lt v v = false.
Proof.
  destruct (lt v v) eqn:E; [|done].
  apply lt_cases in E as [?|[?|[?|H]]]; [lia..|].
  destruct H as (_&_&_&Hne&[H|H]); [done|].
  by rewrite ltb_irrefl in H.
Qed.

Lemma lt_trans (a b c : SemanticVersion) :
  lt a b = true -> lt b c = true -> lt a c = true.
Proof.
  rewrite !lt_cases.
  intros [?|[?|[?|(?&?&?&Ha&Hab)]]] [?|[?|[?|(?&?&?&Hb&Hbc)]]];
    try (left; lia); try (right; left; lia);
    try (right; right; left; lia).
  right. right. right.
  split_and!; [congruence..|done|].
  destruct Hab as [Hab|Hab]; [done|].
  destruct Hbc as [Hbc|Hbc]; [by left|].
  right. by apply (ltb_trans _ (prerelease b)).
Qed.

Lemma str_trichotomy (a b : string) :
  (String.ltb a b = true /\ String.eqb a b = false /\ String.ltb b a = false)
  \/ (String.ltb a b = false /\ String.eqb a b = true
      /\ String.ltb b a = false)
  \/ (String.ltb a b = false /\ String.eqb a b = false
      /\ String.ltb b a = true).
Proof.
  destruct (String.eqb_spec a b) as [->|Hne].
  - right. left. by rewrite ltb_irrefl.
  - destruct (String.ltb a b) eqn:E1.
    + left. split_and!; [done..|]. by apply ltb_asym.
    + right. right. split_and!; [done..|].
      destruct (String.ltb b a) eqn:E2; [done|].
      by destruct (Hne (ltb_total a b E1 E2)).
Qed.

Ltac solve_tri :=
  first [ by (left; split_and!)
        | by (right; left; split_and!)
        | by (right; right; split_and!) ].

Lemma lt_trichotomy (a b : SemanticVersion) :
  (lt a b = true /\ eq a b = false /\ lt b a = false)
  \/ (lt a b = false /\ eq a b = true /\ lt b a = false)
  \/ (lt a b = false /\ eq a b = false /\ lt b a = true).
Proof.
  unfold lt, eq.
  destruct (N.eqb_spec (major a) (major b)) as [E1|E1];
    [rewrite E1, N.eqb_refl
    |destruct (N.eqb_spec (major b) (major a)); [congruence|];
     destruct (N.ltb_spec (major a) (major b)),
              (N.ltb_spec (major b) (major a)); simpl; try lia; solve_tri].
  destruct (N.eqb_spec (minor a) (minor b)) as [E2|E2];
    [rewrite E2, N.eqb_refl
    |destruct (N.eqb_spec (minor b) (minor a)); [congruence|];
     destruct (N.ltb_spec (minor a) (minor b)),
              (N.ltb_spec (minor b) (minor a)); simpl; try lia; solve_tri].
  destruct (N.eqb_spec (patch a) (patch b)) as [E3|E3];
    [rewrite E3, N.eqb_refl
    |destruct (N.eqb_spec (patch b) (patch a)); [congruence|];
     destruct (N.ltb_spec (patch a) (patch b)),
              (N.ltb_spec (patch b) (patch a)); simpl; try lia; solve_tri].
  simpl.
  destruct (prerelease a) as [|x pa] eqn:Ea, (prerelease b) as [|y pb] eqn:Eb;
    try (simpl; solve_tri).
  unfold Text.is_empty. cbn [negb andb]. apply str_trichotomy.
Qed.

(** [v <= r] and [r >= v] agree, and so do [v > r] and [r < v]. *)
Lemma le_ge_swap (v r : SemanticVersion) : le v r = ge r v.
Proof.
  unfold le, ge.
  destruct (lt_trichotomy v r) as [(-> & -> & ->)|[(-> & -> & ->)|(-> & -> & ->)]];
    done.
Qed.

Lemma gt_lt_swap (v r : SemanticVersion) : gt v r = lt r v.
Proof.
  unfold gt, le.
  destruct (lt_trichotomy v r) as [(-> & -> & ->)|[(-> & -> & ->)|(-> & -> & ->)]];
    done.
Qed.

Lemma eq_fields (v r : SemanticVersion) :
  eq v r = true <->
  major v = major r /\ minor v = minor r /\ patch v = patch r
  /\ prerelease v = prerelease r.
Proof.
  unfold eq. rewrite !andb_true_iff, !N.eqb_eq, String.eqb_eq. tauto.
Qed.

Lemma lt_eq_congruence (a a' b : SemanticVersion) :
  eq a a' = true -> lt a b = lt a' b /\ lt b a = lt b a'.
Proof.
  intros (H1 & H2 & H3 & H4)%eq_fields. unfold lt.
  by rewrite H1, H2, H3, H4.
Qed.

Lemma ge_trans (a b c : SemanticVersion) :
  ge a b = true -> ge b c = true -> ge a c = true.
Proof.
  unfold ge. rewrite !negb_true_iff. intros Hab Hbc.
  destruct (lt a c) eqn:Hac; [|done].
  destruct (lt_trichotomy b c) as [(H & _)|[(_ & He & _)|(_ & _ & Hcb)]].
  - congruence.
  - destruct (lt_eq_congruence b c a He) as [_ H]. congruence.
  - pose proof (lt_trans a c b Hac Hcb). congruence.
Qed.

End version_order.

(** X1. The order on versions is a strict total order up to [==]: no
    version is below itself, [<] is transitive, and of [v < r], [v == r],
    [r < v] exactly one holds. *)
Theorem version_lt_strict_total :
  (forall v, Version.lt v v = false)
  /\ (forall a b c,
        Version.lt a b = true -> Version.lt b c = true ->
        Version.lt a c = true)
  /\ (forall a b,
        (Version.lt a b = true /\ Version.eq a b = false
         /\ Version.lt b a = false)
        \/ (Version.lt a b = false /\ Version.eq a b = true
            /\ Version.lt b a = false)
        \/ (Version.lt a b = false /\ Version.eq a b = false
            /\ Version.lt b a = true)).
Proof.
  split; [exact lt_irrefl|]. split; [exact lt_trans|exact lt_trichotomy].
Qed.

(** X2. The derived comparisons agree with one another: [v <= r] is
    [r >= v], [v > r] is [r < v], and two versions are [==] exactly when
    their major, minor, patch and prerelease parts are equal, whatever their
    build metadata. *)
Theorem version_comparisons_consistent (v r : Version.SemanticVersion) :
  Version.le v r = Version.ge r v
  /\ Version.gt v r = Version.lt r v
  /\ (Version.eq v r = true <->
      Version.major v = Version.major r /\ Version.minor v = Version.minor r
      /\ Version.patch v = Version.patch r
      /\ Version.prerelease v = Version.prerelease r).
Proof.
  split; [apply le_ge_swap|]. split; [apply gt_lt_swap|apply eq_fields].
Qed.

(** X3. Compatibility is a preorder: every version is compatible with
    itself, and if [a] is compatible with [b] and [b] with [c] then [a] is
    compatible with [c]. *)
Theorem is_compatible_with_preorder :
  (forall v, Version.is_compatible_with v v = true)
  /\ (forall a b c,
        Version.is_compatible_with a b = true ->
        Version.is_compatible_with b c = true ->
        Version.is_compatible_with a c = true).
Proof.
  split.
  - intros v. unfold Version.is_compatible_with, Version.ge.
    by rewrite N.eqb_refl, lt_irrefl.
  - intros a b c. unfold Version.is_compatible_with.
    destruct (N.eqb_spec (Version.major a) (Version.major b)) as [E1|]; [|done].
    destruct (N.eqb_spec (Version.major b) (Version.major c)) as [E2|]; [|done].
    rewrite E1, E2, N.eqb_refl. simpl. apply ge_trans.
Qed.


(** ** version.py: printing and parsing *)

Section version_text.
Import Version Spec.

Lemma str_app_cons (x : ascii) (a b : string) :
  String x a +:+ b = String x (a +:+ b).
Proof. reflexivity. Qed.

Lemma str_app_nil (b : string) : EmptyString +:+ b = b.
Proof. reflexivity. Qed.

Ltac str_simpl :=
  repeat (progress (rewrite ?str_app_cons, ?str_app_nil; simpl)).

Lemma str_app_assoc (a b c : string) : (a +:+ b) +:+ c = a +:+ (b +:+ c).
Proof. induction a as [|x a IH]; str_simpl; congruence. Qed.

Lemma str_app_empty_r (a : string) : a +:+ EmptyString = a.
Proof. induction a as [|x a IH]; str_simpl; congruence. Qed.

Lemma all_chars_app (p : ascii -> bool) (a b : string) :
  Text.all_chars p (a +:+ b) = Text.all_chars p a && Text.all_chars p b.
Proof.
  induction a as [|x a IH]; str_simpl; [done|]. rewrite IH. by destruct (p x).
Qed.

Lemma all_chars_weaken (p q : ascii -> bool) (s : string) :
  (forall c, p c = true -> q c = true) ->
  Text.all_chars p s = true -> Text.all_chars q s = true.
Proof.
  intros Hpq. induction s as [|x s IH]; simpl; [done|].
  intros [Hx Hs]%andb_prop. by rewrite (Hpq x Hx), IH.
Qed.

Lemma span_app (p : ascii -> bool) (a b : string) :
  Text.all_chars p a = true -> stops p b ->
  Text.span p (a +:+ b) = (a, b).
Proof.
  induction a as [|x a IH]; str_simpl.
  - intros _ Hb. destruct b as [|y b]; simpl; [done|].
    simpl in Hb. by rewrite Hb.
  - intros [Hx Ha]%andb_prop Hb. by rewrite Hx, IH.
Qed.

Lemma span_spec (p : ascii -> bool) (s a b : string) :
  Text.span p s = (a, b) ->
  s = a +:+ b /\ Text.all_chars p a = true /\ stops p b.
Proof.
  revert a b. induction s as [|x s IH]; simpl; intros a b.
  - by intros [= <- <-].
  - destruct (p x) eqn:Hx.
    + destruct (Text.span p s) as [a' b'] eqn:E. intros [= <- <-].
      destruct (IH a' b' eq_refl) as (-> & Ha & Hb). str_simpl.
      by rewrite Hx, Ha.
    + intros [= <- <-]. str_simpl. by rewrite Hx.
Qed.

Lemma chomp_no_newline (s : string) :
  Text.all_chars (fun c => negb (Ascii.eqb c Text.newline)) s = true ->
  Text.chomp s = s.
Proof.
  induction s as [|x s IH]; simpl; [done|].
  intros [Hx Hs]%andb_prop. apply negb_true_iff in Hx.
  destruct s as [|y s]; [by rewrite Hx|]. by rewrite IH.
Qed.

Lemma pretty_N_char_digit (d : N) :
  (d < 10)%N ->
  Text.is_digit (pretty_N_char d) = true
  /\ (N_of_ascii (pretty_N_char d) - 48)%N = d.
Proof.
  intros Hd.
  assert (d = 0 \/ d = 1 \/ d = 2 \/ d = 3 \/ d = 4 \/ d = 5 \/ d = 6
          \/ d = 7 \/ d = 8 \/ d = 9)%N as H by lia.
  destruct H as [->|[->|[->|[->|[->|[->|[->|[->|[->| ->]]]]]]]]];
    by vm_compute.
Qed.

Lemma pretty_N_go_digits (x : N) :
  forall s, Text.all_chars Text.is_digit s = true ->
    Text.all_chars Text.is_digit (pretty_N_go x s) = true.
Proof.
  induction (N.lt_wf_0 x) as [x _ IH]; intros s Hs.
  assert (x = 0 \/ 0 < x)%N as [->|Hx] by lia.
  - by rewrite pretty_N_go_0.
  - rewrite pretty_N_go_step by done. apply IH.
    { by apply N.div_lt. }
    simpl. rewrite Hs.
    destruct (pretty_N_char_digit (x `mod` 10)) as [-> _]; [|done].
    by apply N.mod_lt.
Qed.

Lemma pretty_N_go_int (x : N) :
  forall s,
    Text.int_of_digits_acc 0 (pretty_N_go x s) = Text.int_of_digits_acc x s.
Proof.
  induction (N.lt_wf_0 x) as [x _ IH]; intros s.
  assert (x = 0 \/ 0 < x)%N as [->|Hx] by lia.
  - by rewrite pretty_N_go_0.
  - rewrite pretty_N_go_step by done. rewrite IH by (by apply N.div_lt).
    simpl.
    destruct (pretty_N_char_digit (x `mod` 10)) as [_ ->];
      [by apply N.mod_lt|].
    f_equal. pose proof (N.div_mod x 10). lia.
Qed.

Lemma pretty_N_go_nonempty (x : N) :
  forall s, s <> EmptyString -> pretty_N_go x s <> EmptyString.
Proof.
  induction (N.lt_wf_0 x) as [x _ IH]; intros s Hs.
  assert (x = 0 \/ 0 < x)%N as [->|Hx] by lia.
  - by rewrite pretty_N_go_0.
  - rewrite pretty_N_go_step by done. apply IH; [by apply N.div_lt|done].
Qed.

Lemma pretty_N_spec (n : N) :
  Text.all_chars Text.is_digit (pretty n) = true
  /\ Text.is_empty (pretty n) = false
  /\ Text.int_of_digits (pretty n) = n.
Proof.
  unfold pretty, pretty_N. case_decide as Hn.
  - subst. by vm_compute.
  - split_and!.
    + by apply pretty_N_go_digits.
    + assert (0 < n)%N as Hpos by lia.
      pose proof (pretty_N_go_step n EmptyString Hpos) as Hstep.
      rewrite Hstep.
      pose proof (pretty_N_go_nonempty (n `div` 10)
                    (String (pretty_N_char (n `mod` 10)) EmptyString)
                    ltac:(done)) as Hne.
      clear Hstep.
      destruct (pretty_N_go (n `div` 10) _); [by destruct Hne|done].
    + unfold Text.int_of_digits. by rewrite pretty_N_go_int.
Qed.

Lemma digits_dot_pretty (n : N) (rest : string) :
  digits_dot (pretty n +:+ String "."%char rest) = Some (pretty n, rest).
Proof.
  destruct (pretty_N_spec n) as (Hd & Hne & _).
  unfold digits_dot. rewrite span_app by done. by rewrite Hne.
Qed.

Lemma optional_tag_present (lead : ascii) (tag rest : string) :
  tag_text tag -> Text.is_empty tag = false -> stops is_tag_char rest ->
  optional_tag lead (String lead (tag +:+ rest)) = (tag, rest).
Proof.
  intros Ht Hne Hr. unfold optional_tag.
  rewrite (proj2 (Ascii.eqb_eq lead lead) eq_refl).
  rewrite span_app by done. by rewrite Hne.
Qed.

Lemma optional_tag_present_end (lead : ascii) (tag : string) :
  tag_text tag -> Text.is_empty tag = false ->
  optional_tag lead (String lead tag) = (tag, EmptyString).
Proof.
  intros Ht Hne.
  pose proof (optional_tag_present lead tag EmptyString Ht Hne I) as H.
  by rewrite str_app_empty_r in H.
Qed.

Lemma optional_tag_absent (lead : ascii) (rest : string) :
  stops (fun c => Ascii.eqb c lead) rest ->
  optional_tag lead rest = (EmptyString, rest).
Proof.
  destruct rest as [|c rest]; simpl; [done|]. by intros ->.
Qed.

Lemma match_semver_to_str (v : SemanticVersion) :
  tag_text (prerelease v) -> tag_text (metadata v) ->
  match_semver (to_str v)
  = Some (pretty (major v), pretty (minor v), pretty (patch v),
          prerelease v, metadata v).
Proof.
  intros Hpre Hmeta.
  destruct (pretty_N_spec (major v)) as (Hd1 & Hn1 & _).
  destruct (pretty_N_spec (minor v)) as (Hd2 & Hn2 & _).
  destruct (pretty_N_spec (patch v)) as (Hd3 & Hn3 & _).
  assert (Hnl : forall s, Text.all_chars is_tag_char s = true ->
            Text.all_chars (fun c => negb (Ascii.eqb c Text.newline)) s = true).
  { intros s. apply all_chars_weaken. intros c Hc.
    destruct (Ascii.eqb_spec c Text.newline) as [->|]; [|done].
    by vm_compute in Hc. }
  assert (Hdt : forall s, Text.all_chars Text.is_digit s = true ->
            Text.all_chars is_tag_char s = true).
  { intros s. apply all_chars_weaken. intros c Hc. unfold is_tag_char.
    rewrite Hc. by rewrite !orb_true_r. }
  set (tail :=
    (if Text.is_empty (prerelease v) then EmptyString
     else String "-"%char (prerelease v))
    +:+ (if Text.is_empty (metadata v) then EmptyString
         else String "+"%char (metadata v))).
  assert (Hstr : to_str v
                 = pretty (major v) +:+ String "."%char
                     (pretty (minor v) +:+ String "."%char
                        (pretty (patch v) +:+ tail))).
  { unfold to_str, tail.
    destruct (Text.is_empty (prerelease v)), (Text.is_empty (metadata v));
      repeat (rewrite ?str_app_assoc, ?str_app_empty_r; simpl); done. }
  unfold match_semver. rewrite Hstr.
  rewrite chomp_no_newline.
  2: { rewrite all_chars_app. simpl. rewrite all_chars_app. simpl.
       rewrite all_chars_app.
       rewrite (Hnl _ (Hdt _ Hd1)), (Hnl _ (Hdt _ Hd2)), (Hnl _ (Hdt _ Hd3)).
       simpl. unfold tail. rewrite all_chars_app.
       destruct (Text.is_empty (prerelease v)),
                (Text.is_empty (metadata v)); simpl;
         rewrite ?(Hnl _ Hpre), ?(Hnl _ Hmeta); done. }
  rewrite digits_dot_pretty, digits_dot_pretty.
  assert (Htail : stops Text.is_digit tail).
  { unfold tail.
    destruct (Text.is_empty (prerelease v)), (Text.is_empty (metadata v));
      simpl; done. }
  rewrite span_app by done. rewrite Hn3. unfold tail. clear tail Hstr Htail.
  destruct (Text.is_empty (prerelease v)) eqn:Epre;
    destruct (Text.is_empty (metadata v)) eqn:Emeta;
    rewrite ?str_app_nil, ?str_app_cons, ?str_app_empty_r.
  - apply is_empty_eq in Epre, Emeta. by rewrite Epre, Emeta.
  - apply is_empty_eq in Epre. rewrite Epre.
    rewrite (optional_tag_absent "-"%char) by done. cbv beta iota.
    rewrite optional_tag_present_end by done. done.
  - apply is_empty_eq in Emeta. rewrite Emeta.
    rewrite optional_tag_present_end by done. done.
  - rewrite optional_tag_present by done. cbv beta iota.
    rewrite optional_tag_present_end by done. done.
Qed.

Lemma optional_tag_text (lead : ascii) (s tag rest : string) :
  optional_tag lead s = (tag, rest) -> tag_text tag.
Proof.
  unfold optional_tag. destruct s as [|c s]; [by intros [= <- <-]|].
  destruct (Ascii.eqb c lead); [|by intros [= <- <-]].
  destruct (Text.span is_tag_char s) as [t r] eqn:E.
  destruct (Text.is_empty t); [by intros [= <- <-]|].
  intros [= <- <-]. by destruct (span_spec _ _ _ _ E) as (_ & H & _).
Qed.

Lemma new_tags (s : string) (v : SemanticVersion) :
  SemanticVersion_new s = Ok v ->
  tag_text (prerelease v) /\ tag_text (metadata v).
Proof.
  unfold SemanticVersion_new, match_semver.
  destruct (digits_dot (Text.chomp s)) as [[g1 r1]|]; [|done].
  destruct (digits_dot r1) as [[g2 r2]|]; [|done].
  destruct (Text.span Text.is_digit r2) as [g3 r3].
  destruct (Text.is_empty g3); [done|].
  destruct (optional_tag "-"%char r3) as [g4 r4] eqn:E4.
  destruct (optional_tag "+"%char r4) as [g5 r5] eqn:E5.
  destruct (Text.is_empty r5); [|done].
  intros [= <-]. simpl. split; by eapply optional_tag_text.
Qed.

End version_text.

(** X4. Printing and parsing round trip: the text [str(v)] of a version
    obtained from [SemanticVersion(s)] parses again, to the same major,
    minor, patch, prerelease and metadata. *)
Theorem version_str_parse_round_trip (s : string) (v : Version.SemanticVersion) :
  Version.SemanticVersion_new s = Ok v ->
  Version.SemanticVersion_new (Version.to_str v)
  = Ok {| Version.original := Version.to_str v;
          Version.major := Version.major v;
          Version.minor := Version.minor v;
          Version.patch := Version.patch v;
          Version.prerelease := Version.prerelease v;
          Version.metadata := Version.metadata v |}.
Proof.
  intros Hv. destruct (new_tags s v Hv) as [Hpre Hmeta].
  unfold Version.SemanticVersion_new at 1.
  rewrite (match_semver_to_str v Hpre Hmeta).
  destruct (pretty_N_spec (Version.major v)) as (_ & _ & ->).
  destruct (pretty_N_spec (Version.minor v)) as (_ & _ & ->).
  destruct (pretty_N_spec (Version.patch v)) as (_ & _ & ->).
  done.
Qed.

(** Witness of X4 on a version with leading zeros, a prerelease tag and
    build metadata. *)
Lemma version_str_parse_round_trip_witness :
  Version.SemanticVersion_new "01.2.03-rc.1+b5"
  = Ok (Version.mkSemVer "01.2.03-rc.1+b5" 1 2 3 "rc.1" "b5")
  /\ Version.to_str (Version.mkSemVer "01.2.03-rc.1+b5" 1 2 3 "rc.1" "b5")
     = "1.2.3-rc.1+b5"
  /\ Version.SemanticVersion_new
       (Version.to_str (Version.mkSemVer "01.2.03-rc.1+b5" 1 2 3 "rc.1" "b5"))
     = Ok (Version.mkSemVer "1.2.3-rc.1+b5" 1 2 3 "rc.1" "b5").
Proof.
  assert (H : Version.SemanticVersion_new "01.2.03-rc.1+b5"
              = Ok (Version.mkSemVer "01.2.03-rc.1+b5" 1 2 3 "rc.1" "b5"))
    by (vm_compute; reflexivity).
  split; [exact H|]. split; [vm_compute; reflexivity|].
  exact (version_str_parse_round_trip _ _ H).
Defined.

(** ** version.py: the checker's other queries *)

Section version_queries.
Import Version.

Lemma new_ok_or_value_error (s : string) :
  (exists v, SemanticVersion_new s = Ok v)
  \/ (exists msg, SemanticVersion_new s = Raise (ValueError msg)).
Proof.
  unfold SemanticVersion_new.
  destruct (match_semver s) as [[[[[g1 g2] g3] g4] g5]|]; eauto.
Qed.

Lemma parse_all_outcome (versions : list string) :
  (exists vs, parse_all versions = Ok vs
              /\ Forall2 (fun s v => SemanticVersion_new s = Ok v) versions vs)
  \/ (exists msg, parse_all versions = Raise (ValueError msg)).
Proof.
  induction versions as [|s versions IH]; simpl.
  - left. by exists [].
  - destruct (new_ok_or_value_error s) as [[v Hv]|[msg Hmsg]]; rewrite ?Hv, ?Hmsg;
      simpl; [|right; by exists msg].
    destruct IH as [(vs & -> & Hvs)|[msg ->]]; simpl.
    + left. exists (v :: vs). split; [done|]. by constructor.
    + right. by exists msg.
Qed.

Lemma lt_false_ge (a b : SemanticVersion) : lt a b = false <-> ge a b = true.
Proof. unfold ge. by rewrite negb_true_iff. Qed.

Lemma insert_descending_elem (v : SemanticVersion) (l : list SemanticVersion) :
  forall x, x ∈ insert_descending v l <-> x = v \/ x ∈ l.
Proof.
  induction l as [|w l IH]; intros x; simpl.
  - rewrite list_elem_of_singleton. set_solver.
  - destruct (lt v w).
    + rewrite !elem_of_cons, IH. tauto.
    + rewrite !elem_of_cons. tauto.
Qed.

Lemma sort_descending_elem (l : list SemanticVersion) :
  forall x, x ∈ sort_descending l <-> x ∈ l.
Proof.
  unfold sort_descending. induction l as [|v l IH]; intros x; simpl; [done|].
  rewrite insert_descending_elem, elem_of_cons, IH. tauto.
Qed.

Lemma insert_descending_sorted (v : SemanticVersion)
    (l : list SemanticVersion) :
  StronglySorted (fun a b => ge a b = true) l ->
  StronglySorted (fun a b => ge a b = true) (insert_descending v l).
Proof.
  induction l as [|w l IH]; intros Hs; simpl.
  - repeat constructor.
  - apply StronglySorted_inv in Hs as [Hl Hw].
    destruct (lt v w) eqn:Hvw.
    + constructor; [by apply IH|].
      rewrite Forall_forall. intros x [->|Hx]%insert_descending_elem.
      * apply lt_false_ge.
        destruct (lt_trichotomy v w) as [(_&_&?)|[(?&_)|(?&_)]]; congruence.
      * rewrite Forall_forall in Hw. by apply Hw.
    + constructor; [by constructor|].
      constructor; [by apply lt_false_ge|].
      rewrite Forall_forall in Hw |- *. intros x Hx.
      apply (ge_trans v w x); [by apply lt_false_ge|by apply Hw].
Qed.

Lemma sort_descending_sorted (l : list SemanticVersion) :
  StronglySorted (fun a b => ge a b = true) (sort_descending l).
Proof.
  unfold sort_descending. induction l as [|v l IH]; simpl; [constructor|].
  by apply insert_descending_sorted.
Qed.

Lemma filter_sorted (p : SemanticVersion -> bool) (l : list SemanticVersion) :
  StronglySorted (fun a b => ge a b = true) l ->
  StronglySorted (fun a b => ge a b = true) (List.filter p l).
Proof.
  induction l as [|v l IH]; intros Hs; simpl; [constructor|].
  apply StronglySorted_inv in Hs as [Hl Hv].
  destruct (p v); [|by apply IH].
  constructor; [by apply IH|].
  rewrite Forall_forall in Hv |- *. intros x Hx.
  apply Hv. apply list_elem_of_In in Hx. apply filter_In in Hx as [Hx _].
  by apply list_elem_of_In.
Qed.

Lemma head_greatest (v : SemanticVersion) (l : list SemanticVersion) :
  StronglySorted (fun a b => ge a b = true) (v :: l) ->
  forall w, w ∈ v :: l -> lt v w = false.
Proof.
  intros [_ Hv]%StronglySorted_inv w [->|Hw]%elem_of_cons.
  - apply lt_irrefl.
  - apply lt_false_ge. rewrite Forall_forall in Hv. by apply Hv.
Qed.

Lemma prefix_cons (c1 c2 : ascii) (s1 s2 : string) :
  String.prefix (String c1 s1) (String c2 s2)
  = Ascii.eqb c1 c2 && String.prefix s1 s2.
Proof.
  cbn [String.prefix].
  destruct (ascii_dec c1 c2) as [->|Hne]; [by rewrite Ascii.eqb_refl|].
  by rewrite (proj2 (Ascii.eqb_neq _ _) Hne).
Qed.

Lemma prefix_nil (s : string) : String.prefix EmptyString s = true.
Proof. by destruct s. Qed.

End version_queries.

(** X5. [check_dependency_compatibility] returns for every two texts and
    never raises: the verdict of [is_compatible_with] when both parse,
    [False] when either is malformed.  The checker's own system version
    plays no part. *)
Theorem check_dependency_compatibility_total
    (self : Version.VersionChecker) (plugin_version dependency_version : string) :
  Version.check_dependency_compatibility self plugin_version dependency_version
  = Ok match Version.SemanticVersion_new plugin_version,
             Version.SemanticVersion_new dependency_version with
       | Ok plugin_ver, Ok dep_ver =>
           Version.is_compatible_with plugin_ver dep_ver
       | _, _ => false
       end.
Proof.
  unfold Version.check_dependency_compatibility.
  destruct (new_ok_or_value_error plugin_version) as [[v ->]|[m ->]];
    [|done].
  destruct (new_ok_or_value_error dependency_version) as [[w ->]|[m ->]];
    done.
Qed.

(** X6. [get_latest_compatible] never raises.  A text it returns is the
    [str] of a version of the list that meets the minimum and that no
    version of the list meeting the minimum exceeds; it returns [None] when
    a version of the list is malformed, and returns a text whenever the list
    parses and holds a version that meets the minimum. *)
Theorem get_latest_compatible_greatest
    (self : Version.VersionChecker) (available_versions : list string)
    (min_version : option string) :
  exists latest,
    Version.get_latest_compatible self available_versions min_version
    = Ok latest
    /\ (forall text, latest = Some text ->
          exists vs v,
            Version.parse_all available_versions = Ok vs
            /\ v ∈ vs /\ text = Version.to_str v
            /\ Spec.meets_minimum min_version v
            /\ forall w, w ∈ vs -> Spec.meets_minimum min_version w ->
                         Version.lt v w = false)
    /\ ((forall vs, Version.parse_all available_versions <> Ok vs) ->
        latest = None)
    /\ (forall vs v,
          Version.parse_all available_versions = Ok vs -> v ∈ vs ->
          Spec.meets_minimum min_version v -> latest <> None).
Proof.
  unfold Version.get_latest_compatible.
  destruct (parse_all_outcome available_versions)
    as [(vs & Hvs & _)|[msg Hmsg]]; rewrite ?Hvs, ?Hmsg; simpl.
  2: { exists None. split_and!; [done|done|done|].
       intros vs v Hvs. congruence. }
  pose proof (sort_descending_sorted vs) as Hsorted.
  pose proof (sort_descending_elem vs) as Helem.
  set (sorted := Version.sort_descending vs) in *.
  assert (Hcase :
    (exists m, min_version = None \/ min_version = Some EmptyString
               \/ exists text, min_version = Some text
                    /\ Text.is_empty text = false
                    /\ Version.SemanticVersion_new text = Ok m)
    \/ (exists text msg, min_version = Some text
          /\ Text.is_empty text = false
          /\ Version.SemanticVersion_new text = Raise (ValueError msg))).
  { destruct min_version as [[|c text]|].
    - left. exists (Version.mkSemVer EmptyString 0 0 0 EmptyString EmptyString).
      auto.
    - destruct (new_ok_or_value_error (String c text)) as [[m Hm]|[msg Hm]].
      + left. exists m. right. right. by exists (String c text).
      + right. by exists (String c text), msg.
    - left. exists (Version.mkSemVer EmptyString 0 0 0 EmptyString EmptyString).
      auto. }
  destruct Hcase as [(m & Hmin)|(text & msg & -> & Hne & Hm)].
  2: { rewrite Hne. simpl. rewrite Hm. simpl. exists None.
       split_and!; [done|done|done|].
       intros vs' v _ _ [Hempty|(m & Hm' & _)]; congruence. }
  assert (Hfilter :
    exists kept,
      (match min_version with
       | Some text =>
           if negb (Text.is_empty text)
           then min_ver ← Version.SemanticVersion_new text;
                Ok (List.filter (fun v => Version.ge v min_ver) sorted)
           else Ok sorted
       | None => Ok sorted
       end) = Ok kept
      /\ StronglySorted (fun a b => Version.ge a b = true) kept
      /\ forall v, v ∈ kept <-> v ∈ vs /\ Spec.meets_minimum min_version v).
  { destruct Hmin as [->|[->|(text & -> & Hne & Hm)]].
    - exists sorted. split_and!; [done|done|]. intros v. rewrite Helem.
      simpl. tauto.
    - exists sorted. split_and!; [done|done|]. intros v. rewrite Helem.
      simpl. split; [|tauto]. intros H. split; [done|by left].
    - rewrite Hne. simpl. rewrite Hm. simpl.
      exists (List.filter (fun v => Version.ge v m) sorted).
      split_and!; [done|by apply filter_sorted|].
      intros v. rewrite list_elem_of_In, filter_In, <- list_elem_of_In, Helem.
      simpl. split.
      + intros [Hv Hge]. split; [done|]. right. by exists m.
      + intros [Hv [He|(m' & Hm' & Hge)]]; [congruence|].
        split; [done|]. congruence. }
  destruct Hfilter as (kept & -> & Hks & Hkept). simpl.
  destruct kept as [|v kept].
  - exists None. split_and!; [done|done|done|].
    intros vs' w [= <-] Hw Hmeets.
    assert (w ∈ []) as H%elem_of_nil by (apply Hkept; done). done.
  - exists (Some (Version.to_str v)).
    split_and!; [done| |intros H; by destruct (H vs)|done].
    intros text [= <-]. exists vs, v.
    destruct (proj1 (Hkept v) ltac:(left)) as [Hv Hmeets].
    split_and!; [done..|].
    intros w Hw Hwm. apply (head_greatest v kept Hks).
    apply Hkept. done.
Qed.

(** X7. [parse_version_constraint] splits off the operator the constraint
    was written with: for each of the seven operators and every version
    text that does not itself begin with [=], the constraint [op + version]
    parses to [op] and the stripped version; a constraint that begins with
    no operator is returned whole, unstripped, under [==]; and the operator
    returned is always one of the seven. *)
Theorem parse_version_constraint_operator :
  (forall op version,
     op ∈ Version.operators ->
     Spec.stops (fun c => Ascii.eqb c "="%char) version ->
     Version.parse_version_constraint (op +:+ version)
     = (op, Text.strip version))
  /\ (forall constraint,
        (forall op, op ∈ Version.operators ->
                    String.prefix op constraint = false) ->
        Version.parse_version_constraint constraint = ("==", constraint))
  /\ (forall constraint,
        (Version.parse_version_constraint constraint).1 ∈ Version.operators).
Proof.
  split_and!.
  - intros op version Hop Hv.
    assert (Hfirst : String.prefix "=" version = false).
    { destruct version as [|c version]; [done|]. simpl in Hv.
      apply Ascii.eqb_neq in Hv. cbn [String.prefix].
      destruct (ascii_dec "="%char c) as [E|E]; [by destruct Hv|done]. }
    unfold Version.parse_version_constraint.
    unfold Version.operators in Hop. rewrite !elem_of_cons in Hop.
    destruct Hop as [->|[->|[->|[->|[->|[->|[->|H]]]]]]];
      [..|by apply elem_of_nil in H].
    all: cbn [List.find Version.operators].
    all: rewrite ?str_app_cons, ?str_app_nil.
    all: repeat rewrite ?prefix_cons, ?prefix_nil.
    all: simpl; rewrite ?Hfirst; simpl; done.
  - intros constraint Hnone. unfold Version.parse_version_constraint.
    destruct (List.find _ Version.operators) as [op|] eqn:E; [|done].
    apply find_some in E as [Hop Hp]. apply list_elem_of_In in Hop.
    by rewrite (Hnone op Hop) in Hp.
  - intros constraint. unfold Version.parse_version_constraint.
    destruct (List.find _ Version.operators) as [op|] eqn:E; simpl.
    + apply find_some in E as [Hop _]. by apply list_elem_of_In.
    + apply (bool_decide_unpack _). by vm_compute.
Qed.

(** ** dependencies.py: registration and queries *)

Section dict_unique.
Context {V : Type}.
Implicit Types (d : list (string * V)) (k : string) (v : V).

Lemma keys_set_NoDup k v d :
  NoDup (Dict.keys d) -> NoDup (Dict.keys (Dict.set k v d)).
Proof.
  unfold Dict.keys. induction d as [|[k' v'] d IH]; simpl.
  - intros _. apply NoDup_singleton.
  - intros [Hk Hd]%NoDup_cons.
    destruct (String.eqb_spec k' k) as [->|Hne]; simpl.
    + by apply NoDup_cons.
    + apply NoDup_cons. split; [|by apply IH].
      intros [E|Hin]%(keys_set k v d); [congruence|done].
Qed.

Lemma get_elem_NoDup k v d :
  NoDup (Dict.keys d) -> (k, v) ∈ d -> Dict.get k d = Some v.
Proof.
  unfold Dict.keys. induction d as [|[k' v'] d IH]; simpl.
  - intros _ H. by apply elem_of_nil in H.
  - intros [Hk Hd]%NoDup_cons [[= -> ->]|Hin]%elem_of_cons.
    + by rewrite String.eqb_refl.
    + destruct (String.eqb_spec k' k) as [->|Hne]; [|by apply IH].
      destruct Hk. apply list_elem_of_fmap. by exists (k, v).
Qed.

Lemma keys_del_subset k d :
  forall x, x ∈ Dict.keys (Dict.del k d) -> x ∈ Dict.keys d.
Proof.
  unfold Dict.keys. induction d as [|[k0 v0] d IH]; intros x; simpl; [done|].
  destruct (String.eqb k0 k); simpl.
  - by right.
  - intros [->|Hin]%elem_of_cons; [left|right; by apply IH].
Qed.

Lemma get_del_eq k d : NoDup (Dict.keys d) -> Dict.get k (Dict.del k d) = None.
Proof.
  unfold Dict.keys. induction d as [|[k' v'] d IH]; simpl; [done|].
  intros [Hk Hd]%NoDup_cons.
  destruct (String.eqb_spec k' k) as [->|Hne]; simpl.
  - by apply get_None_keys.
  - destruct (String.eqb_spec k' k); [done|by apply IH].
Qed.

Lemma get_del_ne k k' d : k <> k' -> Dict.get k' (Dict.del k d) = Dict.get k' d.
Proof.
  intros Hne. induction d as [|[k0 v0] d IH]; simpl; [done|].
  destruct (String.eqb_spec k0 k) as [->|Hne0]; simpl.
  - by destruct (String.eqb_spec k k').
  - by rewrite IH.
Qed.

Lemma keys_del_NoDup k d :
  NoDup (Dict.keys d) -> NoDup (Dict.keys (Dict.del k d)).
Proof.
  induction d as [|[k' v'] d IH]; simpl; [done|].
  unfold Dict.keys in *. simpl.
  intros [Hk Hd]%NoDup_cons.
  destruct (String.eqb_spec k' k) as [->|Hne]; simpl; [done|].
  apply NoDup_cons. split; [|by apply IH].
  intros Hin. apply Hk. by apply (keys_del_subset k d).
Qed.

End dict_unique.

Section dependency_queries.
Import Dependencies Spec.

Lemma graph_get_add_eq (name : string) (deps : list string)
    (r : DependencyResolver) :
  graph_get (dependency_graph (add_plugin name deps r)) name = deps.
Proof. unfold graph_get, add_plugin. simpl. by rewrite get_set_eq. Qed.

Lemma graph_get_add_ne (name other : string) (deps : list string)
    (r : DependencyResolver) :
  name <> other ->
  graph_get (dependency_graph (add_plugin name deps r)) other
  = graph_get (dependency_graph r) other.
Proof.
  intros Hne. unfold graph_get, add_plugin. simpl. by rewrite get_set_ne.
Qed.

Lemma available_add (name : string) (deps : list string)
    (r : DependencyResolver) (p : string) :
  p ∈ available_plugins (add_plugin name deps r)
  <-> p = name \/ p ∈ available_plugins r.
Proof.
  unfold add_plugin. simpl. case_bool_decide as H.
  - split; [tauto|]. by intros [->|?].
  - rewrite elem_of_app, list_elem_of_singleton. tauto.
Qed.

Lemma edge_elem (g : list (string * list string)) (u v : string) :
  NoDup (Dict.keys g) ->
  edge g u v <-> exists ds, (u, ds) ∈ g /\ v ∈ ds.
Proof.
  intros Hnd. unfold edge, graph_get. split.
  - destruct (Dict.get u g) as [ds|] eqn:E; simpl.
    + intros Hv. exists ds. split; [by apply get_Some_elem|done].
    + by intros H%elem_of_nil.
  - intros (ds & Hin & Hv). by rewrite (get_elem_NoDup u ds g Hnd Hin).
Qed.

Lemma get_dependents_elem (r : DependencyResolver) (x p : string) :
  p ∈ get_dependents r x
  <-> exists ds, (p, ds) ∈ dependency_graph r /\ x ∈ ds.
Proof.
  unfold get_dependents. rewrite list_elem_of_fmap. split.
  - intros ([p' ds] & -> & [Hx Hin]%list_elem_of_filter). by exists ds.
  - intros (ds & Hin & Hx). exists (p, ds). split; [done|].
    by apply list_elem_of_filter.
Qed.

Lemma fmap_filter_NoDup {A B} (f : A -> B) (P : A -> Prop)
    `{!forall x, Decision (P x)} (l : list A) :
  NoDup (f <$> l) -> NoDup (f <$> filter P l).
Proof.
  induction l as [|a l IH]; simpl; [done|].
  intros [Ha Hl]%NoDup_cons. rewrite filter_cons.
  destruct (decide (P a)); simpl; [|by apply IH].
  apply NoDup_cons. split; [|by apply IH].
  intros (b & Hb & [_ Hin]%list_elem_of_filter)%list_elem_of_fmap.
  apply Ha. apply list_elem_of_fmap. by exists b.
Qed.

End dependency_queries.

(** X8. [add_plugin] registers: afterwards the plugin is available and
    [get_dependencies] returns the list it was registered with, the entries
    of the other plugins are as before, registering again replaces the
    entry instead of adding one, and the resolver stays well formed. *)
Theorem add_plugin_registers (name : string) (deps : list string)
    (r : Dependencies.DependencyResolver) :
  Dependencies.get_dependencies (Dependencies.add_plugin name deps r) name false
  = Ok deps
  /\ (forall other, other <> name ->
        Dependencies.get_dependencies (Dependencies.add_plugin name deps r)
          other false
        = Dependencies.get_dependencies r other false)
  /\ (forall p, p ∈ Dependencies.available_plugins
                      (Dependencies.add_plugin name deps r)
                <-> p = name \/ p ∈ Dependencies.available_plugins r)
  /\ (forall deps',
        Dependencies.dependency_graph
          (Dependencies.add_plugin name deps'
             (Dependencies.add_plugin name deps r))
        = Dependencies.dependency_graph (Dependencies.add_plugin name deps' r)
        /\ forall p, p ∈ Dependencies.available_plugins
                           (Dependencies.add_plugin name deps'
                              (Dependencies.add_plugin name deps r))
                     <-> p ∈ Dependencies.available_plugins
                               (Dependencies.add_plugin name deps r))
  /\ (Spec.registered r ->
      Spec.registered (Dependencies.add_plugin name deps r))
  /\ (NoDup (Dict.keys (Dependencies.dependency_graph r)) ->
      NoDup (Dict.keys (Dependencies.dependency_graph
                          (Dependencies.add_plugin name deps r)))).
Proof.
  split_and!.
  - unfold Dependencies.get_dependencies. cbn [negb].
    by rewrite graph_get_add_eq.
  - intros other Hne. unfold Dependencies.get_dependencies. cbn [negb].
    by rewrite graph_get_add_ne.
  - apply available_add.
  - intros deps'. split.
    + unfold Dependencies.add_plugin. simpl.
      induction (Dependencies.dependency_graph r) as [|[k v] g IH]; simpl.
      * by rewrite String.eqb_refl.
      * destruct (String.eqb_spec k name) as [->|Hne]; simpl.
        -- by rewrite String.eqb_refl.
        -- destruct (String.eqb_spec k name); [done|]. by rewrite IH.
    + intros p. rewrite !available_add. tauto.
  - apply registered_add_plugin.
  - apply keys_set_NoDup.
Qed.

(** X9. In a resolver whose graph has one entry per plugin (as a dictionary
    has), [get_dependents(x)] lists, without repetition, exactly the plugins
    that declare [x] as a dependency, and [can_unload(x)] holds exactly when
    there is none, whether or not [x] itself is registered. *)
Theorem get_dependents_exact (r : Dependencies.DependencyResolver)
    (x : string) :
  NoDup (Dict.keys (Dependencies.dependency_graph r)) ->
  (forall p, p ∈ Dependencies.get_dependents r x <-> Spec.depends_on r p x)
  /\ NoDup (Dependencies.get_dependents r x)
  /\ (Dependencies.can_unload r x = true
      <-> forall p, ~ Spec.depends_on r p x).
Proof.
  intros Hnd.
  assert (Hmem : forall p, p ∈ Dependencies.get_dependents r x
                           <-> Spec.depends_on r p x).
  { intros p. rewrite get_dependents_elem. unfold Spec.depends_on.
    by rewrite (edge_elem _ p x Hnd). }
  split_and!; [done| |].
  - unfold Dependencies.get_dependents. by apply fmap_filter_NoDup.
  - unfold Dependencies.can_unload. rewrite Nat.eqb_eq. split.
    + intros Hlen p Hp. apply Hmem in Hp.
      destruct (Dependencies.get_dependents r x); [|done].
      by apply elem_of_nil in Hp.
    + intros Hnone.
      destruct (Dependencies.get_dependents r x) as [|p l] eqn:E; [done|].
      destruct (Hnone p). apply Hmem. left.
Qed.

(** Witness of X9 on [{a: [], b: [a], c: [a, b]}]. *)
Lemma get_dependents_exact_witness :
  NoDup (Dict.keys (Dependencies.dependency_graph Examples.diamond))
  /\ Dependencies.get_dependents Examples.diamond "a" = ["b"; "c"]
  /\ (forall p, p ∈ Dependencies.get_dependents Examples.diamond "a"
                <-> Spec.depends_on Examples.diamond p "a")
  /\ Dependencies.can_unload Examples.diamond "c" = true.
Proof.
  assert (H : NoDup (Dict.keys
                       (Dependencies.dependency_graph Examples.diamond))).
  { apply (bool_decide_unpack _). by vm_compute. }
  split; [exact H|]. split; [by vm_compute|].
  split; [|by vm_compute].
  exact (proj1 (get_dependents_exact Examples.diamond "a" H)).
Defined.

(** ** dependencies.py: transitive dependencies *)

Section collecting.
Import Dependencies Spec.

Variable g : list (string * list string).

Lemma edge_graph_nodes (u v : string) :
  edge g u v -> u ∈ graph_nodes g /\ v ∈ graph_nodes g.
Proof.
  unfold edge, graph_get, graph_nodes.
  destruct (Dict.get u g) as [ds|] eqn:E; simpl;
    [|by intros H%elem_of_nil].
  intros Hv. apply get_Some_elem in E.
  split; apply list_elem_of_In, in_flat_map; exists (u, ds);
    (split; [by apply list_elem_of_In|]); simpl.
  - by left.
  - right. by apply list_elem_of_In.
Qed.

Lemma collected_refl (roots : list string) (st : collecting) :
  NoDup (result st) -> (forall d, d ∈ roots -> d ∈ seen st) ->
  collected g roots [] st st.
Proof.
  intros Hnd Hroots. unfold collected. split_and!; try done.
  - by intros d H%elem_of_nil.
  - by intros x Hx; left.
Qed.

Lemma collected_append (d : string) (st st' : collecting) :
  collected g [d] [] st st' ->
  exists st'',
    (if bool_decide (d ∉ result st')
     then Ok {| seen := seen st'; result := result st' ++ [d] |}
     else Ok st') = Ok st''
    /\ seen st'' = seen st'
    /\ collected g [d] [d] st st''.
Proof.
  intros (H1 & H2 & H3 & H4 & H5 & H6 & H7).
  case_bool_decide as Hd.
  - eexists. split; [done|]. split; [done|].
    unfold collected. simpl. split_and!.
    + done.
    + intros x Hx. apply elem_of_app. left. by apply H2.
    + apply NoDup_app. split_and!; [done| |apply NoDup_singleton].
      by intros x Hx ->%list_elem_of_singleton.
    + done.
    + intros x ->%list_elem_of_singleton. apply elem_of_app. right. left.
    + intros n Hn Hn'. destruct (H6 n Hn Hn') as [Hc Hr]. split; [|done].
      intros d' Hd'. destruct (Hc d' Hd') as [? ?]. split; [done|].
      apply elem_of_app. by left.
    + intros x [Hx|Hx]%elem_of_app.
      * destruct (H7 x Hx) as [?|[H%elem_of_nil|?]]; [by left|done|].
        by right; right.
      * right. by left.
  - exists st'. split; [done|]. split; [done|].
    unfold collected. split_and!; try done.
    + intros x ->%list_elem_of_singleton.
      by destruct (decide (d ∈ result st')).
    + intros x Hx.
      destruct (H7 x Hx) as [?|[H%elem_of_nil|?]]; [by left|done|].
      by right; right.
Qed.

Lemma collected_seq (d : string) (ds : list string)
    (st st1 st2 : collecting) :
  collected g [d] [d] st st1 -> collected g ds ds st1 st2 ->
  collected g (d :: ds) (d :: ds) st st2.
Proof.
  intros (A1 & A2 & A3 & A4 & A5 & A6 & A7)
         (B1 & B2 & B3 & B4 & B5 & B6 & B7).
  unfold collected. split_and!.
  - by etrans.
  - intros x Hx. by apply B2, A2.
  - done.
  - intros x [->|Hx]%elem_of_cons.
    + apply B1, A4. left.
    + by apply B4.
  - intros x [->|Hx]%elem_of_cons.
    + apply B2, A5. left.
    + by apply B5.
  - intros n Hn Hn'. destruct (decide (n ∈ seen st1)) as [Hs|Hs].
    + destruct (A6 n Hs Hn') as [Hc (root & ->%list_elem_of_singleton & Hr)].
      split.
      * intros d' Hd'. destruct (Hc d' Hd') as [? ?].
        split; [by apply B1|by apply B2].
      * exists d. split; [left|done].
    + destruct (B6 n Hn Hs) as [Hc (root & Hroot & Hr)].
      split; [done|]. exists root. split; [by right|done].
  - intros x Hx. destruct (B7 x Hx) as [Hx1|[Hx1|(n & Hn & Hn' & He)]].
    + destruct (A7 x Hx1) as [?|[->%list_elem_of_singleton|(n & Hn & Hn' & He)]].
      * by left.
      * right. left. left.
      * right. right. exists n. split_and!; [by apply B1|done|done].
    + right. left. by right.
    + right. right. exists n. split_and!; [done| |done].
      intros Hin. apply Hn'. by apply A1.
Qed.

Lemma collected_enter (name : string) (st st' : collecting) :
  name ∉ seen st ->
  collected g (graph_get g name) (graph_get g name)
    {| seen := seen st ∪ {[name]}; result := result st |} st' ->
  collected g [name] [] st st'.
Proof.
  intros Hname (H1 & H2 & H3 & H4 & H5 & H6 & H7). simpl in *.
  unfold collected. split_and!.
  - set_solver.
  - done.
  - done.
  - intros x ->%list_elem_of_singleton. set_solver.
  - by intros x H%elem_of_nil.
  - intros n Hn Hn'. destruct (decide (n = name)) as [->|Hne].
    + split.
      * intros d Hd. split; [by apply H4|by apply H5].
      * exists name. split; [left|done].
    + destruct (H6 n Hn ltac:(set_solver)) as [Hc (root & Hroot & Hr)].
      split; [done|]. exists name. split; [left|].
      by apply (rtc_l _ _ root).
  - intros x Hx. destruct (H7 x Hx) as [?|[Hx1|(n & Hn & Hn' & He)]].
    + by left.
    + right. right. exists name. split_and!; [set_solver|done|done].
    + right. right. exists n. split_and!; [done|set_solver|done].
Qed.

Variable nodes : gset string.
Hypothesis edge_nodes : forall u v, edge g u v -> u ∈ nodes /\ v ∈ nodes.

Lemma collect_deps_ok (fuel : nat) :
  forall name st,
    NoDup (result st) -> size (nodes ∖ seen st) < fuel ->
    exists st', collect_deps fuel g name st = Ok st'
                /\ collected g [name] [] st st'.
Proof.
  induction fuel as [|fuel IH]; intros name st Hnd Hsize; [lia|].
  simpl. case_bool_decide as Hseen.
  { exists st. split; [done|]. apply collected_refl; [done|].
    by intros d ->%list_elem_of_singleton. }
  set (st1 := {| seen := seen st ∪ {[name]}; result := result st |}).
  set (body := fun dep st =>
         st' ← collect_deps fuel g dep st;
         if bool_decide (dep ∉ result st')
         then Ok {| seen := seen st'; result := result st' ++ [dep] |}
         else Ok st').
  assert (Hloop : forall ds st2,
            NoDup (result st2) -> size (nodes ∖ seen st2) < fuel ->
            exists st3, for_each body ds st2 = Ok st3
                        /\ collected g ds ds st2 st3).
  { induction ds as [|d ds IHds]; intros st2 Hnd2 Hsz2.
    - exists st2. split; [done|]. apply collected_refl; [done|].
      by intros d H%elem_of_nil.
    - change (for_each body (d :: ds) st2)
        with (s' ← body d st2; for_each body ds s').
      destruct (IH d st2 Hnd2 Hsz2) as (st3 & Hst3 & Hc3).
      destruct (collected_append d st2 st3 Hc3) as (st4 & Hst4 & Hs4 & Hc4).
      assert (Hbody : body d st2 = Ok st4).
      { unfold body. rewrite Hst3. exact Hst4. }
      rewrite Hbody.
      change (Ok st4 ≫= (fun s' => for_each body ds s'))
        with (for_each body ds st4).
      assert (Hsub : seen st2 ⊆ seen st4).
      { rewrite Hs4. by destruct Hc3 as (? & _). }
      destruct (IHds st4) as (st5 & -> & Hc5).
      + by destruct Hc4 as (_ & _ & ? & _).
      + assert (size (nodes ∖ seen st4) <= size (nodes ∖ seen st2))
          by (apply subseteq_size; set_solver).
        lia.
      + exists st5. split; [done|]. by apply (collected_seq d ds st2 st4). }
  destruct (graph_get g name) as [|d0 ds0] eqn:Eg.
  - exists st1. split; [done|]. apply collected_enter; [done|].
    rewrite Eg. apply collected_refl; [done|].
    by intros d H%elem_of_nil.
  - assert (Hin : name ∈ nodes).
    { apply (edge_nodes name d0). unfold edge. rewrite Eg. left. }
    destruct (Hloop (d0 :: ds0) st1) as (st3 & -> & Hc3); [done| |].
    + assert (nodes ∖ seen st1 ⊂ nodes ∖ seen st) as Hlt%subset_size.
      { simpl. set_solver. }
      lia.
    + exists st3. split; [done|]. apply collected_enter; [done|].
      by rewrite Eg.
Qed.

End collecting.

Section dependency_closure.
Import Dependencies Spec.

Lemma size_list_to_set_le (l : list string) :
  size (list_to_set l : gset string) <= length l.
Proof.
  induction l as [|x l IH].
  - rewrite list_to_set_nil, size_empty. done.
  - rewrite list_to_set_cons. simpl length.
    destruct (decide (x ∈ (list_to_set l : gset string))) as [Hx|Hx].
    + assert (({[x]} ∪ list_to_set l : gset string) = list_to_set l) as ->
        by set_solver.
      lia.
    + rewrite size_union by set_solver. rewrite size_singleton. lia.
Qed.

(** X10. [get_dependencies(name, recursive=True)] returns on every graph,
    cyclic or with unregistered names, and never raises; the list holds,
    without repetition, exactly the plugins reachable from [name] through
    one or more declared dependencies. *)
Theorem get_dependencies_transitive (r : DependencyResolver) (name : string) :
  exists l, get_dependencies r name true = Ok l /\ NoDup l
            /\ forall d, d ∈ l <-> tc (depends_on r) name d.
Proof.
  unfold get_dependencies. cbn [negb].
  set (g := dependency_graph r).
  set (nodes := list_to_set (graph_nodes g) : gset string).
  set (st0 := {| seen := ∅; result := [] |}).
  destruct (collect_deps_ok g nodes) with
    (fuel := S (S (length (graph_nodes g)))) (name := name) (st := st0)
    as (st & Hst & H1 & H2 & H3 & H4 & H5 & H6 & H7).
  - intros u v [Hu Hv]%edge_graph_nodes.
    split; by apply elem_of_list_to_set.
  - constructor.
  - pose proof (size_list_to_set_le (graph_nodes g)).
    assert (size (nodes ∖ seen st0) <= size nodes)
      by (apply subseteq_size; set_solver).
    unfold nodes in *. lia.
  - rewrite Hst. simpl. exists (result st). split_and!; [done|done|].
    intros d. split.
    + intros Hd. destruct (H7 d Hd) as [H|[H|(n & Hn & Hn' & He)]];
        [by apply elem_of_nil in H..|].
      destruct (H6 n Hn Hn') as [_ (root & ->%list_elem_of_singleton & Hr)].
      eapply tc_rtc_l; [done|by apply tc_once].
    + assert (Hclosed : forall n d, n ∈ seen st -> tc (edge g) n d ->
                d ∈ seen st /\ d ∈ result st).
      { intros n d' Hn Hd. induction Hd as [x y Hxy|x y z Hxy Hyz IH].
        - apply (H6 x Hn); [set_solver|done].
        - apply IH. apply (H6 x Hn); [set_solver|done]. }
      intros Hd. apply (Hclosed name d); [|done].
      apply H4. left.
Qed.

End dependency_closure.


(** ** dependencies.py: the order of unloading *)

Section unload_order.
Import Dependencies Spec.

Variable r : DependencyResolver.
Variable plugins : list string.

Lemma elem_of_set {V} (k : string) (v : V) (d : list (string * V))
    (item : string * V) :
  item ∈ Dict.set k v d -> item = (k, v) \/ item ∈ d.
Proof.
  induction d as [|[k' v'] d IH]; simpl.
  - intros ->%list_elem_of_singleton. by left.
  - destruct (String.eqb_spec k' k) as [->|Hne].
    + intros [->|Hin]%elem_of_cons; [by left|right; by right].
    + intros [->|Hin]%elem_of_cons; [right; left|].
      destruct (IH Hin) as [->|?]; [by left|right; by right].
Qed.

Lemma subgraph_fold (l : list string) :
  forall sub,
    registered sub ->
    (forall item d, item ∈ dependency_graph sub -> d ∈ item.2 ->
                    d ∈ plugins) ->
    let sub' :=
      fold_left (fun subgraph plugin =>
          add_plugin plugin
            (filter (fun d => d ∈ plugins)
                    (graph_get (dependency_graph r) plugin))
            subgraph) l sub in
    registered sub'
    /\ (forall item d, item ∈ dependency_graph sub' -> d ∈ item.2 ->
                       d ∈ plugins)
    /\ (forall p, p ∈ available_plugins sub'
                  <-> p ∈ available_plugins sub \/ p ∈ l)
    /\ (forall p, graph_get (dependency_graph sub') p
                  = if bool_decide (p ∈ l)
                    then filter (fun d => d ∈ plugins)
                                (graph_get (dependency_graph r) p)
                    else graph_get (dependency_graph sub) p).
Proof.
  induction l as [|x l IH]; intros sub Hreg Hin; simpl.
  - split_and!; [done|done| |done].
    intros p. split; [by left|]. intros [?|H%elem_of_nil]; done.
  - set (deps := filter (fun d => d ∈ plugins)
                        (graph_get (dependency_graph r) x)).
    destruct (IH (add_plugin x deps sub)) as (H1 & H2 & H3 & H4).
    + by apply registered_add_plugin.
    + intros item d [->|Hitem]%elem_of_set Hd.
      * simpl in Hd. unfold deps in Hd.
        by apply list_elem_of_filter in Hd as [? _].
      * by apply (Hin item).
    + split_and!; [done|done| |].
      * intros p. rewrite H3, available_add, elem_of_cons. tauto.
      * intros p. rewrite H4.
        destruct (decide (p ∈ l)) as [Hl|Hl].
        -- rewrite !bool_decide_eq_true_2; [done|by right|done].
        -- rewrite (bool_decide_eq_false_2 (p ∈ l)) by done.
           destruct (decide (p = x)) as [->|Hne].
           ++ rewrite bool_decide_eq_true_2 by left.
              apply graph_get_add_eq.
           ++ rewrite bool_decide_eq_false_2
                by (intros [?|?]%elem_of_cons; done).
              by apply graph_get_add_ne.
Qed.

Lemma tc_impl {A} (R S : relation A) (x y : A) :
  (forall a b, R a b -> S a b) -> tc R x y -> tc S x y.
Proof.
  intros Hsub Hxy. induction Hxy as [x y Hxy|x y z Hxy Hyz IH].
  - apply tc_once. by apply Hsub.
  - eapply tc_l; [by apply Hsub|done].
Qed.

(** X11. [get_unload_order(plugins)] never raises a missing-dependency
    error, whatever the resolver holds.  It returns each requested plugin
    exactly once, every plugin before the requested plugins it depends on,
    or raises a [CircularDependencyError] naming a plugin on a cycle of
    dependencies among the requested plugins. *)
Theorem get_unload_order_dependents_first :
  (exists l, get_unload_order r plugins = Ok l /\ NoDup l
             /\ (forall p, p ∈ l <-> p ∈ plugins)
             /\ forall i x d, l !! i = Some x -> depends_within r plugins x d ->
                  exists j, i < j /\ l !! j = Some d)
  \/ (exists n, get_unload_order r plugins
                = Raise (CircularDependencyError (circular_message n))
                /\ tc (depends_within r plugins) n n).
Proof.
  unfold get_unload_order.
  destruct (subgraph_fold plugins DependencyResolver_new registered_new)
    as (Hreg & Hitems & Havail & Hget).
  { intros item d H. by apply elem_of_nil in H. }
  set (sub := fold_left _ plugins DependencyResolver_new) in *.
  assert (Hedge : forall u v, depends_on sub u v
                              <-> depends_within r plugins u v).
  { intros u v. unfold depends_on, depends_within, edge. rewrite Hget.
    case_bool_decide as Hu.
    - rewrite list_elem_of_filter. tauto.
    - simpl. split; [by intros H%elem_of_nil|tauto]. }
  assert (Hclosed : deps_closed sub).
  { unfold deps_closed. rewrite Forall_forall. intros item Hitem.
    rewrite Forall_forall. intros d Hd. apply Havail. right.
    by apply (Hitems item). }
  destruct (resolve_outcome sub Hreg Hclosed)
    as [(l & -> & Hnd & Hmem & Htopo)|(n & -> & Hcyc)]; simpl.
  - left. exists (reverse l). split_and!; [done|by rewrite reverse_Permutation| |].
    + intros p. rewrite elem_of_reverse, Hmem, Havail. simpl.
      split; [|by right]. intros [H%elem_of_nil|?]; done.
    + intros i x d Hi Hdep.
      pose proof (lookup_lt_Some _ _ _ Hi) as Hlen.
      rewrite length_reverse in Hlen.
      rewrite reverse_lookup in Hi by done.
      destruct (Htopo _ x d Hi) as (j & Hj & Hjd).
      { by apply Hedge. }
      pose proof (lookup_lt_Some _ _ _ Hjd) as Hjlen.
      exists (length l - S j). split; [lia|].
      rewrite reverse_lookup by lia.
      replace (length l - S (length l - S j)) with j by lia. done.
  - right. exists n. split; [done|].
    apply (tc_impl (depends_on sub)); [|done].
    intros a b. apply Hedge.
Qed.

End unload_order.


(** ** config.py: reading back what was set *)

Section config_paths.
Import Py Config Spec.

Lemma split_on_nonempty (sep : ascii) (s : string) : Text.split_on sep s <> [].
Proof.
  induction s as [|c s IH]; simpl; [done|].
  destruct (Ascii.eqb c sep); [done|].
  by destruct (Text.split_on sep s).
Qed.

Lemma set_loop_last (k : string) (d : dict) (value : Py.value) :
  set_loop [k] (VDict d) value = Ok (VDict (Dict.set k value d)).
Proof. reflexivity. Qed.

Lemma set_loop_create (k k' : string) (keys : list string) (d : dict)
    (value : Py.value) :
  Dict.get k d = None ->
  set_loop (k :: k' :: keys) (VDict d) value
  = (child' ← set_loop (k' :: keys) (VDict []) value;
     setitem (VDict (Dict.set k (VDict []) d)) k child').
Proof.
  intros E.
  change (set_loop (k :: k' :: keys) (VDict d) value)
    with (present ← contains (VDict d) k;
          config1 ← (if (present : bool) then Ok (VDict d)
                     else setitem (VDict d) k (VDict []));
          child0 ← getitem config1 k;
          child' ← set_loop (k' :: keys) child0 value;
          setitem config1 k child').
  unfold contains, Dict.mem. rewrite E. cbn [mbind outcome_bind setitem].
  unfold getitem at 1. rewrite get_set_eq. reflexivity.
Qed.

Lemma set_loop_ok_dict (keys : list string) (config value r : Py.value) :
  keys <> [] -> set_loop keys config value = Ok r -> is_dict config = true.
Proof.
  intros Hkeys Hset. destruct (is_dict config) eqn:E; [done|].
  destruct (set_loop_non_dict keys config value E Hkeys) as [msg Hmsg].
  congruence.
Qed.

(** One step of [set] below the key [k]: the child the loop moves to (the
    value under [k], or a new empty dictionary) is a dictionary, and the
    result holds the updated child under [k]. *)
Lemma set_loop_step (k k' : string) (keys : list string) (d : dict)
    (value r : Py.value) :
  set_loop (k :: k' :: keys) (VDict d) value = Ok r ->
  exists dc dc',
    (Dict.get k d = Some (VDict dc)
     \/ (Dict.get k d = None /\ dc = []))
    /\ set_loop (k' :: keys) (VDict dc) value = Ok (VDict dc')
    /\ exists d1, r = VDict (Dict.set k (VDict dc') d1)
                  /\ forall k2, k <> k2 -> Dict.get k2 d1 = Dict.get k2 d.
Proof.
  destruct (Dict.get k d) as [child|] eqn:E.
  - rewrite (set_loop_descend k k' keys d child value E).
    destruct (set_loop (k' :: keys) child value) as [child'| |] eqn:Ec;
      [|done..].
    pose proof (set_loop_ok_dict (k' :: keys) child value child'
                  ltac:(discriminate) Ec) as Hd.
    destruct child as [| | | | |dc]; try done.
    assert (exists dc', child' = VDict dc') as [dc' ->].
    { destruct keys as [|k2 keys].
      - rewrite set_loop_last in Ec. injection Ec as <-. by eexists.
      - destruct (Dict.get k' dc) as [c2|] eqn:E2.
        + rewrite (set_loop_descend k' k2 keys dc c2 value E2) in Ec.
          destruct (set_loop (k2 :: keys) c2 value); [|done..].
          simpl in Ec. injection Ec as <-. by eexists.
        + rewrite (set_loop_create k' k2 keys dc value E2) in Ec.
          destruct (set_loop (k2 :: keys) (VDict []) value); [|done..].
          simpl in Ec. injection Ec as <-. by eexists. }
    simpl. intros [= <-]. exists dc, dc'. split; [by left|].
    split; [done|]. by exists d.
  - rewrite (set_loop_create k k' keys d value E).
    destruct (set_loop (k' :: keys) (VDict []) value) as [child'| |] eqn:Ec;
      [|done..].
    assert (exists dc', child' = VDict dc') as [dc' ->].
    { destruct keys as [|k2 keys].
      - rewrite set_loop_last in Ec. injection Ec as <-. by eexists.
      - rewrite (set_loop_create k' k2 keys [] value eq_refl) in Ec.
        destruct (set_loop (k2 :: keys) (VDict []) value); [|done..].
        simpl in Ec. injection Ec as <-. by eexists. }
    simpl. intros [= <-]. exists [], dc'. split; [by right|].
    split; [done|]. exists (Dict.set k (VDict []) d). split; [done|].
    intros k2 Hne. by apply get_set_ne.
Qed.

Lemma set_get_loop (keys : list string) :
  keys <> [] ->
  forall d value default r,
    set_loop keys (VDict d) value = Ok r ->
    exists d', r = VDict d'
               /\ get_loop keys (VDict d') default = Ok value.
Proof.
  induction keys as [|k keys IH]; [done|]. intros _ d value default r.
  destruct keys as [|k' keys].
  - rewrite set_loop_last. intros [= <-]. eexists. split; [done|].
    rewrite (get_loop_descend k [] _ value) by apply get_set_eq. done.
  - intros (dc & dc' & _ & Hc & d1 & -> & _)%set_loop_step.
    eexists. split; [done|].
    rewrite (get_loop_descend k _ _ (VDict dc')) by apply get_set_eq.
    destruct (IH ltac:(discriminate) dc value default _ Hc) as (d' & [= <-] & Hget).
    done.
Qed.





Lemma set_outcome (self : PluginConfig) (key : string) (value : Py.value)
    (self' : PluginConfig) :
  Config.set self key value = Ok self' ->
  plugin_name self' = plugin_name self
  /\ set_loop (Text.split_on "."%char key) (VDict (config_data self)) value
     = Ok (VDict (config_data self')).
Proof.
  unfold Config.set.
  destruct (set_loop _ _ value) as [r| |] eqn:E; [|done..].
  destruct (set_get_loop _ (split_on_nonempty _ key) _ _ VNone _ E)
    as (d' & -> & _).
  by intros [= <-].
Qed.

Lemma keys_set_order {V} (k : string) (v : V) (d : list (string * V)) :
  Dict.keys (Dict.set k v d)
  = if bool_decide (k ∈ Dict.keys d) then Dict.keys d
    else Dict.keys d ++ [k].
Proof.
  unfold Dict.keys. induction d as [|[k' v'] d IH].
  - case_bool_decide as H; [by apply elem_of_nil in H|done].
  - cbn [Dict.set fmap list_fmap fst].
    destruct (String.eqb_spec k' k) as [->|Hne].
    + rewrite bool_decide_eq_true_2 by left. done.
    + cbn [fmap list_fmap fst]. rewrite IH.
      case_bool_decide as Hk.
      * rewrite bool_decide_eq_true_2 by (by right). done.
      * rewrite bool_decide_eq_false_2; [done|].
        intros [?|?]%elem_of_cons; [congruence|done].
Qed.

Lemma deep_update_keys (source : dict) :
  forall target,
    exists new,
      Dict.keys (_deep_update target source) = Dict.keys target ++ new
      /\ NoDup new
      /\ forall k, k ∈ new <-> k ∈ Dict.keys source /\ k ∉ Dict.keys target.
Proof.
  induction source as [|[k v] rest IH]; intros target.
  - exists []. split_and!; [by rewrite app_nil_r|constructor|].
    intros k. split; [by intros H%elem_of_nil|].
    by intros [H%elem_of_nil _].
  - rewrite deep_update_cons.
    destruct (IH (Dict.set k (merged v (Dict.get k target)) target))
      as (new & Hkeys & Hnd & Hnew).
    rewrite keys_set_order in Hkeys.
    assert (Hset : forall x, x ∈ Dict.keys (Dict.set k
                       (merged v (Dict.get k target)) target)
                     <-> x = k \/ x ∈ Dict.keys target) by apply keys_set.
    case_bool_decide as Hk.
    + exists new. split_and!; [done|done|].
      intros x. rewrite Hnew, Hset. unfold Dict.keys at 2. simpl.
      rewrite elem_of_cons. split.
      * intros [Hx Hn]. split; [by right|naive_solver].
      * intros [[->|Hx] Hn]; [done|]. split; [done|naive_solver].
    + exists (k :: new). split_and!.
      * rewrite Hkeys, <- app_assoc. done.
      * apply NoDup_cons. split; [|done].
        intros [_ Hn]%Hnew. apply Hn, Hset. by left.
      * intros x. rewrite elem_of_cons, Hnew, Hset. unfold Dict.keys at 2.
        simpl. rewrite elem_of_cons. split.
        -- intros [->|[Hx Hn]]; [split; [by left|done]|].
           split; [by right|naive_solver].
        -- intros [[->|Hx] Hn]; [by left|].
           destruct (decide (x = k)) as [->|Hne]; [by left|].
           right. split; [done|]. naive_solver.
Qed.

End config_paths.

(** X12. What [set] stores, [get] reads back: whenever [set(key, value)]
    returns, [get(key, default)] on the configuration it leaves is [value],
    for every default; the plugin name is untouched. *)
Theorem set_then_get (self self' : Config.PluginConfig) (key : string)
    (value default : Py.value) :
  Config.set self key value = Ok self' ->
  Config.get self' key default = Ok value
  /\ Config.plugin_name self' = Config.plugin_name self.
Proof.
  intros [Hname Hset]%set_outcome. split; [|done].
  unfold Config.get.
  destruct (set_get_loop _ (split_on_nonempty _ key) _ _ default _ Hset)
    as (d' & [= <-] & Hget).
  done.
Qed.

(** Witness of X12: [set("a.b.c", 7)] on the empty configuration creates
    the dictionaries on the way. *)
Lemma set_then_get_witness :
  Config.set Examples.empty_config "a.b.c" (Py.VInt 7)
  = Ok (Config.mkConfig "demo"
          [("a", Py.VDict [("b", Py.VDict [("c", Py.VInt 7)])])])
  /\ Config.get
       (Config.mkConfig "demo"
          [("a", Py.VDict [("b", Py.VDict [("c", Py.VInt 7)])])])
       "a.b.c" Py.VNone
     = Ok (Py.VInt 7).
Proof.
  assert (H : Config.set Examples.empty_config "a.b.c" (Py.VInt 7)
              = Ok (Config.mkConfig "demo"
                      [("a", Py.VDict [("b", Py.VDict [("c", Py.VInt 7)])])]))
    by reflexivity.
  split; [exact H|].
  exact (proj1 (set_then_get _ _ "a.b.c" (Py.VInt 7) Py.VNone H)).
Defined.



(** X14. [update] never removes or moves a top-level key: the keys of the
    configuration stay where they are, and the keys of the update that are
    new are appended after them, each once. *)
Theorem update_keeps_key_order (self : Config.PluginConfig)
    (updates : Py.dict) :
  exists new,
    Dict.keys (Config.config_data (Config.update self updates))
    = Dict.keys (Config.config_data self) ++ new
    /\ NoDup new
    /\ forall k, k ∈ new
         <-> k ∈ Dict.keys updates /\ k ∉ Dict.keys (Config.config_data self).
Proof. apply deep_update_keys. Qed.

(** ** config.py: ConfigManager *)



(** ** manifest.py: what an accepted manifest guarantees *)

Section manifest_soundness.
Import Py Manifest Spec.

Lemma text_check_sound (matcher : string -> bool) (msg : string)
    (v : value) (self self' : ManifestValidator) :
  (if negb (truthy v) then Ok self
   else m ← re_match matcher v;
        if negb m then Ok (append_error msg self) else Ok self) = Ok self' ->
  exists es, errors self' = errors self ++ es
             /\ (es = [] -> truthy v = false
                            \/ exists s, v = VStr s /\ matcher s = true).
Proof.
  destruct (truthy v) eqn:Ht; simpl.
  - destruct v as [| | |s| |]; simpl; try done.
    destruct (matcher s) eqn:Hm; simpl; intros [= <-].
    + exists []. split; [by rewrite app_nil_r|]. intros _. right. by exists s.
    + exists [msg]. split; [done|]. done.
  - intros [= <-]. exists []. split; [by rewrite app_nil_r|]. by left.
Qed.

Lemma type_check_sound (v : value) (self self' : ManifestValidator) :
  _validate_type v self = Ok self' ->
  exists es, errors self' = errors self ++ es
             /\ (es = [] -> truthy v = false
                            \/ exists s, v = VStr s /\ s ∈ VALID_TYPES).
Proof.
  unfold _validate_type. destruct (truthy v) eqn:Ht; cbn [negb].
  - destruct (existsb (fun t => str_equals t v) VALID_TYPES) eqn:He;
      cbn [negb]; intros [= <-].
    + exists []. split; [by rewrite app_nil_r|]. intros _. right.
      apply existsb_exists in He as (t & Hin & Heq).
      destruct v as [| | |s| |]; simpl in Heq; try done.
      apply String.eqb_eq in Heq as ->. exists s.
      split; [done|by apply list_elem_of_In].
    + eexists [_]. split; [done|]. done.
  - intros [= <-]. exists []. split; [by rewrite app_nil_r|]. by left.
Qed.

Lemma dependencies_check_sound (v : value) (self self' : ManifestValidator) :
  Manifest._validate_dependencies v self = Ok self' ->
  exists es, errors self' = errors self ++ es
             /\ (es = [] -> exists deps, v = VList deps
                              /\ Forall (fun d => is_str d = true) deps).
Proof.
  unfold Manifest._validate_dependencies.
  destruct v as [| | | |deps|]; try (intros [= <-]; eexists [_]; by split).
  revert self. induction deps as [|d deps IH]; intros self; simpl.
  - intros [= <-]. exists []. split; [by rewrite app_nil_r|].
    intros _. by exists [].
  - destruct (is_str d) eqn:Hd; simpl.
    + intros (es & Hes & Hok)%IH. exists es. split; [done|].
      intros Hnil. destruct (Hok Hnil) as (deps' & [= <-] & Hall).
      exists (d :: deps). split; [done|]. by constructor.
    + intros (es & Hes & Hok)%IH. simpl in Hes.
      eexists (_ :: es). split; [by rewrite Hes, <- app_assoc|]. done.
Qed.

Lemma validate_sound (manifest : dict) (self v : ManifestValidator) :
  validate manifest self = Ok (true, v) ->
  get_errors v = []
  /\ Forall (fun field => Dict.mem field manifest = true) REQUIRED_FIELDS
  /\ (forall s, Dict.get "name" manifest = Some (VStr s) ->
        s = EmptyString \/ matches_name s = true)
  /\ (forall s, Dict.get "version" manifest = Some (VStr s) ->
        s = EmptyString \/ matches_semver s = true)
  /\ (forall t, Dict.get "type" manifest = Some t ->
        truthy t = false \/ exists s, t = VStr s /\ s ∈ VALID_TYPES)
  /\ (forall s, Dict.get "entry_point" manifest = Some (VStr s) ->
        s = EmptyString \/ matches_entry_point s = true)
  /\ (forall ds, Dict.get "dependencies" manifest = Some ds ->
        exists deps, ds = VList deps
                     /\ Forall (fun d => is_str d = true) deps)
  /\ (forall s, Dict.get "requires_version" manifest = Some (VStr s) ->
        s = EmptyString \/ matches_plain_version s = true)
  /\ well_shaped manifest = true.
Proof.
  intros Hv.
  assert (Hshape : well_shaped manifest = true).
  { destruct (well_shaped manifest) eqn:E; [done|].
    destruct (validate_ill_shaped manifest self E) as [msg Hmsg]. congruence. }
  unfold validate in Hv.
  rewrite (appends_required_fields manifest) in Hv.
  cbn [mbind outcome_bind errors app] in Hv.
  set (s1 := {| errors := _ |}) in Hv.
  destruct (_validate_name _ s1) as [s2| |] eqn:E2; [|done..].
  cbn [mbind outcome_bind] in Hv.
  destruct (_validate_version _ s2) as [s3| |] eqn:E3; [|done..].
  cbn [mbind outcome_bind] in Hv.
  destruct (_validate_type _ s3) as [s4| |] eqn:E4; [|done..].
  cbn [mbind outcome_bind] in Hv.
  destruct (_validate_entry_point _ s4) as [s5| |] eqn:E5; [|done..].
  cbn [mbind outcome_bind] in Hv.
  destruct (Manifest._validate_dependencies _ s5) as [s6| |] eqn:E6;
    [|done..].
  cbn [mbind outcome_bind] in Hv.
  destruct (_validate_requires_version _ s6) as [s7| |] eqn:E7; [|done..].
  cbn [mbind outcome_bind] in Hv. injection Hv as Hlen <-.
  apply Nat.eqb_eq, nil_length_inv in Hlen.
  apply text_check_sound in E2 as (e2 & H2 & P2).
  apply text_check_sound in E3 as (e3 & H3 & P3).
  apply type_check_sound in E4 as (e4 & H4 & P4).
  apply text_check_sound in E5 as (e5 & H5 & P5).
  apply dependencies_check_sound in E6 as (e6 & H6 & P6).
  apply text_check_sound in E7 as (e7 & H7 & P7).
  rewrite Hlen in H7. symmetry in H7. apply app_eq_nil in H7 as [H7 ->].
  rewrite H7 in H6. symmetry in H6. apply app_eq_nil in H6 as [H6 ->].
  rewrite H6 in H5. symmetry in H5. apply app_eq_nil in H5 as [H5 ->].
  rewrite H5 in H4. symmetry in H4. apply app_eq_nil in H4 as [H4 ->].
  rewrite H4 in H3. symmetry in H3. apply app_eq_nil in H3 as [H3 ->].
  rewrite H3 in H2. symmetry in H2. apply app_eq_nil in H2 as [H2 ->].
  unfold s1 in H2. simpl in H2. apply fmap_nil_inv in H2.
  specialize (P2 eq_refl). specialize (P3 eq_refl). specialize (P4 eq_refl).
  specialize (P5 eq_refl). specialize (P6 eq_refl). specialize (P7 eq_refl).
  unfold manifest_get in *.
  split_and!; [done| | | | | | | |done].
  - rewrite Forall_forall. intros field Hin.
    destruct (Dict.mem field manifest) eqn:Em; [done|].
    assert (field ∈ filter (fun field => Dict.mem field manifest = false)
                           REQUIRED_FIELDS) as Hf
      by (by apply list_elem_of_filter).
    rewrite H2 in Hf. by apply elem_of_nil in Hf.
  - intros s Hs. rewrite Hs in P2.
    destruct P2 as [Ht|(s' & [= <-] & Hm)]; [|by right].
    left. simpl in Ht. apply negb_false_iff in Ht. by destruct s.
  - intros s Hs. rewrite Hs in P3.
    destruct P3 as [Ht|(s' & [= <-] & Hm)]; [|by right].
    left. simpl in Ht. apply negb_false_iff in Ht. by destruct s.
  - intros t Ht. by rewrite Ht in P4.
  - intros s Hs. rewrite Hs in P5.
    destruct P5 as [Ht|(s' & [= <-] & Hm)]; [|by right].
    left. simpl in Ht. apply negb_false_iff in Ht. by destruct s.
  - intros ds Hds. by rewrite Hds in P6.
  - intros s Hs. rewrite Hs in P7.
    destruct P7 as [Ht|(s' & [= <-] & Hm)]; [|by right].
    left. simpl in Ht. apply negb_false_iff in Ht. by destruct s.
Qed.



Lemma check_returns (vc : Version.VersionChecker) (plugin_name rv : string) :
  exists message,
    Version.check_plugin_compatibility vc plugin_name rv
    = Ok (match Version.SemanticVersion_new rv with
          | Ok required =>
              Version.is_compatible_with (Version.system_version vc) required
          | _ => false
          end, message).
Proof.
  unfold Version.check_plugin_compatibility.
  destruct (new_outcome rv) as [[v ->] | ->].
  - destruct (Version.is_compatible_with _ v); eauto.
  - eauto.
Qed.


End manifest_soundness.

(** X16. What [validate] vouches for.  When it returns [True], no error is
    recorded, the four required fields are present, and each checked field
    is acceptable: a name, version, entry point or required version that is
    text is empty or matches its pattern, the type is falsy or one of the
    valid types, and the dependencies, when given, are a list of texts. *)
Theorem validate_accepts_sound (manifest : Py.dict)
    (self v : Manifest.ManifestValidator) :
  Manifest.validate manifest self = Ok (true, v) ->
  Manifest.get_errors v = []
  /\ Forall (fun field => Dict.mem field manifest = true)
       Manifest.REQUIRED_FIELDS
  /\ (forall s, Dict.get "name" manifest = Some (Py.VStr s) ->
        s = EmptyString \/ Manifest.matches_name s = true)
  /\ (forall s, Dict.get "version" manifest = Some (Py.VStr s) ->
        s = EmptyString \/ Manifest.matches_semver s = true)
  /\ (forall t, Dict.get "type" manifest = Some t ->
        Py.truthy t = false
        \/ exists s, t = Py.VStr s /\ s ∈ Manifest.VALID_TYPES)
  /\ (forall s, Dict.get "entry_point" manifest = Some (Py.VStr s) ->
        s = EmptyString \/ Manifest.matches_entry_point s = true)
  /\ (forall ds, Dict.get "dependencies" manifest = Some ds ->
        exists deps, ds = Py.VList deps
                     /\ Forall (fun d => Py.is_str d = true) deps)
  /\ (forall s, Dict.get "requires_version" manifest = Some (Py.VStr s) ->
        s = EmptyString \/ Manifest.matches_plain_version s = true)
  /\ Spec.well_shaped manifest = true.
Proof. apply validate_sound. Qed.

(** Witness of X16 on the manifest of plugin [a]. *)
Lemma validate_accepts_sound_witness :
  Manifest.validate (Examples.sample_manifest "a" [] (Some "1.0.0"))
    (Manifest.mkValidator [])
  = Ok (true, Manifest.mkValidator [])
  /\ Forall (fun field =>
               Dict.mem field (Examples.sample_manifest "a" [] (Some "1.0.0"))
               = true)
       Manifest.REQUIRED_FIELDS.
Proof.
  assert (H : Manifest.validate (Examples.sample_manifest "a" [] (Some "1.0.0"))
                (Manifest.mkValidator [])
              = Ok (true, Manifest.mkValidator []))
    by (vm_compute; reflexivity).
  split; [exact H|].
  exact (proj1 (proj2 (validate_accepts_sound _ _ _ H))).
Defined.



(** ** manifest.py and base.py: templates and plugin types *)

Section manifest_template.
Import Py Manifest Spec.

Lemma template_lookup (name version plugin_type entry_point : string)
    (kwargs : dict) :
  let m := create_manifest_template name version plugin_type entry_point
             kwargs in
  Forall (fun field => Dict.mem field m = true) REQUIRED_FIELDS
  /\ manifest_get m "name" VNone = VStr name
  /\ manifest_get m "version" VNone = VStr version
  /\ manifest_get m "type" VNone = VStr plugin_type
  /\ manifest_get m "entry_point" VNone = VStr entry_point
  /\ manifest_get m "dependencies" (VList [])
     = manifest_get kwargs "dependencies" (VList [])
  /\ manifest_get m "requires_version" (VStr "0.0.0")
     = manifest_get kwargs "requires_version" (VStr "0.1.0").
Proof. simpl. split_and!; [by repeat constructor|done..]. Qed.

Lemma text_check_verdict (matcher : string -> bool) (msg s : string)
    (self : ManifestValidator) :
  exists es,
    (if negb (truthy (VStr s)) then Ok self
     else m ← re_match matcher (VStr s);
          if negb m then Ok (append_error msg self) else Ok self)
    = Ok {| errors := errors self ++ es |}
    /\ Nat.eqb (length es) 0 = Text.is_empty s || matcher s.
Proof.
  destruct s as [|c s]; simpl.
  - exists []. split; [apply appends_none|done].
  - destruct (matcher (String c s)); simpl.
    + exists []. split; [apply appends_none|done].
    + by eexists [_].
Qed.

Lemma type_check_verdict (s : string) (self : ManifestValidator) :
  exists es,
    _validate_type (VStr s) self = Ok {| errors := errors self ++ es |}
    /\ Nat.eqb (length es) 0
       = Text.is_empty s || bool_decide (s ∈ VALID_TYPES).
Proof.
  unfold _validate_type.
  assert (Hex : existsb (fun t => str_equals t (VStr s)) VALID_TYPES
                = bool_decide (s ∈ VALID_TYPES)).
  { apply eq_true_iff_eq. rewrite existsb_exists, bool_decide_eq_true.
    split.
    - intros (t & Hin & ->%String.eqb_eq). by apply list_elem_of_In.
    - intros Hin. exists s. split; [by apply list_elem_of_In|].
      apply String.eqb_refl. }
  rewrite Hex. destruct s as [|c s]; cbn [truthy Text.is_empty negb orb].
  - exists []. split; [apply appends_none|done].
  - destruct (bool_decide (String c s ∈ VALID_TYPES)); cbn [negb].
    + exists []. split; [apply appends_none|done].
    + by eexists [_].
Qed.

(** X18. A manifest made by [create_manifest_template] without
    [dependencies] and [requires_version] among the keyword arguments is
    accepted by [validate] exactly when each of name, version, type and
    entry point is empty or well formed; the defaults the template fills in
    never cause an error. *)
Theorem create_manifest_template_verdict (name version plugin_type entry_point : string)
    (kwargs : dict) (self : ManifestValidator) :
  Dict.get "dependencies" kwargs = None ->
  Dict.get "requires_version" kwargs = None ->
  exists v,
    validate (create_manifest_template name version plugin_type entry_point
                kwargs) self
    = Ok ((Text.is_empty name || matches_name name)
          && (Text.is_empty version || matches_semver version)
          && (Text.is_empty plugin_type
              || bool_decide (plugin_type ∈ VALID_TYPES))
          && (Text.is_empty entry_point || matches_entry_point entry_point),
          v).
Proof.
  intros Hdeps Hrv.
  destruct (template_lookup name version plugin_type entry_point kwargs)
    as (Hreq & Hn & Hv & Ht & He & Hd & Hr).
  unfold validate. rewrite Hn, Hv, Ht, He, Hd, Hr.
  unfold manifest_get. rewrite Hdeps, Hrv.
  rewrite (appends_required_fields _).
  assert (filter (fun field =>
                    Dict.mem field
                      (create_manifest_template name version plugin_type
                         entry_point kwargs) = false) REQUIRED_FIELDS = [])
    as ->.
  { induction Hreq as [|field fields Hf _ IH]; [done|].
    rewrite filter_cons. case_decide as Hc; [congruence|done]. }
  cbn [mbind outcome_bind fmap list_fmap errors app].
  unfold _validate_name.
  destruct (text_check_verdict matches_name
              ("Invalid plugin name '" +:+ str (VStr name)
               +:+ "'. Must contain only lowercase letters, "
               +:+ "numbers, hyphens, and underscores") name
              {| errors := [] |}) as (e1 & -> & H1).
  cbn [mbind outcome_bind errors app].
  unfold _validate_version.
  destruct (text_check_verdict matches_semver
              ("Invalid version '" +:+ str (VStr version)
               +:+ "'. Must follow semantic versioning (e.g., 1.0.0)")
              version {| errors := e1 |}) as (e2 & -> & H2).
  cbn [mbind outcome_bind errors].
  destruct (type_check_verdict plugin_type {| errors := e1 ++ e2 |})
    as (e3 & -> & H3).
  cbn [mbind outcome_bind errors].
  unfold _validate_entry_point.
  destruct (text_check_verdict matches_entry_point
              ("Invalid entry_point '" +:+ str (VStr entry_point) +:+ "'. "
               +:+ "Must be a valid Python module path (e.g., 'module.ClassName')")
              entry_point {| errors := (e1 ++ e2) ++ e3 |})
    as (e4 & -> & H4).
  cbn [mbind outcome_bind errors].
  eexists. simpl. f_equal. f_equal.
  rewrite <- H1, <- H2, <- H3, <- H4.
  rewrite ?app_nil_r, !length_app.
  destruct (length e1), (length e2), (length e3), (length e4); done.
Qed.

End manifest_template.

Section plugin_types.
Import Py Base.

Lemma type_of_value_value (t : PluginType) :
  PluginType_of_value (VStr (PluginType_value t)) = Some t.
Proof. by destruct t. Qed.

Lemma valid_types_values (s : string) :
  s ∈ Manifest.VALID_TYPES <-> exists t, PluginType_value t = s.
Proof.
  split.
  - unfold Manifest.VALID_TYPES. rewrite !elem_of_cons.
    intros [->|[->|[->|[->|[->|[->|H]]]]]];
      [by exists HOOK|by exists VALIDATOR|by exists QUALITY_CHECK
      |by exists CLI_UTILITY|by exists INTEGRATION|by exists CUSTOM
      |by apply elem_of_nil in H].
  - intros [t <-]. apply (bool_decide_unpack _). by destruct t.
Qed.

Lemma type_of_value_Some (v : value) (t : PluginType) :
  PluginType_of_value v = Some t -> v = VStr (PluginType_value t).
Proof.
  unfold PluginType_of_value. intros [_ H]%find_some.
  destruct v as [| | |s| |]; try done. simpl in H.
  apply String.eqb_eq in H. by rewrite H.
Qed.

Lemma plugin_type_cases (p : PluginInstance) :
  (forall s, Dict.get "type" (manifest p) = Some (VStr s) ->
     s ∈ Manifest.VALID_TYPES -> PluginType_value (plugin_type p) = s)
  /\ (forall v, Dict.get "type" (manifest p) = Some v ->
        (forall s, v = VStr s -> s ∉ Manifest.VALID_TYPES) ->
        plugin_type p = CUSTOM)
  /\ (Dict.get "type" (manifest p) = None -> plugin_type p = CUSTOM).
Proof.
  unfold plugin_type, Manifest.manifest_get. split_and!.
  - intros s -> [t <-]%valid_types_values.
    by rewrite type_of_value_value.
  - intros v -> Hv.
    destruct (PluginType_of_value v) as [t|] eqn:E; [|done].
    apply type_of_value_Some in E.
    destruct (Hv _ E). apply valid_types_values. by exists t.
  - by intros ->.
Qed.

End plugin_types.


(** Witness of X18: a well-formed template with an author. *)
Lemma create_manifest_template_verdict_witness :
  Dict.get "dependencies" [("author", Py.VStr "me")] = None
  /\ Dict.get "requires_version" [("author", Py.VStr "me")] = None
  /\ exists v,
       Manifest.validate
         (Manifest.create_manifest_template "my-plugin" "1.2.3" "hook"
            "plugin.MyPlugin" [("author", Py.VStr "me")])
         (Manifest.mkValidator [])
       = Ok (true, v).
Proof.
  split; [reflexivity|]. split; [reflexivity|].
  exact (create_manifest_template_verdict "my-plugin" "1.2.3" "hook"
           "plugin.MyPlugin" [("author", Py.VStr "me")]
           (Manifest.mkValidator []) eq_refl eq_refl).
Defined.

(** X19. Plugin types.  The valid types of the manifest schema are exactly
    the values of [PluginType], and [PluginType(t.value)] is [t].  The
    [plugin_type] of a plugin is the member named by its manifest when the
    manifest's type is valid, and [CUSTOM] when it is anything else or
    absent. *)
Theorem plugin_type_of_manifest (p : Base.PluginInstance) :
  (forall t, Base.PluginType_of_value (Py.VStr (Base.PluginType_value t))
             = Some t)
  /\ (forall s, s ∈ Manifest.VALID_TYPES
                <-> exists t, Base.PluginType_value t = s)
  /\ (forall s, Dict.get "type" (Base.manifest p) = Some (Py.VStr s) ->
        s ∈ Manifest.VALID_TYPES ->
        Base.PluginType_value (Base.plugin_type p) = s)
  /\ (forall v, Dict.get "type" (Base.manifest p) = Some v ->
        (forall s, v = Py.VStr s -> s ∉ Manifest.VALID_TYPES) ->
        Base.plugin_type p = Base.CUSTOM)
  /\ (Dict.get "type" (Base.manifest p) = None ->
      Base.plugin_type p = Base.CUSTOM).
Proof.
  split; [exact type_of_value_value|]. split; [exact valid_types_values|].
  apply plugin_type_cases.
Qed.

(** ** loader.py: PluginLoader *)

Section loader_paths.
Import Py Base Version Loader Spec.

(** X20. [PluginLoader.load_plugin] returns only when every stage has
    succeeded: the manifest has a name and an entry point, the version
    check passed, the class was resolved and implements the plugin
    interface, instantiation did not raise, and [initialize(config)] and
    [validate()] both returned [True]; the instance returned is [LOADED],
    holds the manifest, and has not been cleaned up. *)
Theorem load_plugin_returns_checked (env : Env) (self : PluginLoader)
    (plugin_info : PluginInfo) (config : dict) (inst : PluginInstance) :
  returned (load_plugin env self plugin_info config) = Ok inst ->
  exists name message entry_point cls,
    Dict.get "name" (info_manifest plugin_info) = Some name
    /\ check_manifest_compatibility (version_checker self) name
         (Manifest.manifest_get (info_manifest plugin_info)
            "requires_version" (VStr "0.0.0")) = Ok (true, message)
    /\ Dict.get "entry_point" (info_manifest plugin_info) = Some entry_point
    /\ (_load_plugin_class env self entry_point
          (info_directory plugin_info)).2 = Ok cls
    /\ inherits_PluginInterface cls = true
    /\ on_construct cls (info_manifest plugin_info) = None
    /\ on_initialize cls config = Returns true
    /\ on_validate cls = Returns true
    /\ inst = mkInstance cls (info_manifest plugin_info) LOADED 0.
Proof.
  unfold load_plugin, getitem.
  destruct (Dict.get "name" (info_manifest plugin_info)) as [name|] eqn:En;
    simpl; [|done].
  destruct (check_manifest_compatibility _ _ _) as [[[] message]|e|] eqn:Echk;
    simpl; [|done..].
  destruct (Dict.get "entry_point" (info_manifest plugin_info))
    as [entry_point|] eqn:Ee; simpl; [|done].
  pose proof (load_plugin_class_checked env self entry_point
                (info_directory plugin_info)) as Hcls.
  destruct (_load_plugin_class _ _ _ _) as [self' [cls|e|]] eqn:Ecls;
    simpl in *; [|done..].
  unfold instantiate.
  destruct (on_construct cls _) eqn:Ec; simpl; [done|].
  destruct (on_initialize cls config) as [[]|] eqn:Ei; simpl; [|done..].
  destruct (on_validate cls) as [[]|] eqn:Ev; simpl; [|done..].
  intros [= <-]. exists name, message, entry_point, cls.
  split_and!; try done; [by rewrite Ecls|by apply Hcls].
Qed.

Lemma load_module_cached (env : Env) (self self' : PluginLoader)
    (unique_module_name module_path plugin_dir : string) (module : PyModule) :
  load_module env self unique_module_name module_path plugin_dir
  = (self', Ok module) ->
  Dict.get unique_module_name (loaded_modules self') = Some module
  /\ version_checker self' = version_checker self.
Proof.
  unfold load_module.
  destruct (Dict.get unique_module_name (loaded_modules self))
    as [cached|] eqn:E.
  - intros [= <- <-]. done.
  - destruct (negb (file_exists env _)); [done|].
    destruct (exec_module env _ _) as [m|e|]; [|done..].
    intros [= <- <-]. simpl. by rewrite get_set_eq.
Qed.

(** X21. The module cache of the loader.  After [_load_plugin_class] has
    returned a class, the same call on the loader it leaves returns the
    same class whatever the file system and the import machinery then do,
    and leaves the loader as it is; the version checker is never
    replaced. *)
Theorem load_plugin_class_cached (env : Env) (self self' : PluginLoader)
    (entry_point : value) (plugin_dir : string) (cls : PluginClass) :
  _load_plugin_class env self entry_point plugin_dir = (self', Ok cls) ->
  version_checker self' = version_checker self
  /\ forall env',
       _load_plugin_class env' self' entry_point plugin_dir = (self', Ok cls).
Proof.
  unfold _load_plugin_class, load_plugin_class_body.
  destruct entry_point as [| | |ep| |]; try done.
  destruct (Text.rsplit1 "."%char ep) as [[module_path class_name]|];
    [|done].
  destruct (load_module env self _ module_path plugin_dir)
    as [self1 [module|e|]] eqn:Em; [|by destruct e|done].
  destruct (load_module_cached _ _ _ _ _ _ _ Em) as [Hget Hvc].
  cbn [mbind outcome_bind].
  destruct (Dict.get class_name module) as [[plugin_class|]|] eqn:Ec;
    [|done..].
  destruct (inherits_PluginInterface plugin_class) eqn:Ei; [|done].
  cbn [negb]. intros [= <- <-]. split; [done|].
  intros env'. unfold load_module. rewrite Hget.
  cbn [mbind outcome_bind]. by rewrite Ec, Ei.
Qed.

Lemma load_plugin_raises (env : Env) (self : PluginLoader)
    (plugin_info : PluginInfo) (config : dict) (e : exn) :
  returned (load_plugin env self plugin_info config) = Raise e ->
  (exists msg, e = PluginLoadError msg)
  \/ (Dict.get "name" (info_manifest plugin_info) = None
      /\ e = KeyError "name")
  \/ (Dict.get "entry_point" (info_manifest plugin_info) = None
      /\ e = KeyError "entry_point")
  \/ (exists rv,
        Dict.get "requires_version" (info_manifest plugin_info) = Some rv
        /\ is_str rv = false /\ e = TypeError (not_text_message rv)).
Proof.
  unfold load_plugin, getitem.
  destruct (Dict.get "name" (info_manifest plugin_info)) as [name|] eqn:En;
    simpl; [|intros [= <-]; right; by left].
  unfold check_manifest_compatibility, Manifest.manifest_get.
  destruct (Dict.get "requires_version" (info_manifest plugin_info))
    as [rv|] eqn:Er.
  - destruct rv as [| | |s| |];
      try (simpl; intros [= <-]; right; right; right; by eexists).
    destruct (check_returns (version_checker self) (str name) s)
      as [message ->].
    destruct (match SemanticVersion_new s with Ok _ => _ | _ => false end);
      simpl; [|intros [= <-]; left; by eexists].
    destruct (Dict.get "entry_point" (info_manifest plugin_info))
      as [entry_point|] eqn:Ee; simpl;
      [|intros [= <-]; right; right; by left].
    pose proof (load_plugin_class_raises env self entry_point
                  (info_directory plugin_info)) as Hcls.
    destruct (_load_plugin_class _ _ _ _) as [self' [cls|e'|]]; simpl in *;
      [|intros [= <-]; left; by apply Hcls|done].
    destruct (instantiate cls _ name config) as [inst [p|e'|]]; simpl;
      [done|intros [= <-]; left; by eexists|done].
  - destruct (check_returns (version_checker self) (str name) "0.0.0")
      as [message ->].
    destruct (match SemanticVersion_new "0.0.0" with Ok _ => _ | _ => false end);
      simpl; [|intros [= <-]; left; by eexists].
    destruct (Dict.get "entry_point" (info_manifest plugin_info))
      as [entry_point|] eqn:Ee; simpl;
      [|intros [= <-]; right; right; by left].
    pose proof (load_plugin_class_raises env self entry_point
                  (info_directory plugin_info)) as Hcls.
    destruct (_load_plugin_class _ _ _ _) as [self' [cls|e'|]]; simpl in *;
      [|intros [= <-]; left; by apply Hcls|done].
    destruct (instantiate cls _ name config) as [inst [p|e'|]]; simpl;
      [done|intros [= <-]; left; by eexists|done].
Qed.


End loader_paths.


(** Witness of X20: plugin [a] under the host version 1.0.0. *)
Lemma load_plugin_returns_checked_witness :
  exists inst,
    Loader.returned
      (Loader.load_plugin (Examples.two_plugins Examples.sound_class)
         Examples.default_loader (Examples.plugin_a_info (Some "1.0.0")) [])
    = Ok inst
    /\ Base.status inst = Base.LOADED.
Proof.
  eexists. split; [vm_compute; reflexivity|].
  destruct (load_plugin_returns_checked
              (Examples.two_plugins Examples.sound_class)
              Examples.default_loader (Examples.plugin_a_info (Some "1.0.0"))
              [] _ eq_refl)
    as (name & message & entry_point & cls & _ & _ & _ & _ & _ & _ & _ & _ & H).
  exact (f_equal Base.status H).
Defined.


(** Witness of X21: once [main.Plugin] of plugin [a] is loaded, it is found
    again when no file exists any more. *)
Lemma load_plugin_class_cached_witness :
  exists self' cls,
    Loader._load_plugin_class (Examples.two_plugins Examples.sound_class)
      Examples.default_loader (Py.VStr "main.Plugin") "plugins/a"
    = (self', Ok cls)
    /\ Loader._load_plugin_class
         (Loader.mkEnv (fun _ => false)
            (fun _ _ => Raise (PluginCodeError "gone")) [])
         self' (Py.VStr "main.Plugin") "plugins/a"
       = (self', Ok cls).
Proof.
  eexists _, _. split; [vm_compute; reflexivity|].
  refine (proj2 (load_plugin_class_cached
                   (Examples.two_plugins Examples.sound_class)
                   Examples.default_loader _ (Py.VStr "main.Plugin")
                   "plugins/a" _ _) _).
  vm_compute. reflexivity.
Defined.

(** X22. What [PluginLoader.load_plugin] raises.  Every exception is a
    [PluginLoadError], except a [KeyError] for a manifest without [name] or
    [entry_point] and a [TypeError] for a [requires_version] that is not
    text.  For a manifest that [validate] accepts only the last exception
    is left, and the value is then falsy. *)
Theorem load_plugin_exceptions (env : Loader.Env)
    (self : Loader.PluginLoader) (plugin_info : Loader.PluginInfo)
    (config : Py.dict) (e : exn) :
  Loader.returned (Loader.load_plugin env self plugin_info config) = Raise e ->
  ((exists msg, e = PluginLoadError msg)
   \/ (Dict.get "name" (Loader.info_manifest plugin_info) = None
       /\ e = KeyError "name")
   \/ (Dict.get "entry_point" (Loader.info_manifest plugin_info) = None
       /\ e = KeyError "entry_point")
   \/ (exists rv,
         Dict.get "requires_version" (Loader.info_manifest plugin_info)
         = Some rv
         /\ Py.is_str rv = false /\ e = TypeError (Spec.not_text_message rv)))
  /\ (forall validator checked,
        Manifest.validate (Loader.info_manifest plugin_info) validator
        = Ok (true, checked) ->
        (exists msg, e = PluginLoadError msg)
        \/ (exists rv,
              Dict.get "requires_version" (Loader.info_manifest plugin_info)
              = Some rv
              /\ Py.is_str rv = false /\ Py.truthy rv = false
              /\ e = TypeError (Spec.not_text_message rv))).
Proof.
  intros Hraise. pose proof (load_plugin_raises _ _ _ _ _ Hraise) as Hcases.
  split; [exact Hcases|].
  intros validator checked Hv.
  destruct (validate_sound _ _ _ Hv) as (_ & Hreq & _ & _ & _ & _ & _ & _ & Hw).
  rewrite Forall_forall in Hreq.
  destruct Hcases as [?|[[Hn _]|[[He _]|(rv & Hrv & Hs & ->)]]].
  - by left.
  - specialize (Hreq "name" ltac:(apply (bool_decide_unpack _); by vm_compute)).
    unfold Dict.mem in Hreq. by rewrite Hn in Hreq.
  - specialize (Hreq "entry_point"
                  ltac:(apply (bool_decide_unpack _); by vm_compute)).
    unfold Dict.mem in Hreq. by rewrite He in Hreq.
  - right. exists rv. split_and!; [done|done| |done].
    pose proof (manifest_get_shaped _ "requires_version" (Py.VStr "0.0.0")
                  Hw checked_requires_version eq_refl) as Hts.
    unfold Manifest.manifest_get in Hts. rewrite Hrv in Hts.
    unfold Spec.text_or_falsy in Hts. rewrite Hs in Hts.
    by apply negb_true_iff in Hts.
Qed.

(** Witness of X22: the version check refuses plugin [a] when the host is
    1.0.0 and the manifest asks for 2.0.0. *)
Lemma load_plugin_exceptions_witness :
  Loader.returned
    (Loader.load_plugin (Examples.two_plugins Examples.sound_class)
       Examples.default_loader (Examples.plugin_a_info (Some "2.0.0")) [])
  = Raise (PluginLoadError
             "Plugin a requires version 2.0.0 or higher (current version: 1.0.0)")
  /\ forall validator checked,
       Manifest.validate
         (Loader.info_manifest (Examples.plugin_a_info (Some "2.0.0")))
         validator = Ok (true, checked) ->
       (exists msg,
          PluginLoadError
            "Plugin a requires version 2.0.0 or higher (current version: 1.0.0)"
          = PluginLoadError msg)
       \/ (exists rv,
             Dict.get "requires_version"
               (Loader.info_manifest (Examples.plugin_a_info (Some "2.0.0")))
             = Some rv
             /\ Py.is_str rv = false /\ Py.truthy rv = false
             /\ PluginLoadError
                  "Plugin a requires version 2.0.0 or higher (current version: 1.0.0)"
                = TypeError (Spec.not_text_message rv)).
Proof.
  assert (H : Loader.returned
                (Loader.load_plugin (Examples.two_plugins Examples.sound_class)
                   Examples.default_loader
                   (Examples.plugin_a_info (Some "2.0.0")) [])
              = Raise (PluginLoadError
                   "Plugin a requires version 2.0.0 or higher (current version: 1.0.0)"))
    by (vm_compute; reflexivity).
  split; [exact H|].
  exact (proj2 (load_plugin_exceptions _ _ _ _ _ H)).
Defined.

(** ** loader.py: discovery *)

Section discovery.
Import Py Base Loader Manager Spec.





End discovery.


(** ** loader.py: PluginManager *)

Section loops.

Lemma for_each_st_inv {A S} (I : S -> Prop)
    (body : A -> S -> S * outcome ()) (xs : list A) :
  (forall x s, I s -> I (body x s).1) ->
  forall s, I s -> I (for_each_st body xs s).1.
Proof.
  intros Hbody. induction xs as [|x xs IH]; intros s Hs; simpl; [done|].
  specialize (Hbody x s Hs).
  destruct (body x s) as [s' [[]|e|]]; simpl in *; [by apply IH|done..].
Qed.



Lemma Forall_set {V} (P : V -> Prop) (k : string) (v : V)
    (d : list (string * V)) :
  Forall (fun item => P item.2) d -> P v ->
  Forall (fun item => P item.2) (Dict.set k v d).
Proof.
  intros Hd Hv. induction Hd as [|[k' v'] d Hx Hd IH]; simpl.
  - by constructor.
  - destruct (String.eqb k' k); by constructor.
Qed.

Lemma Forall_del {V} (P : V -> Prop) (k : string) (d : list (string * V)) :
  Forall (fun item => P item.2) d ->
  Forall (fun item => P item.2) (Dict.del k d).
Proof.
  intros Hd. induction Hd as [|[k' v'] d Hx Hd IH]; simpl; [done|].
  destruct (String.eqb k' k); [done|by constructor].
Qed.

End loops.

Section manager_facts.
Import Py Base Version Dependencies Loader Manager Spec.

Lemma discover_plugins_frame (env : Env) (self : PluginManager) :
  loaded_plugins (discover_plugins env self).1 = loaded_plugins self
  /\ dependency_resolver (discover_plugins env self).1
     = dependency_resolver self.
Proof. unfold discover_plugins. by destruct (discover env). Qed.


Lemma register_discovered_frame (self : PluginManager) :
  loaded_plugins (register_discovered self).1 = loaded_plugins self.
Proof.
  unfold register_discovered.
  apply (for_each_st_inv
           (fun s => loaded_plugins s = loaded_plugins self)); [|done].
  intros info s Hs. by destruct (getitem _ _).
Qed.


Lemma load_step_all_loaded (env : Env) (plugin_name : string)
    (plugin_info : PluginInfo) (config : dict) (self : PluginManager) :
  all_loaded self ->
  let res := Loader.load_plugin env (loader self) plugin_info config in
  all_loaded
    (match returned res with
     | Ok plugin =>
         (with_loaded
            (Dict.set plugin_name plugin
               (loaded_plugins (with_loader (loader_after res) self)))
            (with_loader (loader_after res) self), Ok ())
     | Raise e => (with_loader (loader_after res) self, Raise e)
     | OutOfFuel => (with_loader (loader_after res) self, OutOfFuel)
     end).1.
Proof.
  intros Hall res.
  destruct (returned res) as [plugin|e|] eqn:E; simpl; [|done..].
  unfold all_loaded. simpl. apply (Forall_set (fun p => status p = LOADED)); [done|].
  by apply (load_success_loaded env (loader self) plugin_info config).
Qed.

Lemma load_in_order_all_loaded (env : Env) (load_order : list string)
    (self : PluginManager) :
  all_loaded self -> all_loaded (load_in_order env load_order self).1.
Proof.
  unfold load_in_order. apply (for_each_st_inv all_loaded).
  intros plugin_name s Hs.
  destruct (find_discovered s plugin_name) as [plugin_info|]; [|done].
  by apply load_step_all_loaded.
Qed.

Lemma load_all_plugins_all_loaded (env : Env)
    (configs : option (list (string * dict))) (self : PluginManager) :
  all_loaded self -> all_loaded (load_all_plugins env configs self).1.
Proof.
  intros Hall. unfold load_all_plugins.
  set (self1 := match configs with
                | Some (_ :: _ as c) => with_configs c self
                | _ => self
                end).
  assert (H1 : all_loaded self1) by (unfold self1; by destruct configs as [[|]|]).
  assert (H2 : all_loaded
                 (match discovered_plugins self1 with
                  | [] => discover_plugins env self1
                  | _ => (self1, Ok ())
                  end).1).
  { destruct (discovered_plugins self1); [|done].
    unfold all_loaded. by rewrite (proj1 (discover_plugins_frame env self1)). }
  destruct (match discovered_plugins self1 with
            | [] => discover_plugins env self1
            | _ => (self1, Ok ())
            end) as [self2 [[]|e|]]; simpl in *; [|done..].
  assert (H3 : all_loaded (register_discovered self2).1).
  { unfold all_loaded. by rewrite register_discovered_frame. }
  destruct (register_discovered self2) as [self3 [[]|e|]]; simpl in *;
    [|done..].
  destruct (resolve (dependency_resolver self3)) as [load_order|e|]; simpl.
  - by apply load_in_order_all_loaded.
  - by destruct (is_DependencyError e).
  - done.
Qed.

Lemma lazy_load_inv (I : PluginManager -> Prop) (env : Env) :
  (forall s, I s -> I (discover_plugins env s).1) ->
  (forall s l, I s -> I (with_loader l s)) ->
  (forall s name plugin_info config plugin,
     I s ->
     returned (Loader.load_plugin env (loader s) plugin_info config)
     = Ok plugin ->
     I (with_loaded
          (Dict.set name plugin (loaded_plugins s))
          (with_loader
             (loader_after (Loader.load_plugin env (loader s) plugin_info
                              config)) s))) ->
  forall fuel plugin_name config self,
    I self -> I (Manager.load_plugin fuel env plugin_name config self).1.
Proof.
  intros Hdisc Hloader Hload.
  induction fuel as [|fuel IH]; intros plugin_name config self Hs; [done|].
  simpl. destruct (Dict.mem plugin_name (loaded_plugins self)); [done|].
  assert (H1 : I (match discovered_plugins self with
                  | [] => discover_plugins env self
                  | _ => (self, Ok ())
                  end).1).
  { destruct (discovered_plugins self); [by apply Hdisc|done]. }
  destruct (match discovered_plugins self with
            | [] => discover_plugins env self
            | _ => (self, Ok ())
            end) as [self1 [[]|e|]]; simpl in *; [|done..].
  destruct (find_discovered self1 plugin_name) as [plugin_info|]; [|done].
  set (deps := dependency_names _).
  assert (H2 : I (for_each_st (fun dep s =>
                      if negb (Dict.mem dep (loaded_plugins s))
                      then Manager.load_plugin fuel env dep None s
                      else (s, Ok ())) deps self1).1).
  { apply (for_each_st_inv I); [|done]. intros dep s Hs'.
    destruct (negb (Dict.mem dep (loaded_plugins s))); [by apply IH|done]. }
  destruct (for_each_st _ deps self1) as [self2 [[]|e|]]; simpl in *;
    [|done..].
  set (plugin_config := match config with
                        | Some (_ :: _ as c) => c
                        | _ => default [] (Dict.get plugin_name
                                             (plugin_configs self2))
                        end).
  destruct (returned (Loader.load_plugin env (loader self2) plugin_info
                        plugin_config)) as [plugin|e|] eqn:E; simpl.
  - by apply (Hload self2 plugin_name plugin_info plugin_config plugin).
  - by apply Hloader.
  - by apply Hloader.
Qed.

Lemma lazy_load_all_loaded (env : Env) (fuel : nat) (plugin_name : string)
    (config : option dict) (self : PluginManager) :
  all_loaded self ->
  all_loaded (Manager.load_plugin fuel env plugin_name config self).1.
Proof.
  apply (lazy_load_inv all_loaded).
  - intros s Hs. unfold all_loaded.
    by rewrite (proj1 (discover_plugins_frame env s)).
  - done.
  - intros s name plugin_info config' plugin Hs Hp. unfold all_loaded. simpl.
    apply (Forall_set (fun p => status p = LOADED)); [done|].
    by apply (load_success_loaded env (loader s) plugin_info config').
Qed.

Lemma lazy_load_resolver (env : Env) (fuel : nat) (plugin_name : string)
    (config : option dict) (self : PluginManager) :
  dependency_resolver (Manager.load_plugin fuel env plugin_name config self).1
  = dependency_resolver self.
Proof.
  apply (lazy_load_inv
           (fun s => dependency_resolver s = dependency_resolver self));
    [|done|done|done].
  intros s Hs. by rewrite (proj2 (discover_plugins_frame env s)).
Qed.

Lemma unload_all_loaded (plugin_name : string) (self : PluginManager) :
  all_loaded self -> all_loaded (manager_after (unload_plugin plugin_name self)).
Proof.
  intros Hall. unfold unload_plugin.
  destruct (Dict.get plugin_name (loaded_plugins self)) as [plugin|]; [|done].
  destruct (negb _); [done|].
  destruct (cleanup plugin) as [plugin'|e|]; [|done..].
  unfold all_loaded. simpl. by apply (Forall_del (fun p => status p = LOADED)).
Qed.





End manager_facts.

(** X24. [unload_plugin], case by case, for a manager that holds one entry
    per loaded plugin.  A plugin that is not loaded: nothing happens.  A
    loaded plugin on which another registered plugin depends: a
    [PluginLoadError] naming the dependents, and [cleanup()] is not called.
    Otherwise [cleanup()] is called; when it returns, the plugin is
    [UNLOADED] and no longer held while the others are; when it raises, the
    exception escapes as it is and the plugin stays loaded with its status
    unchanged. *)
Theorem unload_plugin_cases (plugin_name : string)
    (self : Manager.PluginManager) :
  NoDup (Dict.keys (Manager.loaded_plugins self)) ->
  match Manager.get_plugin self plugin_name with
  | None =>
      Manager.unload_plugin plugin_name self
      = Manager.mkUnloadResult self None (Ok ())
  | Some plugin =>
      if Dependencies.can_unload (Manager.dependency_resolver self)
           plugin_name
      then
        match Base.on_cleanup (Base.instance_class plugin) with
        | Some e =>
            Manager.unload_plugin plugin_name self
            = Manager.mkUnloadResult self (Some plugin) (Raise e)
        | None =>
            Manager.ended (Manager.unload_plugin plugin_name self) = Ok ()
            /\ Manager.unloaded (Manager.unload_plugin plugin_name self)
               = Some (Base.mkInstance (Base.instance_class plugin)
                         (Base.manifest plugin) Base.UNLOADED
                         (S (Base.cleanup_calls plugin)))
            /\ Manager.get_plugin
                 (Manager.manager_after
                    (Manager.unload_plugin plugin_name self)) plugin_name
               = None
            /\ forall other, other <> plugin_name ->
                 Manager.get_plugin
                   (Manager.manager_after
                      (Manager.unload_plugin plugin_name self)) other
                 = Manager.get_plugin self other
        end
      else
        Manager.unload_plugin plugin_name self
        = Manager.mkUnloadResult self None
            (Raise (PluginLoadError
                      ("Cannot unload " +:+ plugin_name +:+ ": required by "
                       +:+ Text.join ", "
                             (Dependencies.get_dependents
                                (Manager.dependency_resolver self)
                                plugin_name))))
  end.
Proof.
  intros Hnd. unfold Manager.get_plugin, Manager.unload_plugin.
  destruct (Dict.get plugin_name (Manager.loaded_plugins self))
    as [plugin|] eqn:E; [|done].
  destruct (Dependencies.can_unload _ plugin_name); simpl; [|done].
  unfold Base.cleanup.
  destruct (Base.on_cleanup (Base.instance_class plugin)); [done|].
  simpl. split_and!; [done|done|by apply get_del_eq|].
  intros other Hne. by apply get_del_ne.
Qed.

(** Witness of X24: unloading [b] after [load_all_plugins]. *)
Lemma unload_plugin_cases_witness :
  NoDup (Dict.keys (Manager.loaded_plugins Examples.both_loaded))
  /\ Manager.get_plugin
       (Manager.manager_after
          (Manager.unload_plugin "b" Examples.both_loaded)) "b" = None.
Proof.
  assert (H : NoDup (Dict.keys (Manager.loaded_plugins Examples.both_loaded))).
  { apply (bool_decide_unpack _). by vm_compute. }
  split; [exact H|].
  pose proof (unload_plugin_cases "b" Examples.both_loaded H) as Hc.
  vm_compute in Hc. vm_compute. exact (proj1 (proj2 (proj2 Hc))).
Defined.

(** X25. Whatever the manager holds as loaded is [LOADED]: if that is so
    before, it is so after [load_all_plugins], the lazy [load_plugin],
    [unload_plugin] and [reload_plugin], whether they return or raise (the
    plugins loaded before a failure stay loaded). *)
Theorem manager_keeps_loaded_status (env : Loader.Env)
    (self : Manager.PluginManager) :
  Spec.all_loaded self ->
  (forall configs,
     Spec.all_loaded (Manager.load_all_plugins env configs self).1)
  /\ (forall fuel plugin_name config,
        Spec.all_loaded
          (Manager.load_plugin fuel env plugin_name config self).1)
  /\ (forall plugin_name,
        Spec.all_loaded
          (Manager.manager_after (Manager.unload_plugin plugin_name self)))
  /\ (forall fuel plugin_name,
        Spec.all_loaded (Manager.reload_plugin fuel env plugin_name self).1).
Proof.
  intros Hall. split_and!.
  - intros configs. by apply load_all_plugins_all_loaded.
  - intros fuel plugin_name config. by apply lazy_load_all_loaded.
  - intros plugin_name. by apply unload_all_loaded.
  - intros fuel plugin_name. unfold Manager.reload_plugin.
    pose proof (unload_all_loaded plugin_name self Hall) as Hu.
    destruct (Manager.ended (Manager.unload_plugin plugin_name self));
      [|done..].
    by apply lazy_load_all_loaded.
Qed.

(** Witness of X25 on the new manager, which holds nothing. *)
Lemma manager_keeps_loaded_status_witness :
  Spec.all_loaded Examples.default_manager
  /\ Spec.all_loaded Examples.both_loaded.
Proof.
  assert (H : Spec.all_loaded Examples.default_manager) by constructor.
  split; [exact H|].
  exact (proj1 (manager_keeps_loaded_status
                  (Examples.two_plugins Examples.sound_class)
                  Examples.default_manager H) None).
Defined.



(** X27. [get_plugins_by_type(t)] returns, in the order in which they were
    loaded, exactly the loaded plugins whose [plugin_type] has the value
    [t]; for a text that is not the value of a plugin type the list is
    empty, and a plugin whose manifest names no valid type is listed under
    [custom]. *)
Theorem get_plugins_by_type_exact (self : Manager.PluginManager)
    (plugin_type : string) :
  (forall p, p ∈ Manager.get_plugins_by_type self plugin_type
             <-> p ∈ (Manager.loaded_plugins self).*2
                 /\ Base.PluginType_value (Base.plugin_type p) = plugin_type)
  /\ Manager.get_plugins_by_type self plugin_type
     `sublist_of` (Manager.loaded_plugins self).*2
  /\ (plugin_type ∉ Manifest.VALID_TYPES ->
      Manager.get_plugins_by_type self plugin_type = [])
  /\ (forall p v,
        p ∈ (Manager.loaded_plugins self).*2 ->
        Dict.get "type" (Base.manifest p) = Some v ->
        (forall s, v = Py.VStr s -> s ∉ Manifest.VALID_TYPES) ->
        p ∈ Manager.get_plugins_by_type self "custom").
Proof.
  assert (Hmem : forall t p,
            p ∈ Manager.get_plugins_by_type self t
            <-> p ∈ (Manager.loaded_plugins self).*2
                /\ Base.PluginType_value (Base.plugin_type p) = t).
  { intros t p. unfold Manager.get_plugins_by_type.
    rewrite list_elem_of_In, filter_In, <- list_elem_of_In, String.eqb_eq.
    done. }
  split_and!.
  - apply Hmem.
  - clear Hmem. unfold Manager.get_plugins_by_type.
    induction ((Manager.loaded_plugins self).*2) as [|p l IH]; simpl; [done|].
    destruct (String.eqb _ plugin_type).
    + by apply sublist_skip.
    + by apply sublist_cons.
  - intros Hn.
    destruct (Manager.get_plugins_by_type self plugin_type) as [|p l] eqn:E;
      [done|].
    assert (p ∈ Manager.get_plugins_by_type self plugin_type) as Hp
      by (rewrite E; left).
    apply Hmem in Hp as [_ Hp]. destruct Hn.
    apply valid_types_values. by eexists.
  - intros p v Hp Hv Hs. apply Hmem. split; [done|].
    by rewrite (proj1 (proj2 (plugin_type_cases p)) v Hv Hs).
Qed.

(** X28. The lazy [load_plugin], [unload_plugin] and [reload_plugin] never
    register anything with the dependency resolver: it is after the call
    what it was before.  So in a manager that has only loaded lazily,
    [can_unload] holds for every plugin, also for one that a loaded plugin
    depends on. *)
Theorem lazy_loading_skips_resolver (env : Loader.Env)
    (self : Manager.PluginManager) :
  (forall fuel plugin_name config,
     Manager.dependency_resolver
       (Manager.load_plugin fuel env plugin_name config self).1
     = Manager.dependency_resolver self)
  /\ (forall plugin_name,
        Manager.dependency_resolver
          (Manager.manager_after (Manager.unload_plugin plugin_name self))
        = Manager.dependency_resolver self)
  /\ (forall fuel plugin_name,
        Manager.dependency_resolver
          (Manager.reload_plugin fuel env plugin_name self).1
        = Manager.dependency_resolver self)
  /\ (Manager.dependency_resolver self = Dependencies.DependencyResolver_new ->
      forall fuel plugin_name config other,
        Dependencies.can_unload
          (Manager.dependency_resolver
             (Manager.load_plugin fuel env plugin_name config self).1) other
        = true).
Proof.
  split_and!.
  - intros fuel plugin_name config. apply lazy_load_resolver.
  - intros plugin_name. apply unload_keeps_resolver.
  - intros fuel plugin_name. unfold Manager.reload_plugin.
    pose proof (unload_keeps_resolver plugin_name self) as Hu.
    destruct (Manager.ended (Manager.unload_plugin plugin_name self));
      [|done..].
    by rewrite lazy_load_resolver.
  - intros Hnew fuel plugin_name config other.
    by rewrite lazy_load_resolver, Hnew.
Qed.

(** X29. The lazy [load_plugin] has no cycle detection.  On a discovered
    plugin that is not loaded and whose first declared dependency is the
    plugin itself, the recursion does not end: whatever bound is put on its
    depth, the call neither returns nor raises an error of the plugin
    system. *)
Theorem lazy_load_self_dependency (env : Loader.Env)
    (self : Manager.PluginManager) (plugin_name : string)
    (plugin_info : Loader.PluginInfo) (others : list string) :
  Dict.mem plugin_name (Manager.loaded_plugins self) = false ->
  Manager.find_discovered self plugin_name = Some plugin_info ->
  Manager.dependency_names
    (Manifest.manifest_get (Loader.info_manifest plugin_info) "dependencies"
       (Py.VList []))
  = plugin_name :: others ->
  forall fuel config,
    Manager.load_plugin fuel env plugin_name config self = (self, OutOfFuel).
Proof.
  intros Hmem Hfind Hdeps.
  assert (Hdisc : match Manager.discovered_plugins self with
                  | [] => Manager.discover_plugins env self
                  | _ => (self, Ok ())
                  end = (self, Ok ())).
  { unfold Manager.find_discovered in Hfind.
    by destruct (Manager.discovered_plugins self). }
  induction fuel as [|fuel IH]; intros config; [done|].
  simpl. rewrite Hmem, Hdisc, Hfind, Hdeps. simpl.
  rewrite Hmem. simpl. by rewrite IH.
Qed.

(** Witness of X29: a plugin [a] that lists itself as a dependency. *)
Lemma lazy_load_self_dependency_witness :
  let m :=
    Manager.with_discovered
      [Loader.mkInfo (Examples.sample_manifest "a" ["a"] (Some "1.0.0"))
         "plugins/a" "plugins/a/plugin.json"]
      Examples.default_manager in
  Manifest.validate (Examples.sample_manifest "a" ["a"] (Some "1.0.0"))
    (Manifest.mkValidator [])
  = Ok (true, Manifest.mkValidator [])
  /\ forall fuel config,
       Manager.load_plugin fuel (Examples.two_plugins Examples.sound_class)
         "a" config m
       = (m, OutOfFuel).
Proof.
  intros m. split; [vm_compute; reflexivity|].
  exact (lazy_load_self_dependency
           (Examples.two_plugins Examples.sound_class) m "a"
           (Loader.mkInfo (Examples.sample_manifest "a" ["a"] (Some "1.0.0"))
              "plugins/a" "plugins/a/plugin.json") []
           eq_refl eq_refl eq_refl).
Defined.

(** ** dependencies.py: resolve always ends *)

(** X30. On every resolver built by [add_plugin], [resolve()] ends in one
    of three ways: it returns a load order, it raises
    [MissingDependencyError], or it raises [CircularDependencyError].  The
    traversal never exhausts the bound it is given, and the
    [temp_mark.remove(node)] of [visit] never raises [KeyError]. *)
Theorem resolve_total (r : Dependencies.DependencyResolver) :
  Spec.registered r ->
  (exists l, Dependencies.resolve r = Ok l)
  \/ (exists X Y,
        Dependencies.resolve r
        = Raise (MissingDependencyError (Dependencies.missing_message X Y)))
  \/ (exists n,
        Dependencies.resolve r
        = Raise (CircularDependencyError (Dependencies.circular_message n))).
Proof.
  intros Hreg.
  destruct (Spec.first_missing r) as [[X Y]|] eqn:E.
  - right. left. exists X, Y. unfold Dependencies.resolve.
    by rewrite validate_first_missing, E.
  - assert (Hclosed : Spec.deps_closed r).
    { unfold Spec.deps_closed. rewrite Forall_forall. intros [X ds] Hitem.
      rewrite Forall_forall. intros Y HY. simpl in HY.
      destruct (decide (Y ∈ Dependencies.available_plugins r)) as [|Hn];
        [done|].
      by destruct (first_missing_not_None r X Y ds Hitem HY Hn). }
    destruct (resolve_outcome r Hreg Hclosed)
      as [(l & Hl & _)|(n & Hn & _)].
    + left. by exists l.
    + right. right. by exists n.
Qed.

(** Witness of X30 on [{a: [], b: [a], c: [a, b]}]. *)
Lemma resolve_total_witness :
  Spec.registered Examples.diamond
  /\ ((exists l, Dependencies.resolve Examples.diamond = Ok l)
      \/ (exists X Y,
            Dependencies.resolve Examples.diamond
            = Raise (MissingDependencyError
                       (Dependencies.missing_message X Y)))
      \/ (exists n,
            Dependencies.resolve Examples.diamond
            = Raise (CircularDependencyError
                       (Dependencies.circular_message n)))).
Proof.
  split; [exact diamond_registered|].
  exact (resolve_total Examples.diamond diamond_registered).
Defined.
